(** * ps2000: host-side driver for the EA-PS2000 power supply

    A shallow embedding of [ps2000.py] and the properties of its
    telegram codec, typed accessors and device session.

    Python integers are [Z]; byte strings ([bytearray], [bytes]) are
    lists of [Z] with the range check of [bytearray] written out;
    Python floats are binary64 ([PrimFloat.float]); exceptions and
    [sys.exit] are the [Raise] outcome of a state-and-error monad whose
    state holds the serial port and the standard output. *)

From Stdlib Require Import String Ascii ZArith List Bool Lia.
From Stdlib Require Import DecimalString HexadecimalString.
From Stdlib Require Import Floats.
From Stdlib Require Import Reals Lra.
Import ListNotations.

Local Open Scope string_scope.
Local Open Scope list_scope.
Local Open Scope Z_scope.

(** ** Outcomes: a value, or a raised exception *)

Inductive exn : Type :=
| ValueError
| IndexError
| TypeError
| ZeroDivisionError
| OverflowError
| SerialException
| StructError
| KeyboardInterrupt
| SystemExit (code : Z).

Inductive outcome (A : Type) : Type :=
| Return (a : A)
| Raise (e : exn).

Arguments Return {A} a.
Arguments Raise {A} e.

Definition bindO {A B} (o : outcome A) (k : A -> outcome B) : outcome B :=
  match o with
  | Return a => k a
  | Raise e => Raise e
  end.

Declare Scope py_scope.
Delimit Scope py_scope with py.

Notation "'try!' x <- e ; k" := (bindO e (fun x => k))
  (at level 10, x name, e at level 100, k at level 200) : py_scope.

Local Open Scope py_scope.

(** ** Byte sequences *)

Definition is_byte (x : Z) : bool := (0 <=? x) && (x <? 256).

Definition len (l : list Z) : Z := Z.of_nat (List.length l).

(** [bytearray.append]: a value outside [range(0, 256)] raises. *)
Definition bytearray_append (t : list Z) (x : Z) : outcome (list Z) :=
  if is_byte x then Return (t ++ [x]) else Raise ValueError.

(** [bytearray.extend] with a list of integers. *)
Definition bytearray_extend (t data : list Z) : outcome (list Z) :=
  if forallb is_byte data then Return (t ++ data) else Raise ValueError.

(** [t[0] += k] on a bytearray. *)
Definition bytearray_iadd0 (t : list Z) (k : Z) : outcome (list Z) :=
  match t with
  | [] => Raise IndexError
  | x :: rest => if is_byte (x + k) then Return ((x + k) :: rest)
                 else Raise ValueError
  end.

(** [cs = 0; for b in l: cs += b]. *)
Definition byte_sum (l : list Z) : Z := fold_left Z.add l 0.

(** Indexing [l[i]] with Python's negative indices. *)
Definition getitem (l : list Z) (i : Z) : outcome Z :=
  let j := if i <? 0 then i + len l else i in
  if (0 <=? j) && (j <? len l) then Return (nth (Z.to_nat j) l 0)
  else Raise IndexError.

(** Slicing [l[lo:hi]]: negative bounds count from the end, and both
    bounds are clamped to the sequence. *)
Definition clamp_index (n i : Z) : Z :=
  Z.max 0 (Z.min n (if i <? 0 then i + n else i)).

Definition slice (l : list Z) (lo hi : Z) : list Z :=
  let a := clamp_index (len l) lo in
  let b := clamp_index (len l) hi in
  firstn (Z.to_nat (b - a)) (skipn (Z.to_nat a) l).

(** ** Telegram codec: construction *)

Definition PS_QUERY : Z := 0x40.
Definition PS_SEND : Z := 0xC0.

Definition _construct (type node obj : Z) (data : list Z)
  : outcome (list Z) :=
  let telegram := [] in
  try! telegram <- bytearray_append telegram (0x30 + type);
  try! telegram <- bytearray_append telegram node;
  try! telegram <- bytearray_append telegram obj;
  try! telegram <-
    (if len data >? 0 then
       try! telegram <- bytearray_extend telegram data;
       bytearray_iadd0 telegram (len data - 1)
     else Return telegram);
  let cs := byte_sum telegram in
  try! telegram <- bytearray_append telegram (Z.shiftr cs 8);
  try! telegram <- bytearray_append telegram (Z.land cs 0xFF);
  Return telegram.

(** ** The world: serial port and standard output *)

Inductive event : Type :=
| EvWrite (telegram : list Z)
| EvRead (size : Z) (ans : list Z)
| EvClose.

(** [incoming] is what the device delivers to each successive [read];
    [trace] records the port operations in the order they happen. *)
Record world : Type := mkWorld {
  stdout : string;
  is_open : bool;
  incoming : list (list Z);
  trace : list event
}.

Definition M (A : Type) : Type := world -> outcome A * world.

Definition ret {A} (a : A) : M A := fun w => (Return a, w).

Definition raise {A} (e : exn) : M A := fun w => (Raise e, w).

Definition bind {A B} (m : M A) (k : A -> M B) : M B :=
  fun w => match m w with
           | (Return a, w') => k a w'
           | (Raise e, w') => (Raise e, w')
           end.

Definition lift {A} (o : outcome A) : M A := fun w => (o, w).

Notation "'do' x <- e ; k" := (bind e (fun x => k))
  (at level 10, x name, e at level 100, k at level 200) : py_scope.
Notation "e ;; k" := (bind e (fun _ => k))
  (at level 100, k at level 200, right associativity) : py_scope.

Definition nl : string := String (ascii_of_nat 10) EmptyString.

(** [print(s, end=e)] *)
Definition print_end (s e : string) : M unit :=
  fun w => (Return tt,
            mkWorld (stdout w ++ s ++ e)%string (is_open w) (incoming w) (trace w)).

(** [print(s)] *)
Definition print (s : string) : M unit := print_end s nl.

(** [sys.exit(code)] *)
Definition sys_exit {A} (code : Z) : M A := raise (SystemExit code).

(** ** The serial port ([serial.Serial]) *)

(** [write] and [read] raise [SerialException] on a closed port.  A
    failing transfer on an open port, a device unplugged in the middle
    of a session, is not part of this model of the port. *)

Definition ser_write (telegram : list Z) : M Z :=
  fun w =>
    if is_open w then
      (Return (len telegram),
       mkWorld (stdout w) true (incoming w) (trace w ++ [EvWrite telegram]))
    else (Raise SerialException, w).

(** What the next [read(size)] returns: at most [size] bytes of what the
    device has delivered, nothing on a timeout. *)
Definition peek_read (size : Z) (w : world) : list Z :=
  match incoming w with
  | [] => []
  | chunk :: _ => firstn (Z.to_nat size) chunk
  end.

Definition after_read (size : Z) (w : world) : list (list Z) :=
  match incoming w with
  | [] => []
  | chunk :: rest =>
      match skipn (Z.to_nat size) chunk with
      | [] => rest
      | leftover => leftover :: rest
      end
  end.

Definition ser_read (size : Z) : M (list Z) :=
  fun w =>
    if is_open w then
      let ans := peek_read size w in
      (Return ans,
       mkWorld (stdout w) true (after_read size w)
               (trace w ++ [EvRead size ans]))
    else (Raise SerialException, w).

Definition ser_close : M unit :=
  fun w => (Return tt,
            mkWorld (stdout w) false (incoming w) (trace w ++ [EvClose])).

(** ** String formatting *)

(** ["%d" % n] *)
Definition fmt_d (n : Z) : string :=
  DecimalString.NilZero.string_of_int (Z.to_int n).

(** ["%02x " % b]: lower-case hexadecimal, zero-padded to width two. *)
Definition hex (n : Z) : string :=
  HexadecimalString.NilZero.string_of_uint (N.to_hex_uint (Z.to_N n)).

Definition fmt_02x (b : Z) : string :=
  String.append
    (if b <? 0 then String.append "-" (hex (- b))
     else if (String.length (hex b) <? 2)%nat then String.append "0" (hex b)
          else hex b)
    " ".

(** [for b in l: print("%02x " % (b), end="")] *)
Fixpoint print_bytes (l : list Z) : M unit :=
  match l with
  | [] => ret tt
  | b :: rest => print_end (fmt_02x b) "" ;; print_bytes rest
  end.

(** ** Telegram codec: checking a response *)

Definition _check_checksum (ans : list Z) : M bool :=
  let cs := byte_sum (slice ans 0 (-2)) in
  do hi <- lift (getitem ans (-2));
  if negb (hi =? Z.shiftr cs 8) then
    print "ERROR: checksum mismatch" ;; sys_exit 1
  else
    do lo <- lift (getitem ans (-1));
    if negb (lo =? Z.land cs 0xFF) then
      print "ERROR: checksum mismatch" ;; sys_exit 1
    else ret true.

(** The message printed for an error code, if the code is a known one. *)
Definition error_message (code : Z) : option string :=
  if code =? 0x03 then Some "ERROR: checksum incorrect"
  else if code =? 0x04 then Some "ERROR: start delimiter incorrect"
  else if code =? 0x05 then Some "ERROR: wrong address for output"
  else if code =? 0x07 then Some "ERROR: object not defined"
  else if code =? 0x08 then Some "ERROR: object length incorrect"
  else if code =? 0x09 then Some "ERROR: access denied"
  else if code =? 0x0F then Some "ERROR: device is locked"
  else if code =? 0x30 then Some "ERROR: upper limit exceeded"
  else if code =? 0x31 then Some "ERROR: lower limt exceeded"
  else None.

Definition _check_error (ans : list Z) : M bool :=
  do marker <- lift (getitem ans 2);
  if negb (marker =? 0xFF) then ret false
  else
    do code <- lift (getitem ans 3);
    if code =? 0x00 then ret false
    else
      match error_message code with
      | Some msg => print msg
      | None => ret tt
      end ;;
      print_end "answer: " "" ;;
      print_bytes ans ;;
      print "" ;;
      sys_exit 1.

(** ** One request and its response *)

Record ps2000 : Type := mk_ps2000 {
  verbose : bool;
  u_nom : float;
  i_nom : float;
  triple : bool
}.

Definition _transfer (self : ps2000) (type node obj : Z) (data : list Z)
  : M (list Z) :=
  do telegram <- lift (_construct type node obj data);
  (if verbose self then
     print_end "* telegram: " "" ;; print_bytes telegram ;; print ""
   else ret tt) ;;
  ser_write telegram ;;
  do ans <- ser_read 100;
  (if verbose self then
     print_end "* answer:   " "" ;; print_bytes ans ;; print ""
   else ret tt) ;;
  if len ans <? 5 then
    print ("ERROR: short answer (" ++ fmt_d (len ans) ++ " bytes received)")%string ;;
    sys_exit 1
  else
    _check_checksum ans ;;
    _check_error ans ;;
    ret ans.

(** ** Python numbers *)

Inductive pynum : Type :=
| PyInt (z : Z)
| PyFloat (f : float).

(** [float(z)] for an integer: correctly rounded, [OverflowError] when
    the integer is beyond the range of a float. *)
Definition float_of_int (z : Z) : outcome float :=
  match binary_normalize prec emax z 0 false with
  | S754_infinity _ => Raise OverflowError
  | sf => Return (SF2Prim sf)
  end.

Definition to_float (x : pynum) : outcome float :=
  match x with
  | PyInt z => float_of_int z
  | PyFloat f => Return f
  end.

(** [a * b] where one operand is a float: the other one is coerced. *)
Definition float_mul (a b : pynum) : outcome float :=
  try! x <- to_float a;
  try! y <- to_float b;
  Return (x * y)%float.

(** [a / b] where one operand is a float. *)
Definition float_truediv (a b : pynum) : outcome float :=
  try! x <- to_float a;
  try! y <- to_float b;
  if (y =? 0)%float then Raise ZeroDivisionError else Return (x / y)%float.

(** The integer nearest to [m * 2^e], ties to the even one. *)
Definition round_half_even (m : positive) (e : Z) : Z :=
  if 0 <=? e then Z.shiftl (Zpos m) e
  else
    let d := 2 ^ (- e) in
    let q := Zpos m / d in
    let r := Zpos m mod d in
    match 2 * r ?= d with
    | Lt => q
    | Gt => q + 1
    | Eq => if Z.even q then q else q + 1
    end.

(** [round(x)] of a float, without [ndigits]: an integer. *)
Definition py_round (x : float) : outcome Z :=
  match Prim2SF x with
  | S754_nan => Raise ValueError
  | S754_infinity _ => Raise OverflowError
  | S754_zero _ => Return 0
  | S754_finite s m e => Return (cond_Zopp s (round_half_even m e))
  end.

(** [struct.unpack(">f", b)[0]]: a big-endian binary32, widened. *)
Definition unpack_f (b : list Z) : outcome float :=
  match b with
  | [b0; b1; b2; b3] =>
      let bits := b0 * 2 ^ 24 + b1 * 2 ^ 16 + b2 * 2 ^ 8 + b3 in
      let s := 2 ^ 31 <=? bits in
      let e := (bits / 2 ^ 23) mod 256 in
      let m := bits mod 2 ^ 23 in
      Return (SF2Prim
        (if e =? 255 then (if m =? 0 then S754_infinity s else S754_nan)
         else if e =? 0 then
           binary_normalize prec emax (cond_Zopp s m) (-149) s
         else
           binary_normalize prec emax (cond_Zopp s (m + 2 ^ 23)) (e - 150) s))
  | _ => Raise StructError
  end.

(** ** Typed object accessors *)

Definition _get_binary (self : ps2000) (obj node : Z) : M (list Z) :=
  do ans <- _transfer self PS_QUERY node obj [];
  ret (slice ans 3 (-2)).

Definition _set_binary (self : ps2000) (obj mask data node : Z)
  : M (list Z) :=
  do ans <- _transfer self PS_SEND node obj [mask; data];
  ret (slice ans 3 (-2)).

Definition _get_float (self : ps2000) (obj node : Z) : M float :=
  do ans <- _transfer self PS_QUERY node obj [];
  lift (unpack_f (slice ans 3 (-2))).

Definition _get_integer (self : ps2000) (obj node : Z) : M Z :=
  do ans <- _transfer self PS_QUERY node obj [];
  do hi <- lift (getitem ans 3);
  do lo <- lift (getitem ans 4);
  ret (Z.shiftl hi 8 + lo).

(** [data >> 8] and [data & 0xFF] are defined on integers only. *)
Definition _set_integer (self : ps2000) (obj : Z) (data : pynum) (node : Z)
  : M Z :=
  match data with
  | PyFloat _ => raise TypeError
  | PyInt data =>
      do ans <- _transfer self PS_SEND node obj
                  [Z.shiftr data 8; Z.land data 0xFF];
      do hi <- lift (getitem ans 3);
      do lo <- lift (getitem ans 4);
      ret (Z.shiftl hi 8 + lo)
  end.

(** ** Device session *)

Definition get_nominal_voltage (self : ps2000) (node : Z) : M float :=
  _get_float self 2 node.

Definition get_nominal_current (self : ps2000) (node : Z) : M float :=
  _get_float self 3 node.

Definition get_nominal_power (self : ps2000) (node : Z) : M float :=
  _get_float self 4 node.

Definition get_device_class (self : ps2000) (node : Z) : M Z :=
  _get_integer self 19 node.

(** [nominal * raw / 25600] *)
Definition scale_to_physical (nominal : float) (raw : Z) : outcome float :=
  try! p <- float_mul (PyFloat nominal) (PyInt raw);
  float_truediv (PyFloat p) (PyInt 25600).

(** [int(round((x * 25600.0) / nominal))] *)
Definition scale_to_raw (x : pynum) (nominal : float) : outcome Z :=
  try! p <- float_mul x (PyFloat 25600);
  try! q <- float_truediv (PyFloat p) (PyFloat nominal);
  py_round q.

(** object 38 *)
Definition get_OVP_threshold (self : ps2000) (node : Z) : M float :=
  do v <- _get_integer self 38 0;
  lift (scale_to_physical (u_nom self) v).

Definition set_OVP_threshold (self : ps2000) (u : pynum) (node : Z) : M Z :=
  _set_integer self 38 u node.

(** object 39 *)
Definition get_OCP_threshold (self : ps2000) (node : Z) : M float :=
  do i <- _get_integer self 39 node;
  lift (scale_to_physical (i_nom self) i).

Definition set_OCP_threshold (self : ps2000) (i : pynum) (node : Z) : M Z :=
  _set_integer self 39 i node.

(** object 50 *)
Definition get_voltage_setpoint (self : ps2000) (node : Z) : M float :=
  do v <- _get_integer self 50 node;
  lift (scale_to_physical (u_nom self) v).

Definition set_voltage (self : ps2000) (u : pynum) (node : Z) : M Z :=
  do raw <- lift (scale_to_raw u (u_nom self));
  _set_integer self 50 (PyInt raw) node.

(** object 51 *)
Definition get_current_setpoint (self : ps2000) (node : Z) : M float :=
  do i <- _get_integer self 51 node;
  lift (scale_to_physical (i_nom self) i).

Definition set_current (self : ps2000) (i : pynum) (node : Z) : M Z :=
  do raw <- lift (scale_to_raw i (i_nom self));
  _set_integer self 51 (PyInt raw) node.

(** object 54 *)
Record control : Type := mk_control {
  output_on : bool;
  remote : bool
}.

Definition get_control (self : ps2000) (node : Z) : M control :=
  do ans <- _get_binary self 54 node;
  do a1 <- lift (getitem ans 1);
  do a0 <- lift (getitem ans 0);
  ret (mk_control (negb (Z.land a1 0x01 =? 0)) (negb (Z.land a0 0x01 =? 0))).

Definition _set_control (self : ps2000) (mask data node : Z) : M bool :=
  do ans <- _set_binary self 54 mask data node;
  do a0 <- lift (getitem ans 0);
  if a0 =? 0xFF then
    do a1 <- lift (getitem ans 1);
    ret (a1 =? 0x00)
  else ret false.

Definition get_remote (self : ps2000) (node : Z) : M bool :=
  do c <- get_control self node;
  ret (remote c).

Definition set_remote (self : ps2000) (remote : bool) (node : Z) : M bool :=
  if remote then _set_control self 0x10 0x10 node
  else _set_control self 0x10 0x00 node.

Definition set_local (self : ps2000) (local : bool) (node : Z) : M bool :=
  set_remote self (negb local) node.

Definition get_output_on (self : ps2000) (node : Z) : M bool :=
  do c <- get_control self node;
  ret (output_on c).

Definition set_output_on (self : ps2000) (on : bool) (node : Z) : M bool :=
  if on then _set_control self 0x01 0x01 node
  else _set_control self 0x01 0x00 node.

Definition set_output_off (self : ps2000) (off : bool) (node : Z) : M bool :=
  set_output_on self (negb off) node.

(** ** The session as a context manager *)

Definition close (self : ps2000) : M unit := ser_close.

Definition __enter__ (self : ps2000) : M ps2000 :=
  set_remote self true 0 ;;
  (if triple self then set_remote self true 1 ;; ret tt else ret tt) ;;
  ret self.

Definition __exit__ (self : ps2000) : M unit :=
  set_remote self false 0 ;;
  (if triple self then set_remote self false 1 ;; ret tt else ret tt) ;;
  close self.

(** [with self as ps: body ps].  [__exit__] runs when the body returns
    and when it raises; it returns [None], so an exception of the body
    is raised again afterwards.  An exception of [__enter__] or of
    [__exit__] itself propagates. *)
Definition with_ {A} (self : ps2000) (body : ps2000 -> M A) : M A :=
  do ps <- __enter__ self;
  fun w =>
    match body ps w with
    | (Return a, w1) =>
        match __exit__ self w1 with
        | (Return _, w2) => (Return a, w2)
        | (Raise e, w2) => (Raise e, w2)
        end
    | (Raise e, w1) =>
        match __exit__ self w1 with
        | (Return _, w2) => (Raise e, w2)
        | (Raise e', w2) => (Raise e', w2)
        end
    end.

(** * Properties *)

(** ** Lists of bytes *)

Section ByteLists.

Lemma len_app (l1 l2 : list Z) : len (l1 ++ l2) = len l1 + len l2.
Proof. unfold len. rewrite length_app. lia. Qed.

Lemma len_nonneg (l : list Z) : 0 <= len l.
Proof. unfold len. lia. Qed.

Lemma is_byte_range (x : Z) : is_byte x = true <-> 0 <= x < 256.
Proof. unfold is_byte. rewrite andb_true_iff, Z.leb_le, Z.ltb_lt. tauto. Qed.

Lemma fold_add_shift (l : list Z) (a : Z) :
  fold_left Z.add l a = a + fold_left Z.add l 0.
Proof.
  revert a. induction l as [|x l IH]; intros a; simpl.
  - lia.
  - rewrite IH, (IH x). lia.
Qed.

Lemma byte_sum_cons (x : Z) (l : list Z) :
  byte_sum (x :: l) = x + byte_sum l.
Proof. unfold byte_sum. simpl. apply fold_add_shift. Qed.

Lemma byte_sum_app (l1 l2 : list Z) :
  byte_sum (l1 ++ l2) = byte_sum l1 + byte_sum l2.
Proof.
  induction l1 as [|x l1 IH]; simpl.
  - reflexivity.
  - rewrite !byte_sum_cons, IH. lia.
Qed.

Lemma byte_sum_bound (l : list Z) :
  forallb is_byte l = true -> 0 <= byte_sum l <= 255 * len l.
Proof.
  induction l as [|x l IH]; simpl; intros H.
  - unfold byte_sum, len. simpl. lia.
  - apply andb_true_iff in H as [Hx Hl]. apply is_byte_range in Hx.
    rewrite byte_sum_cons. specialize (IH Hl).
    unfold len in *. simpl length. lia.
Qed.

Lemma slice_all_but_two (pre : list Z) (a b : Z) :
  slice (pre ++ [a; b]) 0 (-2) = pre.
Proof.
  unfold slice, clamp_index. rewrite len_app.
  pose proof (len_nonneg pre) as Hn.
  change (len [a; b]) with 2.
  replace (0 <? 0) with false by reflexivity.
  replace (-2 <? 0) with true by reflexivity.
  replace (Z.max 0 (Z.min (len pre + 2) 0)) with 0 by lia.
  replace (Z.max 0 (Z.min (len pre + 2) (-2 + (len pre + 2))))
    with (len pre) by lia.
  rewrite Z.sub_0_r. unfold len. rewrite Nat2Z.id. simpl skipn.
  rewrite firstn_app, Nat.sub_diag, firstn_all. simpl. apply app_nil_r.
Qed.

Lemma getitem_last_but_one (pre : list Z) (a b : Z) :
  getitem (pre ++ [a; b]) (-2) = Return a.
Proof.
  unfold getitem. rewrite len_app. pose proof (len_nonneg pre) as Hn.
  change (len [a; b]) with 2.
  replace (-2 <? 0) with true by reflexivity.
  replace (-2 + (len pre + 2)) with (len pre) by lia.
  replace ((0 <=? len pre) && (len pre <? len pre + 2)) with true
    by (symmetry; apply andb_true_iff; split;
        [apply Z.leb_le | apply Z.ltb_lt]; lia).
  unfold len. rewrite Nat2Z.id, app_nth2, Nat.sub_diag by lia. reflexivity.
Qed.

Lemma getitem_last (pre : list Z) (a b : Z) :
  getitem (pre ++ [a; b]) (-1) = Return b.
Proof.
  unfold getitem. rewrite len_app. pose proof (len_nonneg pre) as Hn.
  change (len [a; b]) with 2.
  replace (-1 <? 0) with true by reflexivity.
  replace (-1 + (len pre + 2)) with (len pre + 1) by lia.
  replace ((0 <=? len pre + 1) && (len pre + 1 <? len pre + 2)) with true
    by (symmetry; apply andb_true_iff; split;
        [apply Z.leb_le | apply Z.ltb_lt]; lia).
  unfold len. replace (Z.to_nat (Z.of_nat (length pre) + 1))
    with (S (length pre)) by lia.
  rewrite app_nth2 by lia.
  replace (S (length pre) - length pre)%nat with 1%nat by lia. reflexivity.
Qed.

End ByteLists.

(** ** Telegram construction *)

(** The start delimiter of a telegram: [0x30 + type], plus the length
    field [len(data) - 1] when there is data. *)
Definition delimiter (type : Z) (data : list Z) : Z :=
  if len data >? 0 then 0x30 + type + (len data - 1) else 0x30 + type.

Definition header (type node obj : Z) (data : list Z) : list Z :=
  [delimiter type data; node; obj] ++ data.

(** Inputs for which every byte of the frame is a byte: the frame type
    is one of the two the protocol has, and the data fit the four-bit
    length field of the start delimiter. *)
Definition well_formed (type node obj : Z) (data : list Z) : Prop :=
  (type = PS_QUERY \/ type = PS_SEND) /\
  is_byte node = true /\ is_byte obj = true /\
  forallb is_byte data = true /\ len data <= 16.

Lemma header_sum_bound (type node obj : Z) (data : list Z) :
  well_formed type node obj data ->
  0 <= byte_sum (header type node obj data) < 65536.
Proof.
  intros (Ht & Hn & Ho & Hd & Hl).
  apply is_byte_range in Hn, Ho. apply byte_sum_bound in Hd.
  unfold header. simpl. rewrite !byte_sum_cons.
  pose proof (len_nonneg data).
  assert (0x30 + type <= delimiter type data <= 0x30 + type + 15).
  { unfold delimiter. destruct (len data >? 0) eqn:E; [apply Z.gtb_lt in E|]; lia. }
  unfold PS_QUERY, PS_SEND in Ht. destruct Ht; subst type; lia.
Qed.

Lemma shiftr8_byte (cs : Z) : 0 <= cs < 65536 -> is_byte (Z.shiftr cs 8) = true.
Proof.
  intros H. apply is_byte_range. rewrite Z.shiftr_div_pow2 by lia.
  change (2 ^ 8) with 256. split.
  - apply Z.div_pos; lia.
  - apply Z.div_lt_upper_bound; lia.
Qed.

Lemma land255_byte (cs : Z) : is_byte (Z.land cs 0xFF) = true.
Proof.
  apply is_byte_range. change 0xFF with (Z.ones 8).
  rewrite Z.land_ones by lia. change (2 ^ 8) with 256.
  apply Z.mod_pos_bound. lia.
Qed.

(** [_construct] on well-formed inputs: header, then the two checksum
    bytes. *)
Lemma construct_well_formed (type node obj : Z) (data : list Z) :
  well_formed type node obj data ->
  _construct type node obj data =
  Return (header type node obj data ++
          [Z.shiftr (byte_sum (header type node obj data)) 8;
           Z.land (byte_sum (header type node obj data)) 0xFF]).
Proof.
  intros WF. pose proof (header_sum_bound _ _ _ _ WF) as Hcs.
  destruct WF as (Ht & Hn & Ho & Hd & Hl).
  assert (Hty : is_byte (0x30 + type) = true).
  { apply is_byte_range. unfold PS_QUERY, PS_SEND in Ht. destruct Ht; subst; lia. }
  unfold _construct, bytearray_append. cbn [app].
  rewrite Hty. cbn [bindO]. rewrite Hn. cbn [bindO]. rewrite Ho. cbn [bindO].
  unfold header, delimiter in *.
  destruct (len data >? 0) eqn:E; cbn [app] in *.
  - unfold bytearray_extend. rewrite Hd. cbn [bindO]. cbn [app].
    assert (Hd0 : is_byte (0x30 + type + (len data - 1)) = true).
    { apply is_byte_range. apply Z.gtb_lt in E.
      unfold PS_QUERY, PS_SEND in Ht. destruct Ht; subst; lia. }
    unfold bytearray_iadd0.
    rewrite Hd0. cbn [bindO].
    rewrite (shiftr8_byte _ Hcs). cbn [bindO].
    rewrite land255_byte. cbn [bindO].
    rewrite <- app_assoc. reflexivity.
  - assert (data = []) as ->.
    { destruct data; [reflexivity|]. unfold len in E. simpl length in E.
      rewrite Z.gtb_ltb in E. apply Z.ltb_ge in E. lia. }
    cbn [bindO].
    rewrite (shiftr8_byte _ Hcs). cbn [bindO].
    rewrite land255_byte. cbn [bindO].
    reflexivity.
Qed.

(** [_check_checksum] accepts a sequence that ends in the split sum of
    what precedes. *)
Lemma check_checksum_accepts (pre : list Z) (w : world) :
  _check_checksum
    (pre ++ [Z.shiftr (byte_sum pre) 8; Z.land (byte_sum pre) 0xFF]) w
  = (Return true, w).
Proof.
  unfold _check_checksum, bind, lift.
  rewrite slice_all_but_two, getitem_last_but_one, getitem_last.
  rewrite !Z.eqb_refl. reflexivity.
Qed.



(** C2: the frame is laid out as delimiter, node, object, data and the
    two checksum bytes, the delimiter being [0x30 + type] plus
    [len(data) - 1] when there is data; the Query telegram for node 0
    and object 2 without data is [70 00 02 00 72]. *)
Theorem construct_layout :
  (forall (type node obj : Z) (data : list Z),
     well_formed type node obj data ->
     _construct type node obj data =
     Return ([(if len data >? 0 then 0x30 + type + (len data - 1)
               else 0x30 + type); node; obj]
             ++ data
             ++ [Z.shiftr (byte_sum (header type node obj data)) 8;
                 Z.land (byte_sum (header type node obj data)) 0xFF])) /\
  _construct PS_QUERY 0 2 [] = Return [0x70; 0x00; 0x02; 0x00; 0x72].
Proof.
  split.
  - intros type node obj data WF.
    rewrite (construct_well_formed _ _ _ _ WF).
    unfold header, delimiter. rewrite <- app_assoc. reflexivity.
  - reflexivity.
Qed.

Lemma construct_layout_witness :
  well_formed PS_SEND 0 50 [0x32; 0x00] /\
  _construct PS_SEND 0 50 [0x32; 0x00] =
  Return [0xF1; 0x00; 0x32; 0x32; 0x00; 0x01; 0x55].
Proof.
  assert (WF : well_formed PS_SEND 0 50 [0x32; 0x00]).
  { unfold well_formed. repeat split; try reflexivity;
      [right; reflexivity | vm_compute; discriminate]. }
  split; [exact WF | exact (proj1 construct_layout _ _ _ _ WF)].
Defined.

(** ** Output and port operations as functions on the world *)

Section Worlds.

Lemma append_assoc (a b c : string) :
  ((a ++ b) ++ c = a ++ (b ++ c))%string.
Proof. induction a as [|x a IH]; simpl; [reflexivity | now rewrite IH]. Qed.

Lemma append_nil_r (a : string) : (a ++ "")%string = a.
Proof. induction a as [|x a IH]; simpl; [reflexivity | now rewrite IH]. Qed.

(** The world after [s] has been printed. *)
Definition emit (s : string) (w : world) : world :=
  mkWorld (stdout w ++ s)%string (is_open w) (incoming w) (trace w).

(** The world after one telegram has been written and one answer read. *)
Definition exchange (telegram : list Z) (w : world) : world :=
  mkWorld (stdout w) true (after_read 100 w)
          (trace w ++ [EvWrite telegram; EvRead 100 (peek_read 100 w)]).

(** The text of [for b in l: print("%02x " % (b), end="")]. *)
Definition dump (l : list Z) : string := String.concat "" (map fmt_02x l).

(** What verbose mode prints for a byte sequence, nothing otherwise. *)
Definition vdump (self : ps2000) (label : string) (l : list Z) : string :=
  if verbose self then (label ++ dump l ++ nl)%string else "".

Lemma emit_emit (s1 s2 : string) (w : world) :
  emit s2 (emit s1 w) = emit (s1 ++ s2) w.
Proof. unfold emit. simpl. now rewrite append_assoc. Qed.

Lemma emit_nil (w : world) : emit "" w = w.
Proof. unfold emit. rewrite append_nil_r. now destruct w. Qed.

Lemma print_end_run (s e : string) (w : world) :
  print_end s e w = (Return tt, emit (s ++ e) w).
Proof. reflexivity. Qed.

Lemma concat_cons_nosep (x : string) (l : list string) :
  String.concat "" (x :: l) = (x ++ String.concat "" l)%string.
Proof. destruct l; simpl; [now rewrite append_nil_r | reflexivity]. Qed.

Lemma print_bytes_run (l : list Z) (w : world) :
  print_bytes l w = (Return tt, emit (dump l) w).
Proof.
  revert w. induction l as [|b l IH]; intros w.
  - simpl. unfold ret, dump. simpl. now rewrite emit_nil.
  - cbn [print_bytes]. unfold bind. rewrite print_end_run, IH, emit_emit.
    unfold dump. cbn [map]. rewrite concat_cons_nosep, append_nil_r.
    reflexivity.
Qed.

Lemma vprint_run (self : ps2000) (label : string) (l : list Z) (w : world) :
  (if verbose self then
     print_end label "" ;; print_bytes l ;; print ""
   else ret tt) w = (Return tt, emit (vdump self label l) w).
Proof.
  unfold vdump. destruct (verbose self).
  - unfold bind, print.
    rewrite print_end_run, print_bytes_run, print_end_run, !emit_emit.
    rewrite append_nil_r. reflexivity.
  - unfold ret. now rewrite emit_nil.
Qed.

End Worlds.

(** ** Responses that pass the checks *)

(** The checksum test of [_check_checksum], as a boolean. *)
Definition checksum_ok (ans : list Z) : bool :=
  match getitem ans (-2), getitem ans (-1) with
  | Return hi, Return lo =>
      (hi =? Z.shiftr (byte_sum (slice ans 0 (-2))) 8) &&
      (lo =? Z.land (byte_sum (slice ans 0 (-2))) 0xFF)
  | _, _ => false
  end.

(** No error reported: byte 2 is not the marker 0xFF, or the code in
    byte 3 is zero. *)
Definition error_free (ans : list Z) : bool :=
  match getitem ans 2 with
  | Return marker =>
      if marker =? 0xFF then
        match getitem ans 3 with
        | Return code => code =? 0x00
        | Raise _ => false
        end
      else true
  | Raise _ => false
  end.

Definition accepted (ans : list Z) : bool :=
  (5 <=? len ans) && checksum_ok ans && error_free ans.

Lemma check_checksum_ok (ans : list Z) (w : world) :
  checksum_ok ans = true -> _check_checksum ans w = (Return true, w).
Proof.
  unfold checksum_ok, _check_checksum, bind, lift.
  destruct (getitem ans (-2)) as [hi|]; [|discriminate].
  destruct (getitem ans (-1)) as [lo|]; [|discriminate].
  intros H. apply andb_true_iff in H as [H1 H2]. now rewrite H1, H2.
Qed.

Lemma check_error_free (ans : list Z) (w : world) :
  error_free ans = true -> _check_error ans w = (Return false, w).
Proof.
  unfold error_free, _check_error, bind, lift.
  destruct (getitem ans 2) as [marker|]; [|discriminate].
  destruct (marker =? 0xFF); [|reflexivity].
  destruct (getitem ans 3) as [code|]; [|discriminate].
  now intros ->.
Qed.

(** ** One transfer, step by step *)

Section Transfer.

Variable self : ps2000.

Lemma transfer_run (type node obj : Z) (data telegram : list Z) (w : world) :
  _construct type node obj data = Return telegram ->
  is_open w = true ->
  _transfer self type node obj data w =
  let ans := peek_read 100 w in
  let w1 := emit (vdump self "* answer:   " ans)
              (exchange telegram (emit (vdump self "* telegram: " telegram) w)) in
  if len ans <? 5 then
    (Raise (SystemExit 1),
     emit ("ERROR: short answer (" ++ fmt_d (len ans) ++ " bytes received)" ++ nl) w1)
  else (_check_checksum ans ;; _check_error ans ;; ret ans) w1.
Proof.
  intros Hc Ho. unfold _transfer. rewrite Hc.
  unfold bind at 1. unfold lift at 1.
  unfold bind at 1. rewrite vprint_run.
  unfold bind at 1. unfold ser_write at 1. cbn [is_open emit]. rewrite Ho.
  unfold bind at 1. unfold ser_read at 1. cbn [is_open].
  unfold bind at 1. rewrite vprint_run.
  match goal with
  | |- context [emit _ ?wx] =>
      replace wx with
        (exchange telegram (emit (vdump self "* telegram: " telegram) w))
        by (unfold exchange, emit, peek_read, after_read;
            cbn [stdout is_open incoming trace];
            rewrite <- app_assoc; reflexivity)
  end.
  change (peek_read 100 _) with (peek_read 100 w).
  cbv zeta.
  destruct (len (peek_read 100 w) <? 5) eqn:E.
  - unfold bind, print, sys_exit, raise. rewrite print_end_run.
    rewrite !append_assoc. reflexivity.
  - reflexivity.
Qed.

Lemma transfer_accepted (type node obj : Z) (data telegram : list Z) (w : world) :
  _construct type node obj data = Return telegram ->
  is_open w = true ->
  accepted (peek_read 100 w) = true ->
  _transfer self type node obj data w =
  (Return (peek_read 100 w),
   emit (vdump self "* answer:   " (peek_read 100 w))
     (exchange telegram (emit (vdump self "* telegram: " telegram) w))).
Proof.
  intros Hc Ho Ha. rewrite (transfer_run _ _ _ _ _ _ Hc Ho). cbv zeta.
  unfold accepted in Ha. apply andb_true_iff in Ha as [Ha He].
  apply andb_true_iff in Ha as [Hl Hk]. apply Z.leb_le in Hl.
  replace (len (peek_read 100 w) <? 5) with false
    by (symmetry; apply Z.ltb_ge; exact Hl).
  unfold bind. rewrite (check_checksum_ok _ _ Hk), (check_error_free _ _ He).
  reflexivity.
Qed.

End Transfer.





(** One step of a computation: run the first action of a [bind] with
    the given tactic and continue with the rest. *)
Tactic Notation "run" tactic3(tac) := unfold bind at 1; tac; cbv beta iota.

(** ** Error classification *)

Lemma check_error_code_run (ans : list Z) (code : Z) (w : world) :
  getitem ans 2 = Return 0xFF ->
  getitem ans 3 = Return code ->
  code <> 0x00 ->
  _check_error ans w =
  (Raise (SystemExit 1),
   emit (match error_message code with
         | Some msg => msg ++ nl
         | None => ""
         end ++ "answer: " ++ dump ans ++ nl) w).
Proof.
  intros H2 H3 Hc. unfold _check_error.
  run (unfold lift; rewrite H2). change (negb (255 =? 255)) with false.
  run (unfold lift; rewrite H3).
  apply Z.eqb_neq in Hc. rewrite Hc.
  destruct (error_message code) as [msg|].
  - run (unfold print; rewrite print_end_run).
    run (rewrite print_end_run). run (rewrite print_bytes_run).
    run (unfold print; rewrite print_end_run).
    unfold sys_exit, raise. rewrite !emit_emit, !append_nil_r, !append_assoc.
    reflexivity.
  - run (unfold ret).
    run (rewrite print_end_run). run (rewrite print_bytes_run).
    run (unfold print; rewrite print_end_run).
    unfold sys_exit, raise. rewrite !emit_emit, !append_nil_r.
    reflexivity.
Qed.

(** C5, as the code has it: with the marker 0xFF in byte 2, code 0x00
    in byte 3 is a plain acknowledge and [_check_error] returns [False]
    without any output; code 0x09 prints the access-denied message and
    the answer, then leaves through [sys.exit(1)]. *)
Theorem check_error_acknowledge_and_access_denied :
  forall (ans : list Z) (w : world),
    getitem ans 2 = Return 0xFF ->
    (getitem ans 3 = Return 0x00 ->
     _check_error ans w = (Return false, w)) /\
    (getitem ans 3 = Return 0x09 ->
     _check_error ans w =
     (Raise (SystemExit 1),
      emit ("ERROR: access denied" ++ nl ++ "answer: " ++ dump ans ++ nl) w)).
Proof.
  intros ans w H2. split; intros H3.
  - apply check_error_free. unfold error_free. now rewrite H2, H3.
  - rewrite (check_error_code_run ans 0x09 w H2 H3) by discriminate.
    change (error_message 9) with (Some "ERROR: access denied").
    cbv beta iota. rewrite append_assoc. reflexivity.
Qed.

Lemma check_error_acknowledge_and_access_denied_witness :
  let w := mkWorld "" true [] [] in
  _check_error [0x80; 0x00; 0xFF; 0x00; 0x01; 0x7F] w = (Return false, w) /\
  _check_error [0x80; 0x00; 0xFF; 0x09; 0x01; 0x88] w =
  (Raise (SystemExit 1),
   emit ("ERROR: access denied" ++ nl ++ "answer: 80 00 ff 09 01 88 " ++ nl) w).
Proof.
  intros w. split.
  - exact (proj1 (check_error_acknowledge_and_access_denied
                    [0x80; 0x00; 0xFF; 0x00; 0x01; 0x7F] w eq_refl) eq_refl).
  - exact (proj2 (check_error_acknowledge_and_access_denied
                    [0x80; 0x00; 0xFF; 0x09; 0x01; 0x88] w eq_refl) eq_refl).
Defined.

(** The access-denied response is not handed back to the caller:
    [_check_error] returns no value for it, the process exits. *)
Lemma check_error_access_denied_exits :
  let ans := [0x80; 0x00; 0xFF; 0x09; 0x01; 0x88] in
  let w := mkWorld "" true [] [] in
  getitem ans 2 = Return 0xFF /\ getitem ans 3 = Return 0x09 /\
  fst (_check_error ans w) = Raise (SystemExit 1) /\
  ~ (exists (r : bool) (w' : world), _check_error ans w = (Return r, w')).
Proof.
  cbv zeta. repeat split.
  intros (r & w' & H). vm_compute in H. discriminate H.
Qed.

(** ** The two outcomes of a transfer *)

Section TransferCases.

Lemma getitem_in_range (l : list Z) (j : Z) :
  0 <= j < len l -> getitem l j = Return (nth (Z.to_nat j) l 0).
Proof.
  intros H. unfold getitem.
  replace (j <? 0) with false by (symmetry; apply Z.ltb_ge; lia).
  replace ((0 <=? j) && (j <? len l)) with true; [reflexivity|].
  symmetry. apply andb_true_iff. split; [apply Z.leb_le | apply Z.ltb_lt]; lia.
Qed.

Lemma getitem_from_end (l : list Z) (j : Z) :
  - len l <= j < 0 -> getitem l j = Return (nth (Z.to_nat (j + len l)) l 0).
Proof.
  intros H. unfold getitem.
  replace (j <? 0) with true by (symmetry; apply Z.ltb_lt; lia).
  replace ((0 <=? j + len l) && (j + len l <? len l)) with true; [reflexivity|].
  symmetry. apply andb_true_iff. split; [apply Z.leb_le | apply Z.ltb_lt]; lia.
Qed.

Lemma check_checksum_cases (ans : list Z) (w : world) :
  2 <= len ans ->
  _check_checksum ans w =
  if checksum_ok ans then (Return true, w)
  else (Raise (SystemExit 1), emit ("ERROR: checksum mismatch" ++ nl) w).
Proof.
  intros H. destruct (checksum_ok ans) eqn:E.
  - now apply check_checksum_ok.
  - revert E. unfold checksum_ok, _check_checksum.
    rewrite (getitem_from_end ans (-2)), (getitem_from_end ans (-1)) by lia.
    intros E. run (unfold lift).
    destruct (_ =? Z.shiftr _ 8); cbn [negb].
    + run (unfold lift). cbn [andb] in E. rewrite E. cbn [negb].
      run (unfold print; rewrite print_end_run). reflexivity.
    + run (unfold print; rewrite print_end_run). reflexivity.
Qed.

Lemma check_error_cases (ans : list Z) (w : world) :
  4 <= len ans ->
  exists out : string,
    _check_error ans w =
    if error_free ans then (Return false, w)
    else (Raise (SystemExit 1), emit out w).
Proof.
  intros H. destruct (error_free ans) eqn:E.
  - exists "". now apply check_error_free.
  - revert E. unfold error_free.
    pose proof (getitem_in_range ans 2 ltac:(lia)) as H2.
    pose proof (getitem_in_range ans 3 ltac:(lia)) as H3.
    rewrite H2, H3.
    destruct (_ =? 0xFF) eqn:Em; [|discriminate].
    apply Z.eqb_eq in Em. rewrite Em in H2. intros Ec.
    eexists. apply (check_error_code_run ans _ w H2 H3).
    now apply Z.eqb_neq.
Qed.

Variable self : ps2000.

Lemma exchange_emit (telegram : list Z) (s : string) (w : world) :
  exchange telegram (emit s w) = emit s (exchange telegram w).
Proof. reflexivity. Qed.

(** A transfer on an open port writes the telegram, reads one answer,
    and either returns the answer, when it is accepted, or exits. *)
Lemma transfer_cases (type node obj : Z) (data telegram : list Z) (w : world) :
  _construct type node obj data = Return telegram ->
  is_open w = true ->
  exists out : string,
    _transfer self type node obj data w =
    (if accepted (peek_read 100 w) then Return (peek_read 100 w)
     else Raise (SystemExit 1),
     emit out (exchange telegram w)).
Proof.
  intros Hc Ho. destruct (accepted (peek_read 100 w)) eqn:Ha.
  - eexists. rewrite (transfer_accepted self _ _ _ _ _ _ Hc Ho Ha).
    rewrite exchange_emit, emit_emit. reflexivity.
  - rewrite (transfer_run self _ _ _ _ _ _ Hc Ho). cbv zeta.
    destruct (len (peek_read 100 w) <? 5) eqn:El.
    + rewrite ?exchange_emit, ?emit_emit. eexists. reflexivity.
    + apply Z.ltb_ge in El. unfold accepted in Ha.
      replace (5 <=? len (peek_read 100 w)) with true in Ha
        by (symmetry; apply Z.leb_le; exact El).
      cbn [andb] in Ha.
      run (rewrite check_checksum_cases by lia).
      destruct (checksum_ok (peek_read 100 w)).
      * cbn [andb] in Ha.
        unfold bind at 1.
        match goal with
        | |- context [_check_error ?a ?wx] =>
            destruct (check_error_cases a wx ltac:(lia)) as [out Hout];
            rewrite Hout
        end.
        rewrite Ha, ?exchange_emit, ?emit_emit. eexists. reflexivity.
      * rewrite ?exchange_emit, ?emit_emit. eexists. reflexivity.
Qed.

(** On a closed port the write raises: nothing is sent or read. *)
Lemma transfer_closed_port (type node obj : Z) (data telegram : list Z)
      (w : world) :
  _construct type node obj data = Return telegram ->
  is_open w = false ->
  _transfer self type node obj data w =
  (Raise SerialException, emit (vdump self "* telegram: " telegram) w).
Proof.
  intros Hc Ho. unfold _transfer. rewrite Hc.
  run (unfold lift). run (rewrite vprint_run).
  unfold bind, ser_write. cbn [is_open emit]. now rewrite Ho.
Qed.

End TransferCases.

(** ** Control bits (object 54) *)

(** [ans[0] == 0xFF and ans[1] == 0x00] on the payload. *)
Definition acknowledged (payload : list Z) : outcome bool :=
  try! a0 <- getitem payload 0;
  if a0 =? 0xFF then
    try! a1 <- getitem payload 1;
    Return (a1 =? 0x00)
  else Return false.

Section Control.

Variable self : ps2000.

Lemma set_binary_cases (obj mask data node : Z) (telegram : list Z) (w : world) :
  _construct PS_SEND node obj [mask; data] = Return telegram ->
  is_open w = true ->
  exists out : string,
    _set_binary self obj mask data node w =
    (if accepted (peek_read 100 w)
     then Return (slice (peek_read 100 w) 3 (-2))
     else Raise (SystemExit 1),
     emit out (exchange telegram w)).
Proof.
  intros Hc Ho. unfold _set_binary.
  destruct (transfer_cases self _ _ _ _ _ w Hc Ho) as [out Hout].
  exists out. run (rewrite Hout).
  destruct (accepted (peek_read 100 w)); reflexivity.
Qed.

Lemma set_control_cases (mask data node : Z) (telegram : list Z) (w : world) :
  _construct PS_SEND node 54 [mask; data] = Return telegram ->
  is_open w = true ->
  exists out : string,
    _set_control self mask data node w =
    (if accepted (peek_read 100 w)
     then acknowledged (slice (peek_read 100 w) 3 (-2))
     else Raise (SystemExit 1),
     emit out (exchange telegram w)).
Proof.
  intros Hc Ho. unfold _set_control.
  destruct (set_binary_cases _ _ _ _ _ w Hc Ho) as [out Hout].
  exists out. run (rewrite Hout).
  destruct (accepted (peek_read 100 w)); [|reflexivity].
  unfold acknowledged.
  run (unfold lift).
  destruct (getitem (slice (peek_read 100 w) 3 (-2)) 0) as [a0|e];
    cbn [bindO]; [|reflexivity].
  destruct (a0 =? 0xFF); [|reflexivity].
  run (unfold lift).
  destruct (getitem (slice (peek_read 100 w) 3 (-2)) 1) as [a1|e];
    cbn [bindO]; reflexivity.
Qed.

End Control.

(** The telegram that sets bits of object 54 under a mask. *)
Definition control_telegram (node mask data : Z) : list Z :=
  header PS_SEND node 54 [mask; data] ++
  [Z.shiftr (byte_sum (header PS_SEND node 54 [mask; data])) 8;
   Z.land (byte_sum (header PS_SEND node 54 [mask; data])) 0xFF].

Lemma construct_control (node mask data : Z) :
  is_byte node = true -> is_byte mask = true -> is_byte data = true ->
  _construct PS_SEND node 54 [mask; data] = Return (control_telegram node mask data).
Proof.
  intros Hn Hm Hd. apply construct_well_formed.
  unfold well_formed. repeat split.
  - now right.
  - exact Hn.
  - cbn [forallb]. now rewrite Hm, Hd.
  - unfold len. simpl. lia.
Qed.

(** C8, what the code does on the device's acknowledge.  [set_remote]
    and [set_output_on] each write one telegram for object 54 (mask 0x10
    and mask 0x01) and read one answer.  When that answer is the
    acknowledge telegram, marker 0xFF in byte 2 and code 0x00 in byte 3,
    the payload handed to [_set_control] starts at byte 3, so the test
    for 0xFF, 0x00 fails and the result is [False]. *)
Theorem set_control_acknowledge_returns_false :
  forall (self : ps2000) (value : bool) (node sd dn hi lo : Z) (w : world),
    is_byte node = true ->
    is_open w = true ->
    peek_read 100 w = [sd; dn; 0xFF; 0x00; hi; lo] ->
    accepted [sd; dn; 0xFF; 0x00; hi; lo] = true ->
    exists out1 out2 : string,
      set_remote self value node w =
      (Return false,
       emit out1 (exchange (control_telegram node 0x10 (if value then 0x10 else 0x00)) w)) /\
      set_output_on self value node w =
      (Return false,
       emit out2 (exchange (control_telegram node 0x01 (if value then 0x01 else 0x00)) w)).
Proof.
  intros self value node sd dn hi lo w Hn Ho Hp Ha.
  assert (Hr : forall mask data,
             is_byte mask = true -> is_byte data = true ->
             exists out, _set_control self mask data node w =
                         (Return false, emit out (exchange (control_telegram node mask data) w))).
  { intros mask data Hm Hd.
    destruct (set_control_cases self mask data node _ w
                (construct_control node mask data Hn Hm Hd) Ho) as [out Hout].
    exists out. rewrite Hout, Hp, Ha. reflexivity. }
  destruct (Hr 0x10 (if value then 0x10 else 0x00) eq_refl
              ltac:(destruct value; reflexivity)) as [out1 H1].
  destruct (Hr 0x01 (if value then 0x01 else 0x00) eq_refl
              ltac:(destruct value; reflexivity)) as [out2 H2].
  exists out1, out2. unfold set_remote, set_output_on.
  destruct value; split; assumption.
Qed.

Lemma set_control_acknowledge_returns_false_witness :
  let w := mkWorld "" true [[0x80; 0x00; 0xFF; 0x00; 0x01; 0x7F]] [] in
  exists out1 out2 : string,
    set_remote (mk_ps2000 false 24 10 false) true 0 w =
    (Return false, emit out1 (exchange (control_telegram 0 0x10 0x10) w)) /\
    set_output_on (mk_ps2000 false 24 10 false) true 0 w =
    (Return false, emit out2 (exchange (control_telegram 0 0x01 0x01) w)).
Proof.
  intros w.
  exact (set_control_acknowledge_returns_false
           (mk_ps2000 false 24 10 false) true 0 0x80 0x00 0x01 0x7F w
           eq_refl eq_refl eq_refl eq_refl).
Defined.

(** A response that is no acknowledge, object 54 with data bytes
    [FF 00 55], makes [set_remote] return [True]. *)
Lemma set_remote_true_without_acknowledge :
  let ans := [0x82; 0x00; 0x36; 0xFF; 0x00; 0x55; 0x02; 0x0C] in
  let w := mkWorld "" true [ans] [] in
  accepted ans = true /\
  slice ans 3 (-2) = [0xFF; 0x00; 0x55] /\
  set_remote (mk_ps2000 false 24 10 false) true 0 w =
  (Return true,
   mkWorld "" true [] [EvWrite [0xF1; 0x00; 0x36; 0x10; 0x10; 0x01; 0x47];
                       EvRead 100 ans]).
Proof. cbv zeta. repeat split. Qed.

(** ** Integer objects and the scaled accessors *)

(** The telegram that queries an object. *)
Definition query_telegram (node obj : Z) : list Z :=
  header PS_QUERY node obj [] ++
  [Z.shiftr (byte_sum (header PS_QUERY node obj [])) 8;
   Z.land (byte_sum (header PS_QUERY node obj [])) 0xFF].

Lemma construct_query (node obj : Z) :
  is_byte node = true -> is_byte obj = true ->
  _construct PS_QUERY node obj [] = Return (query_telegram node obj).
Proof.
  intros Hn Hobj. apply construct_well_formed.
  unfold well_formed. repeat split.
  - now left.
  - exact Hn.
  - exact Hobj.
  - unfold len. simpl. lia.
Qed.

(** [(ans[3] << 8) + ans[4]] *)
Definition integer_of (ans : list Z) : Z :=
  Z.shiftl (nth 3 ans 0) 8 + nth 4 ans 0.

Section Integers.

Variable self : ps2000.

Lemma accepted_length (ans : list Z) : accepted ans = true -> 5 <= len ans.
Proof.
  unfold accepted. intros H. apply andb_true_iff in H as [H _].
  apply andb_true_iff in H as [H _]. now apply Z.leb_le.
Qed.

Lemma get_integer_cases (obj node : Z) (telegram : list Z) (w : world) :
  _construct PS_QUERY node obj [] = Return telegram ->
  is_open w = true ->
  exists out : string,
    _get_integer self obj node w =
    (if accepted (peek_read 100 w)
     then Return (integer_of (peek_read 100 w))
     else Raise (SystemExit 1),
     emit out (exchange telegram w)).
Proof.
  intros Hc Ho. unfold _get_integer.
  destruct (transfer_cases self _ _ _ _ _ w Hc Ho) as [out Hout].
  exists out. run (rewrite Hout).
  destruct (accepted (peek_read 100 w)) eqn:Ha; [|reflexivity].
  apply accepted_length in Ha.
  run (unfold lift; rewrite getitem_in_range by lia).
  run (unfold lift; rewrite getitem_in_range by lia).
  reflexivity.
Qed.

(** A scaled getter is one integer query followed by the scaling. *)
Lemma scaled_getter_cases (nominal : float) (obj node : Z) (telegram : list Z)
      (w : world) :
  _construct PS_QUERY node obj [] = Return telegram ->
  is_open w = true ->
  exists out : string,
    (do v <- _get_integer self obj node;
     lift (scale_to_physical nominal v)) w =
    (if accepted (peek_read 100 w)
     then scale_to_physical nominal (integer_of (peek_read 100 w))
     else Raise (SystemExit 1),
     emit out (exchange telegram w)).
Proof.
  intros Hc Ho.
  destruct (get_integer_cases _ _ _ w Hc Ho) as [out Hout].
  exists out. run (rewrite Hout).
  destruct (accepted (peek_read 100 w)); [|reflexivity].
  unfold lift. now destruct (scale_to_physical _ _).
Qed.

End Integers.

(** C10: [get_OVP_threshold] does not look at its node argument: it
    queries object 38 on node 0, with the telegram [70 00 26 00 96],
    and gives the same result for every node.  [get_OCP_threshold],
    [get_voltage_setpoint] and [get_current_setpoint] query objects 39,
    50 and 51 on the node they are given. *)
Theorem get_OVP_threshold_ignores_node :
  forall (self : ps2000) (node : Z) (w : world),
    is_byte node = true ->
    is_open w = true ->
    get_OVP_threshold self node w = get_OVP_threshold self 0 w /\
    query_telegram 0 38 = [0x70; 0x00; 0x26; 0x00; 0x96] /\
    exists out38 out39 out50 out51 : string,
      snd (get_OVP_threshold self node w) =
        emit out38 (exchange (query_telegram 0 38) w) /\
      snd (get_OCP_threshold self node w) =
        emit out39 (exchange (query_telegram node 39) w) /\
      snd (get_voltage_setpoint self node w) =
        emit out50 (exchange (query_telegram node 50) w) /\
      snd (get_current_setpoint self node w) =
        emit out51 (exchange (query_telegram node 51) w).
Proof.
  intros self node w Hn Ho.
  destruct (scaled_getter_cases self (u_nom self) 38 0 _ w
              (construct_query 0 38 eq_refl eq_refl) Ho) as [out38 H38].
  destruct (scaled_getter_cases self (i_nom self) 39 node _ w
              (construct_query node 39 Hn eq_refl) Ho) as [out39 H39].
  destruct (scaled_getter_cases self (u_nom self) 50 node _ w
              (construct_query node 50 Hn eq_refl) Ho) as [out50 H50].
  destruct (scaled_getter_cases self (i_nom self) 51 node _ w
              (construct_query node 51 Hn eq_refl) Ho) as [out51 H51].
  split; [reflexivity | split; [reflexivity|]].
  exists out38, out39, out50, out51.
  unfold get_OVP_threshold, get_OCP_threshold, get_voltage_setpoint,
    get_current_setpoint.
  rewrite H38, H39, H50, H51. repeat split.
Qed.

Lemma get_OVP_threshold_ignores_node_witness :
  let self := mk_ps2000 false 24 10 false in
  let w := mkWorld "" true [[0x81; 0x00; 0x26; 0x32; 0x00; 0x00; 0xD9]] [] in
  get_OVP_threshold self 1 w = get_OVP_threshold self 0 w /\
  query_telegram 0 38 = [0x70; 0x00; 0x26; 0x00; 0x96] /\
  exists out38 out39 out50 out51 : string,
    snd (get_OVP_threshold self 1 w) =
      emit out38 (exchange (query_telegram 0 38) w) /\
    snd (get_OCP_threshold self 1 w) =
      emit out39 (exchange (query_telegram 1 39) w) /\
    snd (get_voltage_setpoint self 1 w) =
      emit out50 (exchange (query_telegram 1 50) w) /\
    snd (get_current_setpoint self 1 w) =
      emit out51 (exchange (query_telegram 1 51) w).
Proof.
  intros self w.
  exact (get_OVP_threshold_ignores_node self 1 w eq_refl eq_refl).
Defined.

(** On node 1 of a triple device the over-voltage query still goes to
    node 0, the over-current query to node 1. *)
Lemma threshold_queries_on_node_1 :
  let self := mk_ps2000 false 24 10 true in
  let w := mkWorld "" true [[0x81; 0x00; 0x26; 0x32; 0x00; 0x00; 0xD9]] [] in
  get_OVP_threshold self 1 w =
    (Return 12%float,
     mkWorld "" true []
       [EvWrite [0x70; 0x00; 0x26; 0x00; 0x96];
        EvRead 100 [0x81; 0x00; 0x26; 0x32; 0x00; 0x00; 0xD9]]) /\
  trace (snd (get_OCP_threshold self 1 w)) =
    [EvWrite [0x70; 0x01; 0x27; 0x00; 0x98];
     EvRead 100 [0x81; 0x00; 0x26; 0x32; 0x00; 0x00; 0xD9]].
Proof. cbv zeta. split; reflexivity. Qed.

(** ** Scaled setters *)

(** The telegram that sends a 16-bit integer to an object. *)
Definition integer_telegram (node obj data : Z) : list Z :=
  let body := [Z.shiftr data 8; Z.land data 0xFF] in
  header PS_SEND node obj body ++
  [Z.shiftr (byte_sum (header PS_SEND node obj body)) 8;
   Z.land (byte_sum (header PS_SEND node obj body)) 0xFF].

Lemma construct_integer (node obj data : Z) :
  is_byte node = true -> is_byte obj = true -> 0 <= data < 65536 ->
  _construct PS_SEND node obj [Z.shiftr data 8; Z.land data 0xFF] =
  Return (integer_telegram node obj data).
Proof.
  intros Hn Hobj Hd. apply construct_well_formed.
  unfold well_formed. repeat split.
  - now right.
  - exact Hn.
  - exact Hobj.
  - cbn [forallb]. now rewrite (shiftr8_byte _ Hd), land255_byte.
  - unfold len. simpl. lia.
Qed.

Lemma set_integer_cases (self : ps2000) (obj data node : Z) (w : world) :
  is_byte node = true -> is_byte obj = true -> 0 <= data < 65536 ->
  is_open w = true ->
  exists out : string,
    _set_integer self obj (PyInt data) node w =
    (if accepted (peek_read 100 w)
     then Return (integer_of (peek_read 100 w))
     else Raise (SystemExit 1),
     emit out (exchange (integer_telegram node obj data) w)).
Proof.
  intros Hn Hobj Hd Ho. unfold _set_integer.
  destruct (transfer_cases self _ _ _ _ _ w
              (construct_integer node obj data Hn Hobj Hd) Ho) as [out Hout].
  exists out. run (rewrite Hout).
  destruct (accepted (peek_read 100 w)) eqn:Ha; [|reflexivity].
  apply accepted_length in Ha.
  run (unfold lift; rewrite getitem_in_range by lia).
  run (unfold lift; rewrite getitem_in_range by lia).
  reflexivity.
Qed.

(** C3, what the code does: [set_OVP_threshold] and [set_OCP_threshold]
    send their argument as it is.  The two data bytes are the high and
    the low byte of the argument, whatever the nominal values are; with
    a nominal voltage of 24 the argument 12 is sent as raw 12, where
    [set_voltage] sends raw 12800; a float argument raises [TypeError]. *)
Theorem threshold_setters_send_unscaled :
  forall (self : ps2000) (u node : Z) (w : world),
    is_byte node = true ->
    0 <= u < 65536 ->
    is_open w = true ->
    (exists out38 out39 : string,
       snd (set_OVP_threshold self (PyInt u) node w) =
         emit out38 (exchange (integer_telegram node 38 u) w) /\
       snd (set_OCP_threshold self (PyInt u) node w) =
         emit out39 (exchange (integer_telegram node 39 u) w)) /\
    integer_telegram 0 38 12 = [0xF1; 0x00; 0x26; 0x00; 0x0C; 0x01; 0x23] /\
    scale_to_raw (PyInt 12) 24 = Return 12800 /\
    integer_telegram 0 50 12800 = [0xF1; 0x00; 0x32; 0x32; 0x00; 0x01; 0x55] /\
    (forall x : float,
       set_OVP_threshold self (PyFloat x) node w = (Raise TypeError, w) /\
       set_OCP_threshold self (PyFloat x) node w = (Raise TypeError, w)).
Proof.
  intros self u node w Hn Hu Ho.
  destruct (set_integer_cases self 38 u node w Hn eq_refl Hu Ho) as [out38 H38].
  destruct (set_integer_cases self 39 u node w Hn eq_refl Hu Ho) as [out39 H39].
  split; [|repeat split].
  exists out38, out39. unfold set_OVP_threshold, set_OCP_threshold.
  rewrite H38, H39. split; reflexivity.
Qed.

Lemma threshold_setters_send_unscaled_witness :
  let self := mk_ps2000 false 24 10 false in
  let w := mkWorld "" true [[0x80; 0x00; 0xFF; 0x00; 0x01; 0x7F]] [] in
  set_OVP_threshold self (PyInt 12) 0 w =
    (Return 1,
     mkWorld "" true []
       [EvWrite [0xF1; 0x00; 0x26; 0x00; 0x0C; 0x01; 0x23];
        EvRead 100 [0x80; 0x00; 0xFF; 0x00; 0x01; 0x7F]]) /\
  set_voltage self (PyInt 12) 0 w =
    (Return 1,
     mkWorld "" true []
       [EvWrite [0xF1; 0x00; 0x32; 0x32; 0x00; 0x01; 0x55];
        EvRead 100 [0x80; 0x00; 0xFF; 0x00; 0x01; 0x7F]]) /\
  exists out38 out39 : string,
    snd (set_OVP_threshold self (PyInt 12) 0 w) =
      emit out38 (exchange (integer_telegram 0 38 12) w) /\
    snd (set_OCP_threshold self (PyInt 12) 0 w) =
      emit out39 (exchange (integer_telegram 0 39 12) w).
Proof.
  intros self w. split; [reflexivity | split; [reflexivity|]].
  refine (proj1 (threshold_setters_send_unscaled self 12 0 w eq_refl _ eq_refl)).
  lia.
Defined.

(** ** A nominal value of zero *)

Lemma scale_to_raw_zero_nominal (u : pynum) (x nominal : float) :
  to_float u = Return x ->
  (nominal =? 0)%float = true ->
  scale_to_raw u nominal = Raise ZeroDivisionError.
Proof.
  intros Hu Hz. unfold scale_to_raw, float_mul. rewrite Hu. cbn [bindO to_float].
  unfold float_truediv. cbn [bindO to_float]. now rewrite Hz.
Qed.

(** C4, as the code has it: with a nominal value of zero, [set_voltage]
    and [set_current] raise [ZeroDivisionError] for every value that is
    a float or converts to one, before anything is sent to the device. *)
Theorem scaled_setters_zero_nominal :
  forall (self : ps2000) (u : pynum) (x : float) (node : Z) (w : world),
    to_float u = Return x ->
    ((u_nom self =? 0)%float = true ->
     set_voltage self u node w = (Raise ZeroDivisionError, w)) /\
    ((i_nom self =? 0)%float = true ->
     set_current self u node w = (Raise ZeroDivisionError, w)).
Proof.
  intros self u x node w Hu. split; intros Hz.
  - unfold set_voltage. run (unfold lift).
    now rewrite (scale_to_raw_zero_nominal u x _ Hu Hz).
  - unfold set_current. run (unfold lift).
    now rewrite (scale_to_raw_zero_nominal u x _ Hu Hz).
Qed.

Lemma scaled_setters_zero_nominal_witness :
  let self := mk_ps2000 false 0 (-0) false in
  let w := mkWorld "" true [[0x80; 0x00; 0xFF; 0x00; 0x01; 0x7F]] [] in
  set_voltage self (PyInt 12) 0 w = (Raise ZeroDivisionError, w) /\
  set_current self (PyInt 12) 0 w = (Raise ZeroDivisionError, w).
Proof.
  intros self w.
  pose proof (scaled_setters_zero_nominal self (PyInt 12) 12 0 w eq_refl)
    as [Hu Hi].
  split; [exact (Hu eq_refl) | exact (Hi eq_refl)].
Defined.

(** The division by zero reaches the caller of [set_voltage] and of
    [set_current] as it is. *)
Lemma set_voltage_zero_nominal_divides :
  let self := mk_ps2000 false 0 0 false in
  let w := mkWorld "" true [[0x80; 0x00; 0xFF; 0x00; 0x01; 0x7F]] [] in
  set_voltage self (PyFloat 12) 0 w = (Raise ZeroDivisionError, w) /\
  set_current self (PyFloat 1.5) 0 w = (Raise ZeroDivisionError, w).
Proof. cbv zeta. split; reflexivity. Qed.

(** ** Leaving the remote-control scope *)

(** The telegram of [set_remote(False, node)]. *)
Definition release_telegram (node : Z) : list Z :=
  control_telegram node 0x10 0x00.

(** [set_remote] returns, with whatever value, when the answer is
    accepted and long enough for [_set_control] to index it. *)
Definition release_completes (ans : list Z) : bool :=
  accepted ans &&
  match acknowledged (slice ans 3 (-2)) with
  | Return _ => true
  | Raise _ => false
  end.

(** The port operations of [__exit__], from the world it starts in. *)
Definition exit_events (self : ps2000) (w : world) : list event :=
  let a0 := peek_read 100 w in
  [EvWrite (release_telegram 0); EvRead 100 a0] ++
  if release_completes a0 then
    if triple self then
      let a1 := peek_read 100 (exchange (release_telegram 0) w) in
      [EvWrite (release_telegram 1); EvRead 100 a1] ++
      (if release_completes a1 then [EvClose] else [])
    else [EvClose]
  else [].

Section Scope.

Variable self : ps2000.

Lemma set_remote_cases (value : bool) (node : Z) (w : world) :
  is_byte node = true ->
  is_open w = true ->
  exists out : string,
    set_remote self value node w =
    (if accepted (peek_read 100 w)
     then acknowledged (slice (peek_read 100 w) 3 (-2))
     else Raise (SystemExit 1),
     emit out
       (exchange (control_telegram node 0x10 (if value then 0x10 else 0x00)) w)).
Proof.
  intros Hn Ho. unfold set_remote.
  destruct value;
    apply set_control_cases; try exact Ho;
    apply construct_control; try exact Hn; reflexivity.
Qed.

Lemma exit_trace (w : world) :
  is_open w = true ->
  trace (snd (__exit__ self w)) = trace w ++ exit_events self w.
Proof.
  intros Ho. unfold __exit__, exit_events, release_completes.
  destruct (set_remote_cases false 0 w eq_refl Ho) as [out0 H0].
  run (rewrite H0).
  fold (release_telegram 0).
  destruct (accepted (peek_read 100 w)); cbn [andb];
    [|cbn [snd trace emit exchange]; now rewrite app_nil_r].
  destruct (acknowledged (slice (peek_read 100 w) 3 (-2))) as [b0|e0];
    [|cbn [snd trace emit exchange]; now rewrite app_nil_r].
  destruct (triple self).
  - destruct (set_remote_cases false 1
                (emit out0 (exchange (release_telegram 0) w)) eq_refl eq_refl)
      as [out1 H1].
    change (peek_read 100 (emit out0 (exchange (release_telegram 0) w)))
      with (peek_read 100 (exchange (release_telegram 0) w)) in H1.
    run (unfold bind at 1; rewrite H1).
    fold (release_telegram 1).
    destruct (accepted (peek_read 100 (exchange (release_telegram 0) w)));
      cbn [andb];
      [|cbn [snd trace emit exchange];
        rewrite ?app_nil_r, <- ?app_assoc; reflexivity].
    destruct (acknowledged
                (slice (peek_read 100 (exchange (release_telegram 0) w)) 3 (-2)))
      as [b1|e1];
      [|cbn [snd trace emit exchange];
        rewrite ?app_nil_r, <- ?app_assoc; reflexivity].
    unfold ret, close, ser_close.
    cbn [snd trace emit exchange]. rewrite <- ?app_assoc. reflexivity.
  - run (unfold ret). unfold close, ser_close.
    cbn [snd trace emit exchange]. rewrite <- ?app_assoc. reflexivity.
Qed.

(** [with] runs [__exit__] in the world the body leaves behind. *)
Lemma with_runs_exit {A : Type} (body : ps2000 -> M A) (w w1 w2 : world)
      (ps : ps2000) (r : outcome A) :
  __enter__ self w = (Return ps, w1) ->
  body ps w1 = (r, w2) ->
  snd (with_ self body w) = snd (__exit__ self w2).
Proof.
  intros He Hb. unfold with_. run (rewrite He). rewrite Hb.
  destruct r as [a|e]; destruct (__exit__ self w2) as [[u|e'] w3]; reflexivity.
Qed.

Lemma exit_closed_port (w : world) :
  is_open w = false ->
  exists out : string, __exit__ self w = (Raise SerialException, emit out w).
Proof.
  intros Ho. unfold __exit__, set_remote, _set_control, _set_binary.
  eexists. unfold bind.
  rewrite (transfer_closed_port self _ _ _ _ _ w
             (construct_control 0 0x10 0x00 eq_refl eq_refl eq_refl) Ho).
  reflexivity.
Qed.

End Scope.

(** C9, as the code has it.  However the body of the scope ends, by
    returning or by raising ([SystemExit] and [KeyboardInterrupt]
    included), [__exit__] runs next.  When the body has left the port
    open, [__exit__] first writes the telegram of [set_remote(False)]
    for node 0.  On a triple device the telegram for node 1 follows
    when the transfer for node 0 completes, and the port is closed when
    every release transfer completes; when the transfer for node 0 does
    not complete, nothing follows it.  When the body has closed the
    port, [__exit__] raises [SerialException] at its first write: the
    scope ends with that exception and no release telegram is
    written. *)
Theorem exit_releases_remote :
  forall (A : Type) (self : ps2000) (body : ps2000 -> M A)
         (w w1 w2 : world) (ps : ps2000) (r : outcome A),
    __enter__ self w = (Return ps, w1) ->
    body ps w1 = (r, w2) ->
    (is_open w2 = true ->
     trace (snd (with_ self body w)) = trace w2 ++ exit_events self w2 /\
     (exists rest : list event,
        exit_events self w2 = EvWrite (release_telegram 0) :: rest) /\
     (release_completes (peek_read 100 w2) = true ->
      triple self = true ->
      exists ans rest,
        exit_events self w2 =
        [EvWrite (release_telegram 0); EvRead 100 (peek_read 100 w2);
         EvWrite (release_telegram 1); EvRead 100 ans] ++ rest) /\
     (release_completes (peek_read 100 w2) = false ->
      exit_events self w2 =
      [EvWrite (release_telegram 0); EvRead 100 (peek_read 100 w2)])) /\
    (is_open w2 = false ->
     fst (with_ self body w) = Raise SerialException /\
     trace (snd (with_ self body w)) = trace w2 /\
     is_open (snd (with_ self body w)) = false).
Proof.
  intros A self body w w1 w2 ps r He Hb. split; intros Ho.
  - split; [|split; [|split]].
    + rewrite (with_runs_exit self body w w1 w2 ps r He Hb).
      apply exit_trace, Ho.
    + unfold exit_events. eexists. reflexivity.
    + intros Hc Ht. unfold exit_events. rewrite Hc, Ht.
      eexists. eexists. reflexivity.
    + intros Hc. unfold exit_events. rewrite Hc. reflexivity.
  - destruct (exit_closed_port self w2 Ho) as [out Hx].
    assert (Hw : with_ self body w = (Raise SerialException, emit out w2)).
    { unfold with_. run (rewrite He). rewrite Hb, Hx. now destruct r. }
    rewrite Hw. cbn [fst snd trace is_open emit].
    split; [reflexivity|]. split; [reflexivity | exact Ho].
Qed.

(** A triple device whose answers stop during the scope: the body's
    transfer exits on a short answer, [__exit__] writes the release for
    node 0, reads nothing and exits in turn.  No release is written for
    node 1 and the port stays open. *)
Definition silent_device : world :=
  mkWorld "" true
    [[0x80; 0x00; 0xFF; 0x00; 0x01; 0x7F]; [0x80; 0x01; 0xFF; 0x00; 0x01; 0x80]]
    [].

Lemma exit_releases_remote_witness :
  let self := mk_ps2000 false 24 10 true in
  let body := fun ps : ps2000 => set_voltage ps (PyFloat 12) 0 in
  let w2 := snd (body self (snd (__enter__ self silent_device))) in
  let closing := fun ps : ps2000 => close ps in
  (trace (snd (with_ self body silent_device)) =
     trace w2 ++ exit_events self w2 /\
   exit_events self w2 = [EvWrite (release_telegram 0); EvRead 100 []]) /\
  (fst (with_ self closing silent_device) = Raise SerialException /\
   trace (snd (with_ self closing silent_device)) =
     trace (snd (__enter__ self silent_device)) ++ [EvClose]).
Proof.
  intros self body w2 closing. split.
  - pose proof (exit_releases_remote Z self body silent_device
                  (snd (__enter__ self silent_device)) w2 self
                  (fst (body self (snd (__enter__ self silent_device))))
                  eq_refl eq_refl) as [H _].
    destruct (H eq_refl) as (H1 & _ & _ & H4).
    split; [exact H1 | exact (H4 eq_refl)].
  - pose proof (exit_releases_remote unit self closing silent_device
                  (snd (__enter__ self silent_device))
                  (snd (closing self (snd (__enter__ self silent_device))))
                  self (Return tt) eq_refl eq_refl) as [_ H].
    destruct (H eq_refl) as (H1 & H2 & _).
    split; [exact H1 | exact H2].
Defined.

Lemma exit_skips_node_1_after_failed_release :
  let self := mk_ps2000 false 24 10 true in
  let body := fun ps : ps2000 => set_voltage ps (PyFloat 12) 0 in
  let final := with_ self body silent_device in
  fst final = Raise (SystemExit 1) /\
  trace (snd final) =
    [EvWrite [0xF1; 0x00; 0x36; 0x10; 0x10; 0x01; 0x47];
     EvRead 100 [0x80; 0x00; 0xFF; 0x00; 0x01; 0x7F];
     EvWrite [0xF1; 0x01; 0x36; 0x10; 0x10; 0x01; 0x48];
     EvRead 100 [0x80; 0x01; 0xFF; 0x00; 0x01; 0x80];
     EvWrite [0xF1; 0x00; 0x32; 0x32; 0x00; 0x01; 0x55];
     EvRead 100 [];
     EvWrite [0xF1; 0x00; 0x36; 0x10; 0x00; 0x01; 0x37];
     EvRead 100 []] /\
  release_telegram 1 = [0xF1; 0x01; 0x36; 0x10; 0x00; 0x01; 0x38] /\
  ~ In (EvWrite (release_telegram 1)) (trace (snd final)) /\
  ~ In EvClose (trace (snd final)) /\
  is_open (snd final) = true.
Proof.
  cbv zeta. split; [reflexivity|]. split; [reflexivity|].
  split; [reflexivity|]. split; [|split; [|reflexivity]].
  - vm_compute. intuition discriminate.
  - vm_compute. intuition discriminate.
Qed.


(** ** Binary64 arithmetic *)

(** The operations of [PrimFloat] are specified, through [Prim2SF], by
    the functions of [SpecFloat].  This part derives from those
    functions what the scaling round trip needs: a product or quotient
    of normal numbers, away from overflow and underflow, is a normal
    number within a relative error of [2^-52] of the exact result. *)

Section Binary64.

Lemma digits2_bounds (p : positive) :
  2 ^ (Zpos (digits2_pos p) - 1) <= Zpos p < 2 ^ Zpos (digits2_pos p).
Proof.
  induction p as [p IH|p IH|]; cbn [digits2_pos].
  - rewrite Pos2Z.inj_succ. change (Zpos p~1) with (2 * Zpos p + 1).
    replace (Z.succ (Zpos (digits2_pos p)) - 1) with (Z.succ (Zpos (digits2_pos p) - 1)) by lia.
    rewrite !Z.pow_succ_r by lia. lia.
  - rewrite Pos2Z.inj_succ. change (Zpos p~0) with (2 * Zpos p).
    replace (Z.succ (Zpos (digits2_pos p)) - 1) with (Z.succ (Zpos (digits2_pos p) - 1)) by lia.
    rewrite !Z.pow_succ_r by lia. lia.
  - cbn. lia.
Qed.

Lemma digits2_unique (p : positive) (d : Z) :
  2 ^ (d - 1) <= Zpos p < 2 ^ d -> Zpos (digits2_pos p) = d.
Proof.
  intros [Hlo Hhi]. pose proof (digits2_bounds p) as [Blo Bhi].
  destruct (Z.lt_trichotomy (Zpos (digits2_pos p)) d) as [Hlt|[Heq|Hgt]].
  - assert (2 ^ Zpos (digits2_pos p) <= 2 ^ (d - 1))
      by (apply Z.pow_le_mono_r; lia).
    lia.
  - exact Heq.
  - assert (2 ^ d <= 2 ^ (Zpos (digits2_pos p) - 1))
      by (apply Z.pow_le_mono_r; lia).
    lia.
Qed.

Lemma digits2_iter_xO (p k : positive) :
  digits2_pos (Pos.iter xO p k) = (digits2_pos p + k)%positive.
Proof.
  induction k as [|k IH] using Pos.peano_ind.
  - cbn. lia.
  - rewrite Pos.iter_succ. cbn [digits2_pos]. rewrite IH. lia.
Qed.

Lemma iter_xO_value (p k : positive) :
  Zpos (Pos.iter xO p k) = Zpos p * 2 ^ Zpos k.
Proof.
  induction k as [|k IH] using Pos.peano_ind.
  - cbn. lia.
  - rewrite Pos.iter_succ, Pos2Z.inj_succ, Z.pow_succ_r by lia.
    change (Zpos (Pos.iter xO p k)~0) with (2 * Zpos (Pos.iter xO p k)).
    rewrite IH. lia.
Qed.

(** Shifting a record right halves its mantissa, rounding down. *)
Lemma shr_1_m (mrs : shr_record) :
  0 <= shr_m mrs -> shr_m (shr_1 mrs) = shr_m mrs / 2.
Proof.
  destruct mrs as [m r s]. cbn [shr_m]. intros Hm.
  destruct m as [|p|p]; [reflexivity| |lia].
  destruct p as [p|p|]; cbn [shr_1 shr_m].
  - change (Zpos p~1) with (2 * Zpos p + 1).
    apply Z.div_unique with 1; lia.
  - change (Zpos p~0) with (2 * Zpos p).
    apply Z.div_unique with 0; lia.
  - reflexivity.
Qed.

Lemma iter_shr_1_m (n : positive) (mrs : shr_record) :
  0 <= shr_m mrs ->
  shr_m (SpecFloat.iter_pos shr_1 n mrs) = shr_m mrs / 2 ^ Zpos n.
Proof.
  revert mrs. induction n as [n IH|n IH|]; intros mrs Hm; cbn [SpecFloat.iter_pos].
  - assert (H1 : 0 <= shr_m (shr_1 mrs))
      by (rewrite shr_1_m by assumption; apply Z.div_pos; lia).
    assert (H2 : 0 <= shr_m (SpecFloat.iter_pos shr_1 n (shr_1 mrs)))
      by (rewrite IH by assumption; apply Z.div_pos; lia).
    rewrite IH, IH, shr_1_m by assumption.
    rewrite !Z.div_div by lia. f_equal.
    rewrite (Pos2Z.inj_xI n).
    replace (2 * Zpos n + 1) with (1 + Zpos n + Zpos n) by lia.
    rewrite !Z.pow_add_r by lia. lia.
  - assert (H2 : 0 <= shr_m (SpecFloat.iter_pos shr_1 n mrs))
      by (rewrite IH by assumption; apply Z.div_pos; lia).
    rewrite IH, IH by assumption.
    rewrite !Z.div_div by lia. f_equal.
    rewrite (Pos2Z.inj_xO n).
    replace (2 * Zpos n) with (Zpos n + Zpos n) by lia.
    rewrite !Z.pow_add_r by lia. lia.
  - rewrite shr_1_m by assumption. reflexivity.
Qed.

Lemma shr_m_of_loc (m : Z) (l : location) : shr_m (shr_record_of_loc m l) = m.
Proof. destruct l as [|[| |]]; reflexivity. Qed.

(** [shr] by [n >= 0] positions: the mantissa is divided by [2^n]. *)
Lemma shr_spec (mrs : shr_record) (e n : Z) :
  0 <= shr_m mrs -> 0 <= n ->
  shr_m (fst (shr mrs e n)) = shr_m mrs / 2 ^ n /\ snd (shr mrs e n) = e + n.
Proof.
  intros Hm Hn. unfold shr. destruct n as [|n|n]; [| |lia].
  - cbn [fst snd]. rewrite Z.div_1_r. lia.
  - cbn [fst snd]. split; [now apply iter_shr_1_m | reflexivity].
Qed.

Lemma round_nearest_even_bounds (m : Z) (l : location) :
  m <= round_nearest_even m l <= m + 1.
Proof.
  destruct l as [|[| |]]; cbn [round_nearest_even];
    try destruct (Z.even m); lia.
Qed.

Lemma fexp_normal (e : Z) : -1074 <= e - 53 -> fexp prec emax e = e - 53.
Proof. intros H. unfold fexp, emin, prec, emax. lia. Qed.

Lemma shr_fexp_spec (p : positive) (e : Z) (l : location) :
  0 <= Zpos (digits2_pos p) - 53 ->
  -1074 <= e + (Zpos (digits2_pos p) - 53) ->
  shr_m (fst (shr_fexp prec emax (Zpos p) e l)) =
    Zpos p / 2 ^ (Zpos (digits2_pos p) - 53) /\
  snd (shr_fexp prec emax (Zpos p) e l) = e + (Zpos (digits2_pos p) - 53).
Proof.
  intros Hk Hn. unfold shr_fexp. cbn [Zdigits2].
  rewrite fexp_normal by lia.
  replace (Zpos (digits2_pos p) + e - 53 - e)
    with (Zpos (digits2_pos p) - 53) by lia.
  rewrite <- (shr_m_of_loc (Zpos p) l) at 2.
  apply shr_spec; [rewrite shr_m_of_loc; lia | exact Hk].
Qed.

(** Rounding a mantissa of at least 53 bits, in the range of the normal
    numbers: the result is a normal number, and it lies, with the value
    that was rounded, between two neighbours of the target format. *)
Lemma round_aux_normal (s : bool) (p : positive) (ex : Z) (lx : location) :
  53 <= Zpos (digits2_pos p) ->
  -1074 <= ex + (Zpos (digits2_pos p) - 53) ->
  ex + (Zpos (digits2_pos p) - 53) < 971 ->
  exists (m : positive) (e : Z),
    binary_round_aux prec emax s (Zpos p) ex lx = S754_finite s m e /\
    Zpos (digits2_pos m) = 53 /\
    ex + (Zpos (digits2_pos p) - 53) <= e
      <= ex + (Zpos (digits2_pos p) - 53) + 1 /\
    Zpos p / 2 ^ (Zpos (digits2_pos p) - 53) * 2 ^ (Zpos (digits2_pos p) - 53)
      <= Zpos m * 2 ^ (e - ex)
      <= (Zpos p / 2 ^ (Zpos (digits2_pos p) - 53) + 1)
         * 2 ^ (Zpos (digits2_pos p) - 53).
Proof.
  set (k := Zpos (digits2_pos p) - 53). intros Hd Hlo Hhi.
  assert (Hk : 0 <= k) by (unfold k; lia).
  pose proof (shr_fexp_spec p ex lx Hk Hlo) as [Hm' He'].
  fold k in Hm', He'.
  unfold binary_round_aux.
  destruct (shr_fexp prec emax (Zpos p) ex lx) as [mrs' e'].
  cbn [fst snd] in Hm', He'. subst e'.
  set (m' := Zpos p / 2 ^ k) in *.
  assert (Hpk : 0 < 2 ^ k) by (apply Z.pow_pos_nonneg; lia).
  assert (Hm'b : 2 ^ 52 <= m' < 2 ^ 53).
  { pose proof (digits2_bounds p) as [Blo Bhi].
    replace (Zpos (digits2_pos p) - 1) with (52 + k) in Blo by (unfold k; lia).
    replace (Zpos (digits2_pos p)) with (53 + k) in Bhi by (unfold k; lia).
    rewrite Z.pow_add_r in Blo, Bhi by lia.
    unfold m'. split.
    - apply Z.div_le_lower_bound; lia.
    - apply Z.div_lt_upper_bound; lia. }
  pose proof (round_nearest_even_bounds (shr_m mrs') (loc_of_shr_record mrs'))
    as Hm1.
  rewrite Hm' in Hm1 |- *.
  set (m1 := round_nearest_even m' (loc_of_shr_record mrs')) in *.
  destruct m1 as [|q1|q1] eqn:Eq1; [lia| |lia].
  destruct (Z.eq_dec (Zpos q1) (2 ^ 53)) as [Hcarry|Hnocarry].
  - (* the mantissa was rounded up to a power of two *)
    assert (q1 = 9007199254740992%positive) as -> by (apply Pos2Z.inj; exact Hcarry).
    pose proof (shr_fexp_spec 9007199254740992 (ex + k) loc_Exact) as [Hm2 He2];
      [cbn; lia | cbn [digits2_pos Pos.succ]; lia |].
    destruct (shr_fexp prec emax (Zpos 9007199254740992) (ex + k) loc_Exact)
      as [mrs2 e2].
    cbn [fst snd] in Hm2, He2. rewrite Hm2, He2.
    change (Zpos 9007199254740992 / 2 ^ (Zpos (digits2_pos 9007199254740992) - 53))
      with (Zpos 4503599627370496).
    change (Zpos (digits2_pos 9007199254740992) - 53) with 1.
    cbv iota.
    replace (ex + k + 1 <=? emax - prec) with true
      by (symmetry; apply Z.leb_le; unfold emax, prec; lia).
    exists 4503599627370496%positive, (ex + k + 1).
    split; [reflexivity|]. split; [reflexivity|]. split; [lia|].
    replace (ex + k + 1 - ex) with (k + 1) by lia.
    rewrite Z.pow_add_r, Z.pow_1_r by lia.
    change (2 ^ 53) with 9007199254740992 in *. nia.
  - assert (Hq1 : Zpos (digits2_pos q1) = 53)
      by (apply digits2_unique; change (53 - 1) with 52; lia).
    pose proof (shr_fexp_spec q1 (ex + k) loc_Exact) as [Hm2 He2];
      [lia | lia |].
    destruct (shr_fexp prec emax (Zpos q1) (ex + k) loc_Exact) as [mrs2 e2].
    cbn [fst snd] in Hm2, He2. rewrite Hm2, He2, Hq1.
    change (2 ^ (53 - 53)) with 1. rewrite Z.div_1_r. cbv iota.
    replace (ex + k + (53 - 53) <=? emax - prec) with true
      by (symmetry; apply Z.leb_le; unfold emax, prec; lia).
    exists q1, (ex + k + (53 - 53)).
    split; [reflexivity|]. split; [exact Hq1|]. split; [lia|].
    replace (ex + k + (53 - 53) - ex) with k by lia.
    nia.
Qed.

Lemma round_aux_exact (s : bool) (p : positive) (ex : Z) :
  Zpos (digits2_pos p) = 53 -> -1074 <= ex <= 971 ->
  binary_round_aux prec emax s (Zpos p) ex loc_Exact = S754_finite s p ex.
Proof.
  intros Hd He.
  assert (Hs : shr_fexp prec emax (Zpos p) ex loc_Exact =
               (Build_shr_record (Zpos p) false false, ex)).
  { unfold shr_fexp. cbn [Zdigits2]. rewrite Hd, fexp_normal by lia.
    replace (53 + ex - 53 - ex) with 0 by lia. reflexivity. }
  unfold binary_round_aux. rewrite Hs.
  cbn [shr_m loc_of_shr_record round_nearest_even]. rewrite Hs.
  cbn [shr_m].
  replace (ex <=? emax - prec) with true
    by (symmetry; apply Z.leb_le; unfold emax, prec; lia).
  reflexivity.
Qed.

(** *** Real values *)

Definition bpow (e : Z) : R := powerRZ 2 e.

Definition SF2R (x : spec_float) : R :=
  match x with
  | S754_finite s m e => (IZR (cond_Zopp s (Zpos m)) * bpow e)%R
  | _ => 0%R
  end.

Lemma bpow_pos (e : Z) : (0 < bpow e)%R.
Proof. apply powerRZ_lt. lra. Qed.

Lemma bpow_add (a b : Z) : bpow (a + b) = (bpow a * bpow b)%R.
Proof. apply powerRZ_add. lra. Qed.

Lemma bpow_IZR (n : Z) : 0 <= n -> bpow n = IZR (2 ^ n).
Proof.
  intros Hn. unfold bpow. destruct n as [|n|n]; [reflexivity| |lia].
  cbn [powerRZ]. rewrite pow_IZR, positive_nat_Z. reflexivity.
Qed.

(** The relative error of one rounding. *)
Definition eps : R := (/ 4503599627370496)%R.

(** [round_aux_normal] over the reals: [X] is the exact value in units
    of [2^ex], somewhere from the mantissa to its successor. *)
Lemma round_aux_error (s : bool) (p : positive) (ex : Z) (lx : location) (X : R) :
  53 <= Zpos (digits2_pos p) ->
  -1074 <= ex + (Zpos (digits2_pos p) - 53) ->
  ex + (Zpos (digits2_pos p) - 53) < 971 ->
  (IZR (Zpos p) <= X <= IZR (Zpos p) + 1)%R ->
  exists (m : positive) (e : Z),
    binary_round_aux prec emax s (Zpos p) ex lx = S754_finite s m e /\
    Zpos (digits2_pos m) = 53 /\
    ex + (Zpos (digits2_pos p) - 53) <= e
      <= ex + (Zpos (digits2_pos p) - 53) + 1 /\
    (Rabs (IZR (Zpos m) * bpow e - X * bpow ex) <= eps * (X * bpow ex))%R.
Proof.
  intros Hd Hlo Hhi HX.
  destruct (round_aux_normal s p ex lx Hd Hlo Hhi) as (m & e & Hr & Hm & He & Henc).
  exists m, e. split; [exact Hr|]. split; [exact Hm|]. split; [exact He|].
  set (k := Zpos (digits2_pos p) - 53) in *.
  assert (Hk : 0 <= k) by (unfold k; lia).
  assert (Hpk : 0 < 2 ^ k) by (apply Z.pow_pos_nonneg; lia).
  set (L := Zpos p / 2 ^ k * 2 ^ k) in *.
  assert (HL : L <= Zpos p /\ Zpos p + 1 <= L + 2 ^ k).
  { unfold L. pose proof (Z.div_mod (Zpos p) (2 ^ k) ltac:(lia)).
    pose proof (Z.mod_pos_bound (Zpos p) (2 ^ k) Hpk). lia. }
  assert (HLk : 2 ^ 52 * 2 ^ k <= L).
  { unfold L. apply Z.mul_le_mono_nonneg_r; [lia|].
    apply Z.div_le_lower_bound; [lia|].
    pose proof (digits2_bounds p) as [Blo _].
    replace (Zpos (digits2_pos p) - 1) with (k + 52) in Blo by (unfold k; lia).
    rewrite Z.pow_add_r in Blo by lia. lia. }
  replace ((Zpos p / 2 ^ k + 1) * 2 ^ k) with (L + 2 ^ k) in Henc
    by (unfold L; lia).
  replace e with ((e - ex) + ex) at 1 by lia.
  rewrite bpow_add, (bpow_IZR (e - ex)) by lia.
  rewrite <- Rmult_assoc, <- mult_IZR, <- Rmult_minus_distr_r.
  pose proof (bpow_pos ex) as Hb.
  rewrite Rabs_mult, (Rabs_pos_eq (bpow ex)) by lra.
  rewrite <- Rmult_assoc. apply Rmult_le_compat_r; [lra|].
  destruct Henc as [Hw1 Hw2]. destruct HL as [HL1 HL2].
  apply IZR_le in Hw1, Hw2, HL1, HL2, HLk.
  rewrite plus_IZR in Hw2, HL2. rewrite plus_IZR in HL2.
  rewrite mult_IZR in HLk.
  change (IZR (2 ^ 52)) with 4503599627370496%R in HLk.
  assert (0 < IZR (2 ^ k))%R by (apply IZR_lt; lia).
  unfold eps. apply Rabs_le. split; lra.
Qed.

Lemma bpow_opp (e : Z) : bpow (- e) = (/ bpow e)%R.
Proof. apply powerRZ_neg'. Qed.

(** A positive normal number whose exponent lies in [[lo, hi]]. *)
Definition normal_pos (x : spec_float) (lo hi : Z) : Prop :=
  exists (m : positive) (e : Z),
    x = S754_finite false m e /\ Zpos (digits2_pos m) = 53 /\ lo <= e <= hi.

Lemma normal_pos_value (x : spec_float) (lo hi : Z) :
  normal_pos x lo hi -> (0 < SF2R x)%R.
Proof.
  intros (m & e & -> & _ & _). cbn [SF2R cond_Zopp].
  apply Rmult_lt_0_compat; [apply IZR_lt; lia | apply bpow_pos].
Qed.

Lemma mantissa_53 (m : positive) :
  Zpos (digits2_pos m) = 53 -> 2 ^ 52 <= Zpos m < 2 ^ 53.
Proof.
  intros H. pose proof (digits2_bounds m) as B. rewrite H in B. exact B.
Qed.

Lemma SFmul_normal (x y : spec_float) (l1 h1 l2 h2 : Z) :
  normal_pos x l1 h1 -> normal_pos y l2 h2 ->
  -1074 <= l1 + l2 + 52 -> h1 + h2 + 53 < 971 ->
  normal_pos (SF64mul x y) (l1 + l2 + 52) (h1 + h2 + 54) /\
  (Rabs (SF2R (SF64mul x y) - SF2R x * SF2R y) <= eps * (SF2R x * SF2R y))%R.
Proof.
  intros (m1 & e1 & -> & Hd1 & He1) (m2 & e2 & -> & Hd2 & He2) Hlo Hhi.
  unfold SF64mul, SFmul. cbn [xorb].
  pose proof (mantissa_53 m1 Hd1) as B1. pose proof (mantissa_53 m2 Hd2) as B2.
  pose proof (digits2_bounds (m1 * m2)) as [Blo Bhi].
  rewrite Pos2Z.inj_mul in Blo, Bhi.
  change (2 ^ 52) with 4503599627370496 in *.
  change (2 ^ 53) with 9007199254740992 in *.
  assert (Hd : 105 <= Zpos (digits2_pos (m1 * m2)) <= 106).
  { split.
    - destruct (Z_le_gt_dec 105 (Zpos (digits2_pos (m1 * m2)))) as [H|H];
        [exact H|].
      assert (2 ^ Zpos (digits2_pos (m1 * m2)) <= 2 ^ 104)
        by (apply Z.pow_le_mono_r; lia).
      change (2 ^ 104) with (4503599627370496 * 4503599627370496) in *. nia.
    - destruct (Z_le_gt_dec (Zpos (digits2_pos (m1 * m2))) 106) as [H|H];
        [exact H|].
      assert (2 ^ 106 <= 2 ^ (Zpos (digits2_pos (m1 * m2)) - 1))
        by (apply Z.pow_le_mono_r; lia).
      change (2 ^ 106) with (9007199254740992 * 9007199254740992) in *. nia. }
  destruct (round_aux_error false (m1 * m2) (e1 + e2) loc_Exact
              (IZR (Zpos (m1 * m2))) ltac:(lia) ltac:(lia) ltac:(lia)
              ltac:(lra))
    as (m & e & Hr & Hm & He & Herr).
  rewrite Hr. split.
  - exists m, e. split; [reflexivity|]. split; [exact Hm | lia].
  - cbn [SF2R cond_Zopp].
    replace (IZR (Zpos m1) * bpow e1 * (IZR (Zpos m2) * bpow e2))%R
      with (IZR (Zpos (m1 * m2)) * bpow (e1 + e2))%R
      by (rewrite Pos2Z.inj_mul, mult_IZR, bpow_add; ring).
    exact Herr.
Qed.

Lemma div_core_normal (m1 m2 : positive) (e1 e2 : Z) :
  Zpos (digits2_pos m1) = 53 -> Zpos (digits2_pos m2) = 53 ->
  -1074 <= e1 - e2 - 53 ->
  exists l : location,
    SFdiv_core_binary prec emax (Zpos m1) e1 (Zpos m2) e2 =
    (Zpos m1 * 2 ^ 53 / Zpos m2, e1 - e2 - 53, l).
Proof.
  intros Hd1 Hd2 He. unfold SFdiv_core_binary. cbn [Zdigits2].
  rewrite Hd1, Hd2.
  replace (53 + e1 - (53 + e2)) with (e1 - e2) by lia.
  rewrite fexp_normal by lia.
  replace (Z.min (e1 - e2 - 53) (e1 - e2)) with (e1 - e2 - 53) by lia.
  replace (e1 - e2 - (e1 - e2 - 53)) with 53 by lia.
  cbv beta iota zeta.
  rewrite Z.shiftl_mul_pow2 by lia.
  unfold Z.div.
  destruct (Z.div_eucl (Zpos m1 * 2 ^ 53) (Zpos m2)) as [q r].
  eexists. reflexivity.
Qed.

Lemma SFdiv_normal (x y : spec_float) (l1 h1 l2 h2 : Z) :
  normal_pos x l1 h1 -> normal_pos y l2 h2 ->
  -1074 <= l1 - h2 - 53 -> h1 - l2 - 52 < 971 ->
  normal_pos (SF64div x y) (l1 - h2 - 53) (h1 - l2 - 51) /\
  (Rabs (SF2R (SF64div x y) - SF2R x / SF2R y) <= eps * (SF2R x / SF2R y))%R.
Proof.
  intros (m1 & e1 & -> & Hd1 & He1) (m2 & e2 & -> & Hd2 & He2) Hlo Hhi.
  unfold SF64div, SFdiv. cbn [xorb].
  destruct (div_core_normal m1 m2 e1 e2 Hd1 Hd2 ltac:(lia)) as [l Hcore].
  rewrite Hcore.
  pose proof (mantissa_53 m1 Hd1) as B1. pose proof (mantissa_53 m2 Hd2) as B2.
  change (2 ^ 52) with 4503599627370496 in *.
  change (2 ^ 53) with 9007199254740992 in *.
  set (a := Zpos m1 * 9007199254740992).
  set (q := a / Zpos m2).
  assert (Hq : 4503599627370496 <= q < 4503599627370496 * 4).
  { unfold q, a. split.
    - apply Z.div_le_lower_bound; nia.
    - apply Z.div_lt_upper_bound; nia. }
  destruct q as [|pq|pq] eqn:Epq; [lia| |lia].
  assert (Hd : 53 <= Zpos (digits2_pos pq) <= 54).
  { pose proof (digits2_bounds pq) as [Blo Bhi]. split.
    - destruct (Z_le_gt_dec 53 (Zpos (digits2_pos pq))) as [H|H]; [exact H|].
      assert (2 ^ Zpos (digits2_pos pq) <= 2 ^ 52)
        by (apply Z.pow_le_mono_r; lia).
      change (2 ^ 52) with 4503599627370496 in *. lia.
    - destruct (Z_le_gt_dec (Zpos (digits2_pos pq)) 54) as [H|H]; [exact H|].
      assert (2 ^ 54 <= 2 ^ (Zpos (digits2_pos pq) - 1))
        by (apply Z.pow_le_mono_r; lia).
      change (2 ^ 54) with (4503599627370496 * 4) in *. lia. }
  assert (HX : (IZR (Zpos pq) <= IZR a / IZR (Zpos m2) <= IZR (Zpos pq) + 1)%R).
  { pose proof (Z.div_mod a (Zpos m2) ltac:(lia)) as Hdm.
    pose proof (Z.mod_pos_bound a (Zpos m2) ltac:(lia)) as [Hr0 Hr1].
    fold q in Hdm. rewrite Epq in Hdm.
    assert (Hm2 : (0 < IZR (Zpos m2))%R) by (apply IZR_lt; lia).
    apply IZR_le in Hr0. apply IZR_lt in Hr1.
    replace (IZR a) with (IZR (Zpos m2) * IZR (Zpos pq) + IZR (a mod Zpos m2))%R
      by (rewrite <- mult_IZR, <- plus_IZR, <- Hdm; reflexivity).
    replace ((IZR (Zpos m2) * IZR (Zpos pq) + IZR (a mod Zpos m2)) / IZR (Zpos m2))%R
      with (IZR (Zpos pq) + IZR (a mod Zpos m2) / IZR (Zpos m2))%R
      by (field; lra).
    assert (0 <= IZR (a mod Zpos m2) / IZR (Zpos m2) < 1)%R.
    { split.
      - apply Rmult_le_pos; [lra|]. left. now apply Rinv_0_lt_compat.
      - apply Rmult_lt_reg_r with (IZR (Zpos m2)); [lra|].
        unfold Rdiv. rewrite Rmult_assoc, Rinv_l by lra. lra. }
    lra. }
  destruct (round_aux_error false pq (e1 - e2 - 53) l
              (IZR a / IZR (Zpos m2)) ltac:(lia) ltac:(lia) ltac:(lia) HX)
    as (m & e & Hr & Hm & He & Herr).
  rewrite Hr. split.
  - exists m, e. split; [reflexivity|]. split; [exact Hm | lia].
  - cbn [SF2R cond_Zopp].
    pose proof (bpow_pos e1). pose proof (bpow_pos e2).
    assert (Hm2 : (0 < IZR (Zpos m2))%R) by (apply IZR_lt; lia).
    replace (IZR (Zpos m1) * bpow e1 / (IZR (Zpos m2) * bpow e2))%R
      with (IZR a / IZR (Zpos m2) * bpow (e1 - e2 - 53))%R.
    + exact Herr.
    + replace (e1 - e2 - 53) with (e1 + (- e2 + - (53))) by lia.
      rewrite !bpow_add, !bpow_opp, (bpow_IZR 53) by lia.
      unfold a. rewrite mult_IZR.
      change (IZR (2 ^ 53)) with 9007199254740992%R.
      field. lra.
Qed.

Lemma valid_normal (s : bool) (m : positive) (e : Z) :
  Zpos (digits2_pos m) = 53 -> -1074 <= e <= 971 ->
  valid_binary (S754_finite s m e) = true.
Proof.
  intros Hd He. cbn [SpecFloat.valid_binary].
  unfold SpecFloat.bounded, SpecFloat.canonical_mantissa.
  rewrite Hd, fexp_normal by lia. apply andb_true_iff. split.
  - apply Z.eqb_eq. lia.
  - apply Z.leb_le. unfold emax, prec. lia.
Qed.

(** Conversion of an integer of at most 53 bits: exact. *)
Lemma normalize_exact (s : bool) (p : positive) (ex : Z) :
  Zpos (digits2_pos p) <= 53 ->
  -1074 <= ex + (Zpos (digits2_pos p) - 53) <= 971 ->
  exists m : positive,
    binary_normalize prec emax (cond_Zopp s (Zpos p)) ex s =
      S754_finite s m (ex + (Zpos (digits2_pos p) - 53)) /\
    Zpos (digits2_pos m) = 53 /\
    Zpos m = Zpos p * 2 ^ (53 - Zpos (digits2_pos p)).
Proof.
  intros Hd He.
  assert (E : binary_normalize prec emax (cond_Zopp s (Zpos p)) ex s =
              binary_round prec emax s p ex) by (destruct s; reflexivity).
  rewrite E. unfold binary_round.
  rewrite fexp_normal by lia. unfold shl_align.
  destruct (Zpos (digits2_pos p) + ex - 53 - ex) as [|k|k] eqn:Ek; [| lia |].
  - exists p. assert (Hp : Zpos (digits2_pos p) = 53) by lia.
    rewrite round_aux_exact by lia.
    rewrite Hp, Z.sub_diag, Z.add_0_r, Z.pow_0_r, Z.mul_1_r. auto.
  - exists (Pos.iter xO p k).
    assert (Hk : Zpos k = 53 - Zpos (digits2_pos p)) by lia.
    assert (Hdk : Zpos (digits2_pos (Pos.iter xO p k)) = 53)
      by (rewrite digits2_iter_xO; lia).
    rewrite round_aux_exact by lia.
    rewrite iter_xO_value, Hk.
    split; [f_equal; lia | split; [exact Hdk | reflexivity]].
Qed.

Lemma float_of_int_normal (z : Z) :
  1 <= z <= 25600 ->
  exists f : float,
    float_of_int z = Return f /\
    normal_pos (Prim2SF f) (-52) (-38) /\
    SF2R (Prim2SF f) = IZR z.
Proof.
  intros Hz. destruct z as [|p|p]; [lia| |lia].
  assert (Hd : 1 <= Zpos (digits2_pos p) <= 15).
  { pose proof (digits2_bounds p) as [Blo _]. split; [lia|].
    destruct (Z_le_gt_dec (Zpos (digits2_pos p)) 15) as [H|H]; [exact H|].
    assert (2 ^ 15 <= 2 ^ (Zpos (digits2_pos p) - 1))
      by (apply Z.pow_le_mono_r; lia).
    change (2 ^ 15) with 32768 in *. lia. }
  destruct (normalize_exact false p 0 ltac:(lia) ltac:(lia)) as (m & Hn & Hm & Hv).
  cbn [cond_Zopp] in Hn. unfold float_of_int. rewrite Hn.
  eexists. split; [reflexivity|].
  rewrite Prim2SF_SF2Prim by (apply valid_normal; [exact Hm | lia]).
  split.
  - exists m, (0 + (Zpos (digits2_pos p) - 53)).
    split; [reflexivity | split; [exact Hm | lia]].
  - cbn [SF2R cond_Zopp]. rewrite Hv, mult_IZR.
    replace (0 + (Zpos (digits2_pos p) - 53))
      with (- (53 - Zpos (digits2_pos p))) by lia.
    rewrite bpow_opp, <- bpow_IZR by lia.
    pose proof (bpow_pos (53 - Zpos (digits2_pos p))).
    field. lra.
Qed.

(** The positive finite values of binary32, the format in which the
    device reports its nominal values: from [2^-149] to
    [(2 - 2^-23) * 2^127]. *)
Definition binary32_min : float := 0x1p-149.
Definition binary32_max : float := 0x1.fffffep+127.

Definition binary32_positive (x : float) : bool :=
  (binary32_min <=? x)%float && (x <=? binary32_max)%float.

Lemma binary32_positive_normal (x : float) :
  binary32_positive x = true -> normal_pos (Prim2SF x) (-201) 75.
Proof.
  unfold binary32_positive. intros H. apply andb_true_iff in H as [Hlo Hhi].
  rewrite leb_spec in Hlo, Hhi.
  assert (Emin : Prim2SF binary32_min = S754_finite false 4503599627370496 (-201))
    by (vm_compute; reflexivity).
  assert (Emax : Prim2SF binary32_max = S754_finite false 9007198717870080 75)
    by (vm_compute; reflexivity).
  rewrite Emin in Hlo. rewrite Emax in Hhi.
  pose proof (Prim2SF_valid x) as Hv.
  destruct (Prim2SF x) as [s|s| |s m e]; try discriminate Hlo.
  - destruct s; discriminate.
  - unfold SFleb, SFcompare in Hlo, Hhi.
    destruct s; [discriminate Hlo|].
    assert (He : -201 <= e <= 75).
    { split.
      - destruct (Z.compare_spec (-201) e); [lia | lia | discriminate Hlo].
      - destruct (Z.compare_spec e 75); [lia | lia | discriminate Hhi]. }
    exists m, e. split; [reflexivity|]. split; [|exact He].
    cbn [SpecFloat.valid_binary] in Hv.
    unfold SpecFloat.bounded, SpecFloat.canonical_mantissa in Hv.
    apply andb_true_iff in Hv as [Hc _]. apply Z.eqb_eq in Hc.
    unfold fexp, emin, prec, emax in Hc. lia.
Qed.

Lemma normal_pos_nonzero (x : float) (lo hi : Z) :
  normal_pos (Prim2SF x) lo hi -> (x =? 0)%float = false.
Proof.
  intros (m & e & Hx & _). rewrite eqb_spec, Hx. reflexivity.
Qed.

Lemma compare_cont_Eq (p q : positive) :
  Pos.compare_cont Eq p q = (Zpos p ?= Zpos q).
Proof. reflexivity. Qed.

Lemma in_binary32_range (x : float) (m : positive) (e : Z) :
  Prim2SF x = S754_finite false m e ->
  Zpos (digits2_pos m) = 53 ->
  -201 <= e <= 75 ->
  (e = 75 -> Zpos m <= 9007198717870080) ->
  binary32_positive x = true.
Proof.
  intros Hx Hd He Hm. pose proof (mantissa_53 m Hd) as [Blo _].
  change (2 ^ 52) with 4503599627370496 in Blo.
  unfold binary32_positive. rewrite !leb_spec, Hx.
  assert (Emin : Prim2SF binary32_min = S754_finite false 4503599627370496 (-201))
    by (vm_compute; reflexivity).
  assert (Emax : Prim2SF binary32_max = S754_finite false 9007198717870080 75)
    by (vm_compute; reflexivity).
  rewrite Emin, Emax. unfold SFleb, SFcompare.
  rewrite !compare_cont_Eq.
  apply andb_true_iff. split.
  - destruct (Z.compare_spec (-201) e) as [E|E|E]; [|reflexivity|lia].
    destruct (Z.compare_spec 4503599627370496 (Zpos m));
      [reflexivity | reflexivity | lia].
  - destruct (Z.compare_spec e 75) as [E|E|E]; [|reflexivity|lia].
    specialize (Hm E).
    destruct (Z.compare_spec (Zpos m) 9007198717870080);
      [reflexivity | reflexivity | lia].
Qed.

(** Every positive finite number that [unpack_f] returns is in that
    range. *)
Lemma unpack_f_positive (b : list Z) (x : float) :
  forallb is_byte b = true ->
  unpack_f b = Return x ->
  (0 <? x)%float = true ->
  (x <? infinity)%float = true ->
  binary32_positive x = true.
Proof.
  intros Hb Hu Hpos Hfin.
  destruct b as [|b0 [|b1 [|b2 [|b3 [|]]]]]; try discriminate Hu.
  cbn [forallb] in Hb.
  repeat (apply andb_true_iff in Hb as [?%is_byte_range Hb]).
  cbn [unpack_f] in Hu.
  set (bits := b0 * 2 ^ 24 + b1 * 2 ^ 16 + b2 * 2 ^ 8 + b3) in *.
  assert (Hbits : 0 <= bits < 2 ^ 32) by (unfold bits; lia).
  set (s := 2 ^ 31 <=? bits) in *.
  set (e := (bits / 2 ^ 23) mod 256) in *.
  set (m := bits mod 2 ^ 23) in *.
  assert (Hm : 0 <= m < 2 ^ 23) by (apply Z.mod_pos_bound; lia).
  assert (He : 0 <= e < 256) by (apply Z.mod_pos_bound; lia).
  injection Hu as Hu.
  change (Z.pow_pos 2 23) with 8388608 in Hu.
  rewrite ltb_spec in Hpos, Hfin.
  change (Prim2SF 0) with (S754_zero false) in Hpos.
  change (Prim2SF infinity) with (S754_infinity false) in Hfin.
  change (2 ^ 23) with 8388608 in *.
  destruct (e =? 255) eqn:E255.
  - (* infinities and NaN *)
    exfalso. destruct (m =? 0); subst x;
      rewrite Prim2SF_SF2Prim in Hpos, Hfin by reflexivity;
      [destruct s|]; discriminate.
  - apply Z.eqb_neq in E255. destruct (e =? 0) eqn:E0.
    + (* zero and the subnormal numbers of binary32 *)
      destruct m as [|p|p] eqn:Em; [|  |lia].
      * exfalso. subst x. destruct s;
          rewrite Prim2SF_SF2Prim in Hpos by reflexivity; discriminate.
      * assert (Hd : 1 <= Zpos (digits2_pos p) <= 23).
        { pose proof (digits2_bounds p) as [Blo _]. split; [lia|].
          destruct (Z_le_gt_dec (Zpos (digits2_pos p)) 23) as [H'|H']; [exact H'|].
          assert (2 ^ 23 <= 2 ^ (Zpos (digits2_pos p) - 1))
            by (apply Z.pow_le_mono_r; lia).
          change (2 ^ 23) with 8388608 in *. lia. }
        destruct (normalize_exact s p (-149) ltac:(lia) ltac:(lia))
          as (mz & Hn & Hdz & Hv).
        rewrite Hn in Hu.
        assert (Hx : Prim2SF x = S754_finite s mz (-149 + (Zpos (digits2_pos p) - 53)))
          by (subst x; apply Prim2SF_SF2Prim, valid_normal; [exact Hdz | lia]).
        rewrite Hx in Hpos.
        destruct s; [discriminate Hpos|].
        apply (in_binary32_range x mz _ Hx Hdz); lia.
    + (* the normal numbers of binary32 *)
      apply Z.eqb_neq in E0.
      destruct (m + 8388608) as [|p|p] eqn:Ep; [lia| |lia].
      assert (Hd : Zpos (digits2_pos p) = 24)
        by (apply digits2_unique; change (2 ^ (24 - 1)) with 8388608;
            change (2 ^ 24) with 16777216; lia).
      destruct (normalize_exact s p (e - 150) ltac:(lia) ltac:(lia))
        as (mz & Hn & Hdz & Hv).
      rewrite Hn in Hu. rewrite Hd in *.
      assert (Hx : Prim2SF x = S754_finite s mz (e - 150 + (24 - 53)))
        by (subst x; apply Prim2SF_SF2Prim, valid_normal; [exact Hdz | lia]).
      rewrite Hx in Hpos.
      destruct s; [discriminate Hpos|].
      apply (in_binary32_range x mz _ Hx Hdz); [lia|].
      intros _. rewrite Hv. change (2 ^ (53 - 24)) with 536870912. lia.
Qed.

(** *** Rounding to the nearest integer *)

Lemma round_half_even_near (m : positive) (e z : Z) :
  (Rabs (IZR (Zpos m) * bpow e - IZR z) < 1 / 2)%R ->
  round_half_even m e = z.
Proof.
  intros H. apply Rabs_def2 in H as [H1 H2]. unfold round_half_even.
  destruct (0 <=? e) eqn:Ee.
  - apply Z.leb_le in Ee. rewrite Z.shiftl_mul_pow2 by lia.
    rewrite bpow_IZR, <- mult_IZR, <- minus_IZR in H1, H2 by lia.
    assert (Zpos m * 2 ^ e - z < 1)%Z by (apply lt_IZR; lra).
    assert (-1 < Zpos m * 2 ^ e - z)%Z by (apply lt_IZR; lra).
    lia.
  - apply Z.leb_gt in Ee.
    set (D := 2 ^ (- e)).
    assert (HD : 0 < D) by (apply Z.pow_pos_nonneg; lia).
    assert (HDr : (0 < IZR D)%R) by (apply IZR_lt; exact HD).
    replace e with (- (- e)) in H1, H2 by lia.
    rewrite bpow_opp, bpow_IZR in H1, H2 by lia. fold D in H1, H2.
    assert (Hu : (2 * IZR (Zpos m) < (2 * IZR z + 1) * IZR D)%R).
    { apply Rmult_lt_reg_r with (/ IZR D)%R; [now apply Rinv_0_lt_compat|].
      rewrite (Rmult_assoc _ (IZR D)), Rinv_r by lra. lra. }
    assert (Hl : ((2 * IZR z - 1) * IZR D < 2 * IZR (Zpos m))%R).
    { apply Rmult_lt_reg_r with (/ IZR D)%R; [now apply Rinv_0_lt_compat|].
      rewrite (Rmult_assoc _ (IZR D)), Rinv_r by lra. lra. }
    assert (Hu' : 2 * Zpos m < (2 * z + 1) * D).
    { apply lt_IZR. rewrite !mult_IZR, plus_IZR, mult_IZR. exact Hu. }
    assert (Hl' : (2 * z - 1) * D < 2 * Zpos m).
    { apply lt_IZR. rewrite !mult_IZR, minus_IZR, mult_IZR. exact Hl. }
    pose proof (Z.div_mod (Zpos m) D ltac:(lia)) as Hdm.
    pose proof (Z.mod_pos_bound (Zpos m) D HD) as Hr.
    set (q := Zpos m / D) in *. set (r := Zpos m mod D) in *.
    destruct (Z.compare_spec (2 * r) D) as [Hc|Hc|Hc].
    + exfalso.
      assert (2 * z - 1 < 2 * q + 1)
        by (apply (Z.mul_lt_mono_pos_r D); lia).
      assert (2 * q + 1 < 2 * z + 1)
        by (apply (Z.mul_lt_mono_pos_r D); lia).
      lia.
    + assert (2 * z - 1 < 2 * q + 1)
        by (apply (Z.mul_lt_mono_pos_r D); lia).
      assert (2 * q < 2 * z + 1)
        by (apply (Z.mul_lt_mono_pos_r D); lia).
      lia.
    + assert (2 * z - 1 < 2 * q + 2)
        by (apply (Z.mul_lt_mono_pos_r D); lia).
      assert (2 * q + 1 < 2 * z + 1)
        by (apply (Z.mul_lt_mono_pos_r D); lia).
      lia.
Qed.

(** *** Four roundings in a row *)

Lemma Rabs_le_bounds (a b : R) : (Rabs a <= b)%R -> (- b <= a <= b)%R.
Proof. unfold Rabs. destruct (Rcase_abs a); lra. Qed.

Lemma rel_factor (V X : R) :
  (0 < X)%R -> (Rabs (V - X) <= eps * X)%R ->
  exists t : R, V = (X * t)%R /\ (1 - eps <= t <= 1 + eps)%R.
Proof.
  intros HX H. exists (V / X)%R. split; [field; lra|].
  apply Rabs_le_bounds in H as [H1 H2].
  split.
  - apply Rmult_le_reg_r with X; [exact HX|].
    unfold Rdiv. rewrite Rmult_assoc, Rinv_l by lra. lra.
  - apply Rmult_le_reg_r with X; [exact HX|].
    unfold Rdiv. rewrite Rmult_assoc, Rinv_l by lra. lra.
Qed.

Lemma eps_small : (0 < eps < / 1000000000000000)%R.
Proof. unfold eps. lra. Qed.

Lemma four_roundings (N Rr C A Xv Y Q : R) :
  (0 < N)%R -> (1 <= Rr <= 25600)%R -> (0 < C)%R ->
  (Rabs (A - N * Rr) <= eps * (N * Rr))%R ->
  (Rabs (Xv - A / C) <= eps * (A / C))%R ->
  (Rabs (Y - Xv * C) <= eps * (Xv * C))%R ->
  (Rabs (Q - Y / N) <= eps * (Y / N))%R ->
  (Rabs (Q - Rr) < 1 / 2)%R.
Proof.
  intros HN HR HC HA HX HY HQ. pose proof eps_small as He.
  assert (HNR : (0 < N * Rr)%R) by (apply Rmult_lt_0_compat; lra).
  destruct (rel_factor A _ HNR HA) as (t1 & EA & B1).
  assert (HA0 : (0 < A)%R) by (rewrite EA; apply Rmult_lt_0_compat; lra).
  assert (HAC : (0 < A / C)%R)
    by (apply Rmult_lt_0_compat; [lra | now apply Rinv_0_lt_compat]).
  destruct (rel_factor Xv _ HAC HX) as (t2 & EX & B2).
  assert (HX0 : (0 < Xv)%R) by (rewrite EX; apply Rmult_lt_0_compat; lra).
  assert (HXC : (0 < Xv * C)%R) by (apply Rmult_lt_0_compat; lra).
  destruct (rel_factor Y _ HXC HY) as (t3 & EY & B3).
  assert (HY0 : (0 < Y)%R) by (rewrite EY; apply Rmult_lt_0_compat; lra).
  assert (HYN : (0 < Y / N)%R)
    by (apply Rmult_lt_0_compat; [lra | now apply Rinv_0_lt_compat]).
  destruct (rel_factor Q _ HYN HQ) as (t4 & EQ & B4).
  assert (E : Q = (Rr * ((t1 * t2) * (t3 * t4)))%R).
  { rewrite EQ, EY, EX, EA. field. lra. }
  set (lo := (1 - eps)%R) in *. set (hi := (1 + eps)%R) in *.
  assert (Hlo : (0 <= lo)%R) by (unfold lo; lra).
  assert (U : (lo * lo <= t1 * t2 <= hi * hi)%R)
    by (split; apply Rmult_le_compat; lra).
  assert (V : (lo * lo <= t3 * t4 <= hi * hi)%R)
    by (split; apply Rmult_le_compat; lra).
  assert (Hlo2 : (0 <= lo * lo)%R) by (apply Rmult_le_pos; lra).
  assert (T : (lo * lo * (lo * lo) <= t1 * t2 * (t3 * t4)
               <= hi * hi * (hi * hi))%R)
    by (split; apply Rmult_le_compat; lra).
  set (P := (t1 * t2 * (t3 * t4))%R) in *.
  assert (Tlo : (1 - 5 * eps <= lo * lo * (lo * lo))%R) by (unfold lo; nra).
  assert (Thi : (hi * hi * (hi * hi) <= 1 + 5 * eps)%R) by (unfold hi; nra).
  rewrite E. replace (Rr * P - Rr)%R with (Rr * (P - 1))%R by ring.
  apply Rabs_def1.
  - apply Rle_lt_trans with (Rr * (5 * eps))%R.
    + apply Rmult_le_compat_l; lra.
    + apply Rle_lt_trans with (25600 * (5 * eps))%R.
      * apply Rmult_le_compat_r; lra.
      * lra.
  - apply Rlt_le_trans with (Rr * (- (5 * eps)))%R.
    + apply Rlt_le_trans with (25600 * (- (5 * eps)))%R.
      * lra.
      * replace (25600 * - (5 * eps))%R with (- (25600 * (5 * eps)))%R by ring.
        replace (Rr * - (5 * eps))%R with (- (Rr * (5 * eps)))%R by ring.
        apply Ropp_le_contravar. apply Rmult_le_compat_r; lra.
    + apply Rmult_le_compat_l; lra.
Qed.

(** *** The operations of the scaling formulas *)

Lemma mul_normal (x y : float) (l1 h1 l2 h2 : Z) :
  normal_pos (Prim2SF x) l1 h1 -> normal_pos (Prim2SF y) l2 h2 ->
  -1074 <= l1 + l2 + 52 -> h1 + h2 + 53 < 971 ->
  normal_pos (Prim2SF (x * y)) (l1 + l2 + 52) (h1 + h2 + 54) /\
  (Rabs (SF2R (Prim2SF (x * y)) - SF2R (Prim2SF x) * SF2R (Prim2SF y))
   <= eps * (SF2R (Prim2SF x) * SF2R (Prim2SF y)))%R.
Proof. rewrite mul_spec. apply SFmul_normal. Qed.

Lemma div_normal (x y : float) (l1 h1 l2 h2 : Z) :
  normal_pos (Prim2SF x) l1 h1 -> normal_pos (Prim2SF y) l2 h2 ->
  -1074 <= l1 - h2 - 53 -> h1 - l2 - 52 < 971 ->
  normal_pos (Prim2SF (x / y)) (l1 - h2 - 53) (h1 - l2 - 51) /\
  (Rabs (SF2R (Prim2SF (x / y)) - SF2R (Prim2SF x) / SF2R (Prim2SF y))
   <= eps * (SF2R (Prim2SF x) / SF2R (Prim2SF y)))%R.
Proof. rewrite div_spec. apply SFdiv_normal. Qed.

Lemma literal_25600 :
  normal_pos (Prim2SF 25600) (-38) (-38) /\ SF2R (Prim2SF 25600) = 25600%R.
Proof.
  assert (E : Prim2SF 25600 = S754_finite false 7036874417766400 (-38))
    by (vm_compute; reflexivity).
  rewrite E. split.
  - exists 7036874417766400%positive, (-38).
    split; [reflexivity|]. split; [reflexivity | lia].
  - cbn [SF2R cond_Zopp]. change (-38) with (- (38)).
    rewrite bpow_opp, bpow_IZR by lia.
    change (IZR (2 ^ 38)) with 274877906944%R. lra.
Qed.

(** Raw value, to physical value, and back: the same raw value. *)
Lemma scaling_roundtrip_positive (nominal : float) (raw : Z) :
  binary32_positive nominal = true ->
  1 <= raw <= 25600 ->
  exists physical : float,
    scale_to_physical nominal raw = Return physical /\
    scale_to_raw (PyFloat physical) nominal = Return raw.
Proof.
  intros Hn Hraw.
  pose proof (binary32_positive_normal nominal Hn) as Nn.
  destruct (float_of_int_normal raw Hraw) as (fr & Hfr & Nfr & Vfr).
  destruct (float_of_int_normal 25600 ltac:(lia)) as (c & Hc & Nc & Vc).
  destruct literal_25600 as [Nl Vl].
  destruct (mul_normal nominal fr _ _ _ _ Nn Nfr ltac:(lia) ltac:(lia))
    as [Na Ea].
  destruct (div_normal (nominal * fr) c _ _ _ _ Na Nc ltac:(lia) ltac:(lia))
    as [Nx Ex].
  destruct (mul_normal (nominal * fr / c) 25600 _ _ _ _ Nx Nl
              ltac:(lia) ltac:(lia)) as [Ny Ey].
  destruct (div_normal (nominal * fr / c * 25600) nominal _ _ _ _ Ny Nn
              ltac:(lia) ltac:(lia)) as [Nq Eq].
  exists (nominal * fr / c)%float. split.
  - unfold scale_to_physical, float_mul, float_truediv.
    cbn [to_float bindO]. rewrite Hfr. cbn [bindO]. rewrite Hc. cbn [bindO].
    now rewrite (normal_pos_nonzero c _ _ Nc).
  - unfold scale_to_raw, float_mul, float_truediv.
    cbn [to_float bindO].
    rewrite (normal_pos_nonzero nominal _ _ Nn). cbn [bindO].
    rewrite Vfr in Ea. rewrite Vc in Ex. rewrite Vl in Ey.
    pose proof (normal_pos_value _ _ _ Nn) as HN.
    assert (Hq : (Rabs (SF2R (Prim2SF (nominal * fr / c * 25600 / nominal))
                        - IZR raw) < 1 / 2)%R).
    { apply (four_roundings (SF2R (Prim2SF nominal)) (IZR raw) 25600
               (SF2R (Prim2SF (nominal * fr)))
               (SF2R (Prim2SF (nominal * fr / c)))
               (SF2R (Prim2SF (nominal * fr / c * 25600))));
        try assumption; try lra.
      split; [apply IZR_le; lia | apply IZR_le; lia]. }
    destruct Nq as (mq & eq & Eq' & _ & _).
    unfold py_round. rewrite Eq' in Hq |- *. cbn [SF2R cond_Zopp] in Hq |- *.
    now rewrite (round_half_even_near mq eq raw Hq).
Qed.

Lemma scaling_roundtrip_zero (nominal : float) :
  binary32_positive nominal = true ->
  exists physical : float,
    scale_to_physical nominal 0 = Return physical /\
    scale_to_raw (PyFloat physical) nominal = Return 0.
Proof.
  intros Hn.
  pose proof (binary32_positive_normal nominal Hn) as Nn.
  destruct (float_of_int_normal 25600 ltac:(lia)) as (c & Hc & Nc & Vc).
  assert (E0 : float_of_int 0 = Return 0%float) by reflexivity.
  assert (Z0' : Prim2SF 0 = S754_zero false) by reflexivity.
  assert (Ea : Prim2SF (nominal * 0) = S754_zero false).
  { rewrite mul_spec, Z0'. destruct Nn as (m & e & -> & _). reflexivity. }
  assert (Ex : exists s, Prim2SF (nominal * 0 / c) = S754_zero s).
  { rewrite div_spec, Ea. destruct Nc as (m & e & -> & _).
    eexists. reflexivity. }
  destruct Ex as [s Ex].
  assert (Ey : exists s', Prim2SF (nominal * 0 / c * 25600) = S754_zero s').
  { rewrite mul_spec, Ex. destruct literal_25600 as [(m & e & -> & _) _].
    eexists. reflexivity. }
  destruct Ey as [s' Ey].
  assert (Eq : exists s'', Prim2SF (nominal * 0 / c * 25600 / nominal)
                           = S754_zero s'').
  { rewrite div_spec, Ey. destruct Nn as (m & e & -> & _).
    eexists. reflexivity. }
  destruct Eq as [s'' Eq].
  exists (nominal * 0 / c)%float. split.
  - unfold scale_to_physical, float_mul, float_truediv.
    cbn [to_float bindO]. rewrite E0. cbn [bindO]. rewrite Hc. cbn [bindO].
    now rewrite (normal_pos_nonzero c _ _ Nc).
  - unfold scale_to_raw, float_mul, float_truediv.
    cbn [to_float bindO].
    rewrite (normal_pos_nonzero nominal _ _ Nn). cbn [bindO].
    unfold py_round. now rewrite Eq.
Qed.

End Binary64.

(** C7: for a nominal value in the positive range of binary32 and a raw
    value from 0 to 25600, scaling to the physical value and back
    returns a raw value within one of the original (the original, in
    fact). *)
Theorem scaling_roundtrip :
  forall (nominal : float) (raw : Z),
    binary32_positive nominal = true ->
    0 <= raw <= 25600 ->
    exists (physical : float) (raw' : Z),
      scale_to_physical nominal raw = Return physical /\
      scale_to_raw (PyFloat physical) nominal = Return raw' /\
      raw - 1 <= raw' <= raw + 1 /\
      raw' = raw.
Proof.
  intros nominal raw Hn Hraw.
  destruct (Z.eq_dec raw 0) as [->|Hnz].
  - destruct (scaling_roundtrip_zero nominal Hn) as (physical & H1 & H2).
    exists physical, 0. repeat split; try assumption; lia.
  - destruct (scaling_roundtrip_positive nominal raw Hn ltac:(lia))
      as (physical & H1 & H2).
    exists physical, raw. repeat split; try assumption; lia.
Qed.

Lemma scaling_roundtrip_witness :
  binary32_positive 24 = true /\
  exists (physical : float) (raw' : Z),
    scale_to_physical 24 12800 = Return physical /\
    scale_to_raw (PyFloat physical) 24 = Return raw' /\
    12800 - 1 <= raw' <= 12800 + 1 /\
    raw' = 12800.
Proof.
  split; [reflexivity|].
  apply (scaling_roundtrip 24 12800); [reflexivity | lia].
Defined.

(** Outside the range of binary32 the round trip is lost.  With the
    smallest positive binary64 number as nominal value the physical
    value underflows to zero, and raw 3 comes back as 0; with an
    infinite nominal value, which [struct.unpack] gives for the payload
    [7F 80 00 00], the setter divides infinity by infinity and
    [round] raises [ValueError]. *)
Lemma scaling_roundtrip_fails_outside_binary32 :
  let tiny := 0x1p-1074%float in
  ((0 <? tiny)%float = true /\ binary32_positive tiny = false /\
   scale_to_physical tiny 3 = Return 0%float /\
   scale_to_raw (PyFloat 0) tiny = Return 0 /\
   ~ (3 - 1 <= 0 <= 3 + 1)) /\
  ((0 <? infinity)%float = true /\ binary32_positive infinity = false /\
   unpack_f [0x7F; 0x80; 0x00; 0x00] = Return infinity /\
   scale_to_physical infinity 1 = Return infinity /\
   scale_to_raw (PyFloat infinity) infinity = Raise ValueError).
Proof.
  cbv zeta. split.
  - split; [reflexivity|]. split; [reflexivity|].
    split; [vm_compute; reflexivity|]. split; [vm_compute; reflexivity|lia].
  - split; [reflexivity|]. split; [reflexivity|].
    split; [vm_compute; reflexivity|].
    split; vm_compute; reflexivity.
Qed.

(** The same round trip through the session: the set point read from
    the device, when sent back with [set_voltage] or [set_current], is
    sent as the raw value that was read. *)
Lemma setpoint_roundtrip_session (self : ps2000) (node : Z) (w : world) :
  binary32_positive (u_nom self) = true ->
  binary32_positive (i_nom self) = true ->
  is_byte node = true ->
  is_open w = true ->
  accepted (peek_read 100 w) = true ->
  0 <= integer_of (peek_read 100 w) <= 25600 ->
  (exists u : float,
     fst (get_voltage_setpoint self node w) = Return u /\
     forall w' : world,
       set_voltage self (PyFloat u) node w' =
       _set_integer self 50 (PyInt (integer_of (peek_read 100 w))) node w') /\
  (exists i : float,
     fst (get_current_setpoint self node w) = Return i /\
     forall w' : world,
       set_current self (PyFloat i) node w' =
       _set_integer self 51 (PyInt (integer_of (peek_read 100 w))) node w').
Proof.
  intros Hu Hi Hn Ho Ha Hr.
  destruct (scaling_roundtrip_zero (u_nom self) Hu) as (u0 & Hu0 & Hu0').
  destruct (scaling_roundtrip_zero (i_nom self) Hi) as (i0 & Hi0 & Hi0').
  split.
  - destruct (scaled_getter_cases self (u_nom self) 50 node _ w
                (construct_query node 50 Hn eq_refl) Ho) as [out Hout].
    rewrite Ha in Hout.
    assert (exists u, scale_to_physical (u_nom self) (integer_of (peek_read 100 w))
                      = Return u /\
                      scale_to_raw (PyFloat u) (u_nom self)
                      = Return (integer_of (peek_read 100 w)))
      as (u & H1 & H2).
    { destruct (Z.eq_dec (integer_of (peek_read 100 w)) 0) as [E|E].
      - rewrite E. eauto.
      - apply scaling_roundtrip_positive; [exact Hu | lia]. }
    exists u. split.
    + unfold get_voltage_setpoint. rewrite Hout, H1. reflexivity.
    + intros w'. unfold set_voltage. run (unfold lift; rewrite H2). reflexivity.
  - destruct (scaled_getter_cases self (i_nom self) 51 node _ w
                (construct_query node 51 Hn eq_refl) Ho) as [out Hout].
    rewrite Ha in Hout.
    assert (exists i, scale_to_physical (i_nom self) (integer_of (peek_read 100 w))
                      = Return i /\
                      scale_to_raw (PyFloat i) (i_nom self)
                      = Return (integer_of (peek_read 100 w)))
      as (i & H1 & H2).
    { destruct (Z.eq_dec (integer_of (peek_read 100 w)) 0) as [E|E].
      - rewrite E. eauto.
      - apply scaling_roundtrip_positive; [exact Hi | lia]. }
    exists i. split.
    + unfold get_current_setpoint. rewrite Hout, H1. reflexivity.
    + intros w'. unfold set_current. run (unfold lift; rewrite H2). reflexivity.
Qed.


(** * Further properties of the codec and the session *)

(** ** Which telegrams can be built *)

(** The longest data a frame type takes: the start delimiter must stay
    a byte. *)
Definition max_data (type : Z) : Z := 0xFF - (0x30 + type) + 1.

Section Construct.

Lemma forallb_frame (a b c : Z) (d : list Z) (h l : Z) :
  is_byte a = true -> is_byte b = true -> is_byte c = true ->
  forallb is_byte d = true -> is_byte h = true -> is_byte l = true ->
  forallb is_byte (((a :: b :: c :: d) ++ [h]) ++ [l]) = true.
Proof.
  intros Ha Hb Hc Hd Hh Hl. rewrite !forallb_app. cbn [forallb].
  now rewrite Ha, Hb, Hc, Hd, Hh, Hl.
Qed.

(** A telegram that [_construct] returns has the layout of [header]
    followed by the two checksum bytes, whatever the arguments. *)
Lemma construct_inv (type node obj : Z) (data telegram : list Z) :
  _construct type node obj data = Return telegram ->
  telegram = header type node obj data ++
             [Z.shiftr (byte_sum (header type node obj data)) 8;
              Z.land (byte_sum (header type node obj data)) 0xFF] /\
  forallb is_byte telegram = true.
Proof.
  unfold _construct, bytearray_append. cbn [app].
  destruct (is_byte (48 + type)) eqn:Ht; cbn [bindO]; [|discriminate].
  destruct (is_byte node) eqn:Hn; cbn [bindO]; [|discriminate].
  destruct (is_byte obj) eqn:Ho; cbn [bindO]; [|discriminate].
  unfold header, delimiter.
  destruct (len data >? 0) eqn:El.
  - unfold bytearray_extend.
    destruct (forallb is_byte data) eqn:Hd; cbn [bindO]; [|discriminate].
    cbn [app]. unfold bytearray_iadd0.
    destruct (is_byte (48 + type + (len data - 1))) eqn:Hd0; cbn [bindO];
      [|discriminate].
    destruct (is_byte (Z.shiftr _ 8)) eqn:Hhi; cbn [bindO]; [|discriminate].
    rewrite land255_byte. cbn [bindO]. intros [= <-].
    split; [now rewrite <- app_assoc|].
    apply forallb_frame; assumption || apply land255_byte.
  - assert (data = []) as ->.
    { destruct data; [reflexivity|]. unfold len in El. simpl length in El.
      rewrite Z.gtb_ltb in El. apply Z.ltb_ge in El. lia. }
    cbn [bindO].
    destruct (is_byte (Z.shiftr _ 8)) eqn:Hhi; cbn [bindO]; [|discriminate].
    rewrite land255_byte. cbn [bindO]. intros [= <-].
    split; [reflexivity|].
    apply (forallb_frame _ _ _ []); trivial; apply land255_byte.
Qed.

Lemma construct_raises_ValueError (type node obj : Z) (data : list Z) (e : exn) :
  _construct type node obj data = Raise e -> e = ValueError.
Proof.
  unfold _construct, bytearray_append. cbn [app].
  destruct (is_byte (48 + type)); cbn [bindO]; [|now intros [= <-]].
  destruct (is_byte node); cbn [bindO]; [|now intros [= <-]].
  destruct (is_byte obj); cbn [bindO]; [|now intros [= <-]].
  destruct (len data >? 0).
  - unfold bytearray_extend.
    destruct (forallb is_byte data); cbn [bindO]; [|now intros [= <-]].
    cbn [app]. unfold bytearray_iadd0.
    destruct (is_byte (48 + type + (len data - 1))); cbn [bindO];
      [|now intros [= <-]].
    destruct (is_byte (Z.shiftr _ 8)); cbn [bindO]; [|now intros [= <-]].
    rewrite land255_byte. discriminate.
  - cbn [bindO].
    destruct (is_byte (Z.shiftr _ 8)); cbn [bindO]; [|now intros [= <-]].
    rewrite land255_byte. discriminate.
Qed.

End Construct.

(** X1: for the two frame types of the protocol [_construct] returns a
    telegram exactly when node, object and data are bytes and the data
    are no longer than the start delimiter can count, 144 bytes for a
    query and 16 for a send; otherwise it raises [ValueError].  The
    telegram is five bytes longer than the data. *)
Theorem construct_succeeds_iff :
  forall (type node obj : Z) (data : list Z),
    type = PS_QUERY \/ type = PS_SEND ->
    max_data PS_QUERY = 144 /\ max_data PS_SEND = 16 /\
    _construct type node obj data =
    if is_byte node && is_byte obj && forallb is_byte data
       && (len data <=? max_data type)
    then Return (header type node obj data ++
                 [Z.shiftr (byte_sum (header type node obj data)) 8;
                  Z.land (byte_sum (header type node obj data)) 0xFF])
    else Raise ValueError.
Proof.
  intros type node obj data Ht.
  split; [reflexivity|]. split; [reflexivity|].
  assert (Hty : is_byte (48 + type) = true)
    by (destruct Ht; subst; reflexivity).
  assert (Hmax : 16 <= max_data type <= 144 /\ max_data type = 255 - (48 + type) + 1)
    by (destruct Ht; subst; unfold max_data, PS_QUERY, PS_SEND; lia).
  assert (Hbase : 112 <= 48 + type)
    by (destruct Ht; subst; unfold PS_QUERY, PS_SEND; lia).
  pose proof (len_nonneg data) as Hlen.
  destruct (_construct type node obj data) as [telegram|e] eqn:Hc.
  - (* it returned: every condition holds *)
    pose proof (construct_inv _ _ _ _ _ Hc) as [-> Hall].
    revert Hc. unfold _construct, bytearray_append. cbn [app].
    rewrite Hty. cbn [bindO].
    destruct (is_byte node); cbn [bindO]; [|discriminate].
    destruct (is_byte obj); cbn [bindO]; [|discriminate].
    destruct (len data >? 0) eqn:El.
    + unfold bytearray_extend.
      destruct (forallb is_byte data); cbn [bindO]; [|discriminate].
      cbn [app]. unfold bytearray_iadd0.
      destruct (is_byte (48 + type + (len data - 1))) eqn:Hd0; cbn [bindO];
        [|discriminate].
      intros _. apply is_byte_range in Hd0.
      replace (len data <=? max_data type) with true
        by (symmetry; apply Z.leb_le; lia).
      reflexivity.
    + intros _.
      assert (data = []) as ->.
      { destruct data; [reflexivity|]. unfold len in El. simpl length in El.
        rewrite Z.gtb_ltb in El. apply Z.ltb_ge in El. lia. }
      cbn [forallb andb].
      replace (len [] <=? max_data type) with true
        by (symmetry; apply Z.leb_le; unfold len; simpl; lia).
      reflexivity.
  - (* it raised: some condition fails *)
    rewrite (construct_raises_ValueError _ _ _ _ _ Hc).
    destruct (is_byte node && is_byte obj && forallb is_byte data
              && (len data <=? max_data type)) eqn:Hcond; [|reflexivity].
    exfalso.
    apply andb_true_iff in Hcond as [Hcond Hl].
    apply andb_true_iff in Hcond as [Hcond Hd].
    apply andb_true_iff in Hcond as [Hn Ho]. apply Z.leb_le in Hl.
    revert Hc. unfold _construct, bytearray_append. cbn [app].
    rewrite Hty, Hn, Ho. cbn [bindO].
    assert (Hsum : 0 <= byte_sum (header type node obj data) < 65536).
    { apply is_byte_range in Hn, Ho. apply byte_sum_bound in Hd.
      unfold header. cbn [app]. rewrite !byte_sum_cons.
      assert (48 + type <= delimiter type data <= 255).
      { unfold delimiter. destruct (len data >? 0) eqn:E;
          [apply Z.gtb_lt in E|]; lia. }
      lia. }
    unfold header, delimiter in Hsum.
    destruct (len data >? 0) eqn:El; cbn [app] in Hsum.
    + unfold bytearray_extend. rewrite Hd. cbn [bindO app].
      unfold bytearray_iadd0.
      replace (is_byte (48 + type + (len data - 1))) with true
        by (symmetry; apply is_byte_range; apply Z.gtb_lt in El; lia).
      cbn [bindO]. rewrite (shiftr8_byte _ Hsum). cbn [bindO].
      rewrite land255_byte. discriminate.
    + assert (data = []) as ->.
      { destruct data; [reflexivity|]. unfold len in El. simpl length in El.
        rewrite Z.gtb_ltb in El. apply Z.ltb_ge in El. lia. }
      cbn [bindO app]. rewrite (shiftr8_byte _ Hsum). cbn [bindO].
      rewrite land255_byte. discriminate.
Qed.

Lemma construct_succeeds_iff_witness :
  _construct PS_SEND 0 50 (repeat 0 17) = Raise ValueError /\
  _construct PS_QUERY 0 50 (repeat 0 17) =
    Return ([0x80; 0; 50] ++ repeat 0 17 ++ [0; 0xB2]).
Proof.
  split.
  - exact (proj2 (proj2 (construct_succeeds_iff PS_SEND 0 50 (repeat 0 17)
                           (or_intror eq_refl)))).
  - exact (proj2 (proj2 (construct_succeeds_iff PS_QUERY 0 50 (repeat 0 17)
                           (or_introl eq_refl)))).
Defined.

(** X2: a telegram determines the arguments it was built from: two
    calls of [_construct] that return the same bytes had the same frame
    type, node, object and data. *)
Theorem construct_injective :
  forall (type node obj type' node' obj' : Z) (data data' telegram : list Z),
    _construct type node obj data = Return telegram ->
    _construct type' node' obj' data' = Return telegram ->
    type = type' /\ node = node' /\ obj = obj' /\ data = data'.
Proof.
  intros type node obj type' node' obj' data data' telegram H H'.
  apply construct_inv in H as [H _]. apply construct_inv in H' as [H' _].
  rewrite H in H'. unfold header in H'. cbn [app] in H'.
  injection H' as Hdel Hn Ho Hrest.
  assert (Hlen : length data = length data').
  { apply (f_equal (@length Z)) in Hrest. rewrite !length_app in Hrest.
    simpl in Hrest. lia. }
  assert (Hd : data = data').
  { apply (f_equal (firstn (length data))) in Hrest.
    rewrite firstn_app, Nat.sub_diag, firstn_all in Hrest.
    rewrite Hlen, firstn_app, Nat.sub_diag, firstn_all in Hrest.
    cbn [firstn] in Hrest. now rewrite !app_nil_r in Hrest. }
  subst data'. repeat split; try assumption.
  unfold delimiter in Hdel. destruct (len data >? 0); lia.
Qed.

Lemma construct_injective_witness :
  PS_SEND = PS_SEND /\ 0 = 0 /\ 54 = 54 /\ [0x10; 0x10] = [0x10; 0x10].
Proof.
  exact (construct_injective PS_SEND 0 54 PS_SEND 0 54 [0x10; 0x10] [0x10; 0x10]
           [0xF1; 0; 54; 0x10; 0x10; 1; 0x47] eq_refl eq_refl).
Defined.

(** ** What the checks let through *)

Section Checks.

Lemma split_sum_inj (a b : Z) :
  0 <= a -> 0 <= b ->
  Z.shiftr a 8 = Z.shiftr b 8 -> Z.land a 0xFF = Z.land b 0xFF -> a = b.
Proof.
  intros Ha Hb Hs Hl. rewrite !Z.shiftr_div_pow2 in Hs by lia.
  change 0xFF with (Z.ones 8) in Hl. rewrite !Z.land_ones in Hl by lia.
  change (2 ^ 8) with 256 in *.
  pose proof (Z.div_mod a 256). pose proof (Z.div_mod b 256). lia.
Qed.

Lemma check_checksum_rejects (pre : list Z) (hi lo : Z) (w : world) :
  hi <> Z.shiftr (byte_sum pre) 8 \/ lo <> Z.land (byte_sum pre) 0xFF ->
  _check_checksum (pre ++ [hi; lo]) w =
  (Raise (SystemExit 1), emit ("ERROR: checksum mismatch" ++ nl) w).
Proof.
  intros H. rewrite check_checksum_cases
    by (rewrite len_app; pose proof (len_nonneg pre); change (len [hi; lo]) with 2; lia).
  unfold checksum_ok.
  rewrite slice_all_but_two, getitem_last_but_one, getitem_last.
  destruct (hi =? Z.shiftr (byte_sum pre) 8) eqn:E1;
    destruct (lo =? Z.land (byte_sum pre) 255) eqn:E2; try reflexivity.
  apply Z.eqb_eq in E1, E2. tauto.
Qed.

End Checks.

(** X3: the checksum catches every change of a single byte.  Take a
    frame of bytes whose last two bytes are the split sum of the rest;
    replace one byte of the body, or one of the two checksum bytes, by
    a different byte: [_check_checksum] prints the mismatch and exits. *)
Theorem check_checksum_detects_one_byte :
  forall (l1 l2 : list Z) (b b' : Z) (w : world),
    forallb is_byte (l1 ++ [b] ++ l2) = true ->
    is_byte b' = true ->
    b' <> b ->
    let pre := l1 ++ [b] ++ l2 in
    let hi := Z.shiftr (byte_sum pre) 8 in
    let lo := Z.land (byte_sum pre) 0xFF in
    let mismatch := (Raise (SystemExit 1),
                     emit ("ERROR: checksum mismatch" ++ nl) w) in
    _check_checksum (pre ++ [hi; lo]) w = (Return true, w) /\
    _check_checksum ((l1 ++ [b'] ++ l2) ++ [hi; lo]) w = mismatch /\
    (b' <> hi -> _check_checksum (pre ++ [b'; lo]) w = mismatch) /\
    (b' <> lo -> _check_checksum (pre ++ [hi; b']) w = mismatch).
Proof.
  intros l1 l2 b b' w Hpre Hb' Hne pre hi lo mismatch.
  split; [apply check_checksum_accepts|].
  split; [|split; intros H; apply check_checksum_rejects; tauto].
  apply check_checksum_rejects.
  assert (Hsum : byte_sum (l1 ++ [b'] ++ l2) = byte_sum pre + (b' - b)).
  { unfold pre. rewrite !byte_sum_app, !byte_sum_cons. lia. }
  assert (H0 : 0 <= byte_sum pre) by (apply byte_sum_bound, Hpre).
  assert (H1 : 0 <= byte_sum (l1 ++ [b'] ++ l2)).
  { apply byte_sum_bound. unfold pre in Hpre.
    rewrite !forallb_app in Hpre |- *. cbn [forallb] in Hpre |- *.
    apply andb_true_iff in Hpre as [Hl1 Hpre].
    apply andb_true_iff in Hpre as [_ Hl2].
    now rewrite Hl1, Hb', Hl2. }
  destruct (Z.eq_dec hi (Z.shiftr (byte_sum (l1 ++ [b'] ++ l2)) 8)) as [E1|E1];
    [|now left].
  right. intros E2.
  pose proof (split_sum_inj _ _ H0 H1 E1 E2). lia.
Qed.

Lemma check_checksum_detects_one_byte_witness :
  let w := mkWorld "" true [] [] in
  _check_checksum [0x80; 0x00; 0xFF; 0x00; 0x01; 0x7F] w = (Return true, w) /\
  _check_checksum [0x80; 0x01; 0xFF; 0x00; 0x01; 0x7F] w =
    (Raise (SystemExit 1), emit ("ERROR: checksum mismatch" ++ nl) w).
Proof.
  intros w.
  pose proof (check_checksum_detects_one_byte [0x80] [0xFF; 0x00] 0x00 0x01 w
                eq_refl eq_refl ltac:(discriminate)) as (H1 & H2 & _).
  split; [exact H1 | exact H2].
Defined.

(** X4: [_check_error] never returns [True].  On an answer of at least
    four bytes it returns [False], leaving the world as it is, exactly
    when byte 2 is not the marker 0xFF or byte 3 is the code 0x00; in
    every other case it exits. *)
Theorem check_error_returns_false_only :
  forall (ans : list Z) (w : world),
    4 <= len ans ->
    (forall (r : bool) (w' : world),
       _check_error ans w = (Return r, w') -> r = false /\ w' = w) /\
    (_check_error ans w = (Return false, w) <->
     nth 2 ans 0 <> 0xFF \/ nth 3 ans 0 = 0x00) /\
    (fst (_check_error ans w) = Raise (SystemExit 1) <->
     nth 2 ans 0 = 0xFF /\ nth 3 ans 0 <> 0x00).
Proof.
  intros ans w Hlen.
  destruct (check_error_cases ans w Hlen) as [out Hout].
  assert (Hfree : error_free ans = true <->
                  nth 2 ans 0 <> 0xFF \/ nth 3 ans 0 = 0x00).
  { unfold error_free.
    rewrite (getitem_in_range ans 2), (getitem_in_range ans 3) by lia.
    change (Z.to_nat 2) with 2%nat. change (Z.to_nat 3) with 3%nat.
    destruct (nth 2 ans 0 =? 0xFF) eqn:E2.
    - apply Z.eqb_eq in E2. rewrite Z.eqb_eq. intuition lia.
    - apply Z.eqb_neq in E2. intuition lia. }
  destruct (error_free ans) eqn:Ef; rewrite Hout.
  - split; [intros r w' [= <- <-]; auto|]. split.
    + split; [intros _; now apply Hfree | reflexivity].
    + cbn [fst]. split; [discriminate|].
      intros [H2 H3]. destruct (proj1 Hfree eq_refl); tauto.
  - split; [discriminate|]. split.
    + split; [discriminate|]. intros H. apply Hfree in H. discriminate H.
    + cbn [fst]. split; [|reflexivity]. intros _.
      destruct (Z.eq_dec (nth 2 ans 0) 0xFF) as [E2|E2];
        destruct (Z.eq_dec (nth 3 ans 0) 0x00) as [E3|E3];
        try (split; assumption);
        exfalso; assert (false = true) by (apply Hfree; tauto);
        discriminate.
Qed.

Lemma check_error_returns_false_only_witness :
  let w := mkWorld "" true [] [] in
  _check_error [0x80; 0x00; 0x32; 0xFF; 0x12; 0x01; 0xF5] w = (Return false, w).
Proof.
  intros w.
  apply (proj1 (proj2 (check_error_returns_false_only
                         [0x80; 0x00; 0x32; 0xFF; 0x12; 0x01; 0xF5] w
                         ltac:(unfold len; simpl; lia)))).
  left. discriminate.
Defined.

(** ** What a transfer returns, and when nothing is sent *)

Section TransferSound.

Lemma split_last_two (l : list Z) :
  2 <= len l -> exists (pre : list Z) (a b : Z), l = pre ++ [a; b].
Proof.
  intros H. destruct (exists_last (l := l)) as (l' & b & ->).
  { intros ->. unfold len in H. simpl in H. lia. }
  rewrite len_app in H. change (len [b]) with 1 in H.
  destruct (exists_last (l := l')) as (pre & a & ->).
  { intros ->. unfold len in H. simpl in H. lia. }
  exists pre, a, b. now rewrite <- app_assoc.
Qed.

Lemma checksum_ok_split (ans : list Z) :
  2 <= len ans -> checksum_ok ans = true ->
  exists pre : list Z,
    ans = pre ++ [Z.shiftr (byte_sum pre) 8; Z.land (byte_sum pre) 0xFF].
Proof.
  intros Hl Hc. destruct (split_last_two ans Hl) as (pre & a & b & ->).
  exists pre. revert Hc. unfold checksum_ok.
  rewrite slice_all_but_two, getitem_last_but_one, getitem_last.
  intros Hc. apply andb_true_iff in Hc as [Ha Hb].
  apply Z.eqb_eq in Ha, Hb. now subst.
Qed.

Lemma error_free_bytes (ans : list Z) :
  4 <= len ans -> error_free ans = true ->
  nth 2 ans 0 <> 0xFF \/ nth 3 ans 0 = 0x00.
Proof.
  intros Hl. unfold error_free.
  rewrite (getitem_in_range ans 2), (getitem_in_range ans 3) by lia.
  change (Z.to_nat 2) with 2%nat. change (Z.to_nat 3) with 3%nat.
  destruct (nth 2 ans 0 =? 0xFF) eqn:E2.
  - rewrite Z.eqb_eq. auto.
  - apply Z.eqb_neq in E2. auto.
Qed.

Variable self : ps2000.

Lemma transfer_bad_arguments (type node obj : Z) (data : list Z) (e : exn)
      (w : world) :
  _construct type node obj data = Raise e ->
  _transfer self type node obj data w = (Raise e, w).
Proof. intros Hc. unfold _transfer, bind, lift. now rewrite Hc. Qed.

End TransferSound.

(** X5: an answer that [_transfer] returns has been checked.  It is
    what the one [read(100)] delivered after the one [write] of the
    telegram, it has at least five bytes, its last two bytes are the
    split sum of the bytes before them, and it carries no error code;
    the port is still open. *)
Theorem transfer_returns_checked_answer :
  forall (self : ps2000) (type node obj : Z) (data ans : list Z)
         (w w' : world),
    _transfer self type node obj data w = (Return ans, w') ->
    exists telegram pre : list Z,
      _construct type node obj data = Return telegram /\
      ans = peek_read 100 w /\
      5 <= len ans /\
      ans = pre ++ [Z.shiftr (byte_sum pre) 8; Z.land (byte_sum pre) 0xFF] /\
      (nth 2 ans 0 <> 0xFF \/ nth 3 ans 0 = 0x00) /\
      trace w' = trace w ++ [EvWrite telegram; EvRead 100 ans] /\
      incoming w' = after_read 100 w /\
      is_open w' = true.
Proof.
  intros self type node obj data ans w w' H.
  destruct (_construct type node obj data) as [telegram|e] eqn:Hc.
  2:{ rewrite (transfer_bad_arguments self _ _ _ _ _ w Hc) in H. discriminate. }
  destruct (is_open w) eqn:Ho.
  2:{ rewrite (transfer_closed_port self _ _ _ _ _ w Hc Ho) in H. discriminate. }
  destruct (transfer_cases self _ _ _ _ _ w Hc Ho) as [out Hout].
  rewrite Hout in H.
  destruct (accepted (peek_read 100 w)) eqn:Ha; [|discriminate].
  injection H as <- <-.
  pose proof (accepted_length _ Ha) as Hl.
  unfold accepted in Ha. apply andb_true_iff in Ha as [Ha He].
  apply andb_true_iff in Ha as [_ Hk].
  destruct (checksum_ok_split (peek_read 100 w) ltac:(lia) Hk) as [pre Hpre].
  exists telegram, pre. repeat split; try assumption; try reflexivity.
  apply error_free_bytes; [lia | exact He].
Qed.

Lemma transfer_returns_checked_answer_witness :
  let w := mkWorld "" true [[0x80; 0x00; 0xFF; 0x00; 0x01; 0x7F]] [] in
  exists telegram pre : list Z,
    _construct PS_QUERY 0 2 [] = Return telegram /\
    [0x80; 0x00; 0xFF; 0x00; 0x01; 0x7F] = peek_read 100 w /\
    5 <= len [0x80; 0x00; 0xFF; 0x00; 0x01; 0x7F] /\
    [0x80; 0x00; 0xFF; 0x00; 0x01; 0x7F] =
      pre ++ [Z.shiftr (byte_sum pre) 8; Z.land (byte_sum pre) 0xFF] /\
    (nth 2 [0x80; 0x00; 0xFF; 0x00; 0x01; 0x7F] 0 <> 0xFF \/
     nth 3 [0x80; 0x00; 0xFF; 0x00; 0x01; 0x7F] 0 = 0x00) /\
    trace (snd (_transfer (mk_ps2000 false 24 10 false) PS_QUERY 0 2 [] w)) =
      trace w ++ [EvWrite telegram;
                  EvRead 100 [0x80; 0x00; 0xFF; 0x00; 0x01; 0x7F]] /\
    incoming (snd (_transfer (mk_ps2000 false 24 10 false) PS_QUERY 0 2 [] w)) =
      after_read 100 w /\
    is_open (snd (_transfer (mk_ps2000 false 24 10 false) PS_QUERY 0 2 [] w)) = true.
Proof.
  intros w.
  exact (transfer_returns_checked_answer (mk_ps2000 false 24 10 false)
           PS_QUERY 0 2 [] [0x80; 0x00; 0xFF; 0x00; 0x01; 0x7F] w _ eq_refl).
Defined.

(** X6: nothing reaches the device when the arguments do not make a
    telegram or the port is closed.  [_transfer] then raises
    [ValueError] in a world it has not touched, or [SerialException]
    after at most the verbose dump of the telegram; no write and no
    read is made. *)
Theorem transfer_sends_nothing_on_failure :
  forall (self : ps2000) (type node obj : Z) (data : list Z) (w : world),
    (forall e : exn,
       _construct type node obj data = Raise e ->
       e = ValueError /\
       _transfer self type node obj data w = (Raise ValueError, w)) /\
    (forall telegram : list Z,
       _construct type node obj data = Return telegram ->
       is_open w = false ->
       fst (_transfer self type node obj data w) = Raise SerialException /\
       trace (snd (_transfer self type node obj data w)) = trace w /\
       incoming (snd (_transfer self type node obj data w)) = incoming w).
Proof.
  intros self type node obj data w. split.
  - intros e Hc. pose proof (construct_raises_ValueError _ _ _ _ _ Hc) as ->.
    split; [reflexivity | now apply transfer_bad_arguments].
  - intros telegram Hc Ho.
    rewrite (transfer_closed_port self _ _ _ _ _ w Hc Ho). repeat split.
Qed.

Lemma transfer_sends_nothing_on_failure_witness :
  let self := mk_ps2000 true 24 10 false in
  let w := mkWorld "" false [[0x80; 0x00; 0xFF; 0x00; 0x01; 0x7F]] [] in
  _transfer self PS_SEND 0 300 [] w = (Raise ValueError, w) /\
  fst (_transfer self PS_QUERY 0 2 [] w) = Raise SerialException /\
  trace (snd (_transfer self PS_QUERY 0 2 [] w)) = trace w /\
  incoming (snd (_transfer self PS_QUERY 0 2 [] w)) = incoming w.
Proof.
  intros self w.
  pose proof (transfer_sends_nothing_on_failure self PS_SEND 0 300 [] w) as [H1 _].
  pose proof (transfer_sends_nothing_on_failure self PS_QUERY 0 2 [] w) as [_ H2].
  split; [exact (proj2 (H1 ValueError eq_refl)) | exact (H2 _ eq_refl eq_refl)].
Defined.

(** ** Integer objects *)

Section IntegerObjects.

Lemma shiftr8_range (d : Z) :
  0 <= Z.shiftr d 8 < 256 <-> 0 <= d < 65536.
Proof.
  rewrite Z.shiftr_div_pow2 by lia. change (2 ^ 8) with 256.
  pose proof (Z.div_mod d 256 ltac:(lia)).
  pose proof (Z.mod_pos_bound d 256 ltac:(lia)). lia.
Qed.

Lemma split_join (d : Z) :
  0 <= d -> Z.shiftl (Z.shiftr d 8) 8 + Z.land d 0xFF = d.
Proof.
  intros Hd. rewrite Z.shiftl_mul_pow2, Z.shiftr_div_pow2 by lia.
  change 0xFF with (Z.ones 8). rewrite Z.land_ones by lia.
  change (2 ^ 8) with 256. pose proof (Z.div_mod d 256 ltac:(lia)). lia.
Qed.

Lemma construct_integer_out_of_range (node obj d : Z) :
  d < 0 \/ 65536 <= d ->
  _construct PS_SEND node obj [Z.shiftr d 8; Z.land d 0xFF] = Raise ValueError.
Proof.
  intros Hd.
  destruct (_construct PS_SEND node obj [Z.shiftr d 8; Z.land d 0xFF])
    as [telegram|e] eqn:Hc.
  - exfalso. apply construct_inv in Hc as [-> Hall].
    unfold header in Hall. cbn [app forallb] in Hall.
    repeat (apply andb_true_iff in Hall as [? Hall]).
    match goal with H : is_byte (Z.shiftr d 8) = true |- _ =>
      apply is_byte_range, shiftr8_range in H; lia end.
  - now rewrite (construct_raises_ValueError _ _ _ _ _ Hc).
Qed.

End IntegerObjects.

(** X7: a value outside 0..65535 is never sent.  [_set_integer] raises
    [ValueError] for it in a world it has not touched, so [set_voltage]
    and [set_current] do the same when the scaled value leaves that
    range, for instance for a negative set point or one above 2.56
    times the nominal value. *)
Theorem set_integer_out_of_range :
  forall (self : ps2000) (obj d node : Z) (w : world),
    d < 0 \/ 65536 <= d ->
    _set_integer self obj (PyInt d) node w = (Raise ValueError, w) /\
    (forall u : pynum,
       scale_to_raw u (u_nom self) = Return d ->
       set_voltage self u node w = (Raise ValueError, w)) /\
    (forall i : pynum,
       scale_to_raw i (i_nom self) = Return d ->
       set_current self i node w = (Raise ValueError, w)).
Proof.
  intros self obj d node w Hd.
  assert (H : forall o, _set_integer self o (PyInt d) node w = (Raise ValueError, w)).
  { intros o. unfold _set_integer.
    run (rewrite (transfer_bad_arguments self _ _ _ _ ValueError w
                    (construct_integer_out_of_range node o d Hd))).
    reflexivity. }
  split; [apply H|]. split.
  - intros u Hu. unfold set_voltage. run (unfold lift; rewrite Hu). apply H.
  - intros i Hi. unfold set_current. run (unfold lift; rewrite Hi). apply H.
Qed.

Lemma set_integer_out_of_range_witness :
  let self := mk_ps2000 false 24 10 false in
  let w := mkWorld "" true [[0x80; 0x00; 0xFF; 0x00; 0x01; 0x7F]] [] in
  set_voltage self (PyFloat 100) 0 w = (Raise ValueError, w) /\
  set_current self (PyFloat (-1)) 0 w = (Raise ValueError, w).
Proof.
  intros self w. split.
  - refine (proj1 (proj2 (set_integer_out_of_range self 50 106667 0 w _))
              (PyFloat 100) eq_refl).
    lia.
  - refine (proj2 (proj2 (set_integer_out_of_range self 51 (-2560) 0 w _))
              (PyFloat (-1)) eq_refl).
    lia.
Defined.

(** X8: [_set_integer] sends a value in 0..65535 as two data bytes,
    high byte first: the telegram it writes is the start delimiter
    0xF1, node, object, [d >> 8], [d & 0xFF] and the checksum of these
    five bytes.  The two bytes are read back as that value: an
    accepted answer that carries them in bytes 3 and 4 makes
    [_get_integer] and [_set_integer] return [d]. *)
Theorem integer_bytes_roundtrip :
  forall (self : ps2000) (obj node d : Z) (w : world),
    is_byte node = true -> is_byte obj = true ->
    0 <= d < 65536 ->
    is_open w = true ->
    let frame := [0xF1; node; obj; Z.shiftr d 8; Z.land d 0xFF] in
    trace (snd (_set_integer self obj (PyInt d) node w)) =
      trace w ++
      [EvWrite (frame ++ [Z.shiftr (byte_sum frame) 8;
                          Z.land (byte_sum frame) 0xFF]);
       EvRead 100 (peek_read 100 w)] /\
    (0 <= Z.shiftr d 8 < 256 /\ 0 <= Z.land d 0xFF < 256 /\
     Z.shiftl (Z.shiftr d 8) 8 + Z.land d 0xFF = d) /\
    forall sd dn ob hi lo : Z,
      peek_read 100 w = [sd; dn; ob; Z.shiftr d 8; Z.land d 0xFF; hi; lo] ->
      accepted (peek_read 100 w) = true ->
      fst (_get_integer self obj node w) = Return d /\
      fst (_set_integer self obj (PyInt d) node w) = Return d.
Proof.
  intros self obj node d w Hn Hobj Hd Ho frame.
  destruct (get_integer_cases self obj node _ w (construct_query node obj Hn Hobj) Ho)
    as [out1 H1].
  destruct (set_integer_cases self obj d node w Hn Hobj Hd Ho) as [out2 H2].
  split; [rewrite H2; reflexivity|]. split.
  - split; [apply is_byte_range, shiftr8_byte, Hd|].
    split; [apply is_byte_range, land255_byte|].
    apply split_join; lia.
  - intros sd dn ob hi lo Hp Ha.
    rewrite H1, H2, Ha, Hp. unfold integer_of. cbn [fst nth].
    rewrite split_join by lia. split; reflexivity.
Qed.

Lemma integer_bytes_roundtrip_witness :
  let self := mk_ps2000 false 24 10 false in
  let w := mkWorld "" true [[0x81; 0x00; 0x32; 0x32; 0x00; 0x00; 0xE5]] [] in
  trace (snd (_set_integer self 50 (PyInt 12800) 0 w)) =
    [EvWrite [0xF1; 0x00; 0x32; 0x32; 0x00; 0x01; 0x55];
     EvRead 100 [0x81; 0x00; 0x32; 0x32; 0x00; 0x00; 0xE5]] /\
  fst (_get_integer self 50 0 w) = Return 12800 /\
  fst (_set_integer self 50 (PyInt 12800) 0 w) = Return 12800.
Proof.
  intros self w.
  destruct (integer_bytes_roundtrip self 50 0 12800 w eq_refl eq_refl
              ltac:(lia) eq_refl) as (Ht & _ & Hr).
  split; [exact Ht|].
  exact (Hr 0x81 0x00 0x32 0x00 0xE5 eq_refl eq_refl).
Defined.

(** X9: on the device's acknowledge, the six bytes [sd dn FF 00 hi lo],
    [_set_integer] returns the high checksum byte: bytes 3 and 4 of the
    answer are the code 0x00 and [hi].  That value is 0, 1 or 2, whatever
    was sent. *)
Theorem set_integer_on_acknowledge :
  forall (self : ps2000) (obj d node sd dn hi lo : Z) (w : world),
    is_byte node = true -> is_byte obj = true ->
    0 <= d < 65536 ->
    is_open w = true ->
    is_byte sd = true -> is_byte dn = true ->
    peek_read 100 w = [sd; dn; 0xFF; 0x00; hi; lo] ->
    accepted (peek_read 100 w) = true ->
    fst (_set_integer self obj (PyInt d) node w) = Return hi /\
    hi = Z.shiftr (sd + dn + 0xFF) 8 /\
    (hi = 0 \/ hi = 1 \/ hi = 2).
Proof.
  intros self obj d node sd dn hi lo w Hn Hobj Hd Ho Hsd Hdn Hp Ha.
  destruct (set_integer_cases self obj d node w Hn Hobj Hd Ho) as [out H].
  rewrite H, Ha, Hp. unfold integer_of. cbn [fst nth].
  rewrite Hp in Ha. unfold accepted in Ha.
  apply andb_true_iff in Ha as [Ha _]. apply andb_true_iff in Ha as [_ Hk].
  unfold checksum_ok in Hk.
  change [sd; dn; 0xFF; 0x00; hi; lo] with ([sd; dn; 0xFF; 0x00] ++ [hi; lo]) in Hk.
  rewrite slice_all_but_two, getitem_last_but_one, getitem_last in Hk.
  apply andb_true_iff in Hk as [Hhi _]. apply Z.eqb_eq in Hhi.
  rewrite !byte_sum_cons in Hhi. change (byte_sum []) with 0 in Hhi.
  apply is_byte_range in Hsd, Hdn.
  assert (E : hi = Z.shiftr (sd + dn + 255) 8).
  { rewrite Hhi. f_equal. lia. }
  split; [rewrite Z.shiftl_0_l; reflexivity|]. split; [exact E|].
  rewrite E, Z.shiftr_div_pow2 by lia. change (2 ^ 8) with 256.
  assert (0 <= (sd + dn + 255) / 256 < 3)
    by (split; [apply Z.div_pos | apply Z.div_lt_upper_bound]; lia).
  lia.
Qed.

Lemma set_integer_on_acknowledge_witness :
  let self := mk_ps2000 false 24 10 false in
  let w := mkWorld "" true [[0x80; 0x00; 0xFF; 0x00; 0x01; 0x7F]] [] in
  fst (_set_integer self 50 (PyInt 12800) 0 w) = Return 1 /\
  1 = Z.shiftr (0x80 + 0x00 + 0xFF) 8 /\
  (1 = 0 \/ 1 = 1 \/ 1 = 2).
Proof.
  intros self w.
  refine (set_integer_on_acknowledge self 50 12800 0 0x80 0x00 0x01 0x7F w
            eq_refl eq_refl _ eq_refl eq_refl eq_refl eq_refl eq_refl).
  lia.
Defined.

(** ** Float objects and the scaled values *)

Section FloatObjects.

Lemma slice_payload_length (ans : list Z) :
  5 <= len ans -> len (slice ans 3 (-2)) = len ans - 5.
Proof.
  intros H. unfold slice, clamp_index.
  replace (3 <? 0) with false by reflexivity.
  replace (-2 <? 0) with true by reflexivity.
  replace (Z.max 0 (Z.min (len ans) 3)) with 3 by lia.
  replace (Z.max 0 (Z.min (len ans) (-2 + len ans))) with (len ans - 2) by lia.
  unfold len in *. rewrite length_firstn, length_skipn. lia.
Qed.

Lemma unpack_f_length (b : list Z) :
  (exists x : float, unpack_f b = Return x) <-> len b = 4.
Proof.
  unfold len. split.
  - intros [x H]. destruct b as [|b0 [|b1 [|b2 [|b3 [|]]]]];
      try discriminate H. reflexivity.
  - intros H. destruct b as [|b0 [|b1 [|b2 [|b3 [|]]]]];
      try (simpl in H; lia). cbn [unpack_f]. eexists. reflexivity.
Qed.

Lemma unpack_f_wrong_length (b : list Z) :
  len b <> 4 -> unpack_f b = Raise StructError.
Proof.
  unfold len. intros H. destruct b as [|b0 [|b1 [|b2 [|b3 [|]]]]];
    try reflexivity. simpl in H. lia.
Qed.

Variable self : ps2000.

Lemma get_float_cases (obj node : Z) (telegram : list Z) (w : world) :
  _construct PS_QUERY node obj [] = Return telegram ->
  is_open w = true ->
  exists out : string,
    _get_float self obj node w =
    (if accepted (peek_read 100 w)
     then unpack_f (slice (peek_read 100 w) 3 (-2))
     else Raise (SystemExit 1),
     emit out (exchange telegram w)).
Proof.
  intros Hc Ho. unfold _get_float.
  destruct (transfer_cases self _ _ _ _ _ w Hc Ho) as [out Hout].
  exists out. run (rewrite Hout).
  destruct (accepted (peek_read 100 w)); [|reflexivity].
  unfold lift. now destruct (unpack_f _).
Qed.

End FloatObjects.

(** X10: [_get_float], and with it the three getters of the nominal
    values, returns a number exactly when the accepted answer has nine
    bytes, that is four bytes of payload; an accepted answer of any
    other length raises [struct.error] after the transfer. *)
Theorem get_float_needs_four_bytes :
  forall (self : ps2000) (obj node : Z) (w : world),
    is_byte node = true -> is_byte obj = true ->
    is_open w = true ->
    accepted (peek_read 100 w) = true ->
    (len (peek_read 100 w) = 9 <->
     exists x : float, fst (_get_float self obj node w) = Return x) /\
    (len (peek_read 100 w) <> 9 ->
     fst (_get_float self obj node w) = Raise StructError /\
     fst (get_nominal_voltage self node w) = Raise StructError /\
     fst (get_nominal_current self node w) = Raise StructError /\
     fst (get_nominal_power self node w) = Raise StructError).
Proof.
  intros self obj node w Hn Hobj Ho Ha.
  pose proof (accepted_length _ Ha) as Hl.
  pose proof (slice_payload_length _ Hl) as Hs.
  assert (Hg : forall o, is_byte o = true ->
               fst (_get_float self o node w) =
               unpack_f (slice (peek_read 100 w) 3 (-2))).
  { intros o Hob.
    destruct (get_float_cases self o node _ w (construct_query node o Hn Hob) Ho)
      as [out H].
    now rewrite H, Ha. }
  split.
  - rewrite (Hg obj Hobj), unpack_f_length. lia.
  - intros H9.
    unfold get_nominal_voltage, get_nominal_current, get_nominal_power.
    rewrite (Hg obj Hobj), (Hg 2 eq_refl), (Hg 3 eq_refl), (Hg 4 eq_refl).
    rewrite unpack_f_wrong_length by lia. auto.
Qed.

Lemma get_float_needs_four_bytes_witness :
  let self := mk_ps2000 false 0 0 false in
  fst (get_nominal_voltage self 0
         (mkWorld "" true [[0x80; 0x00; 0xFF; 0x00; 0x01; 0x7F]] [])) =
    Raise StructError /\
  exists x : float,
    fst (_get_float self 2 0
           (mkWorld "" true [[0x83; 0x00; 0x02; 0x41; 0xC0; 0x00; 0x00; 0x01; 0x86]] []))
    = Return x.
Proof.
  intros self. split.
  - refine (proj1 (proj2 (proj2 (get_float_needs_four_bytes self 2 0
              (mkWorld "" true [[0x80; 0x00; 0xFF; 0x00; 0x01; 0x7F]] [])
              eq_refl eq_refl eq_refl eq_refl) _))).
    unfold len. simpl. lia.
  - apply (proj1 (get_float_needs_four_bytes self 2 0
              (mkWorld "" true [[0x83; 0x00; 0x02; 0x41; 0xC0; 0x00; 0x00; 0x01; 0x86]] [])
              eq_refl eq_refl eq_refl eq_refl)).
    reflexivity.
Defined.

Section ScaledValues.

Lemma float_of_int_small (z : Z) :
  0 <= z < 2 ^ 53 -> exists f : float, float_of_int z = Return f.
Proof.
  intros Hz. destruct z as [|p|p]; [eexists; reflexivity| |lia].
  assert (Hd : Zpos (digits2_pos p) <= 53).
  { pose proof (digits2_bounds p) as [Blo _].
    destruct (Z_le_gt_dec (Zpos (digits2_pos p)) 53) as [H|H]; [exact H|].
    assert (2 ^ 53 <= 2 ^ (Zpos (digits2_pos p) - 1))
      by (apply Z.pow_le_mono_r; lia).
    lia. }
  destruct (normalize_exact false p 0 Hd ltac:(lia)) as (m & Hn & _).
  cbn [cond_Zopp] in Hn. unfold float_of_int. rewrite Hn.
  eexists. reflexivity.
Qed.

Lemma scale_to_physical_total (nominal : float) (raw : Z) :
  0 <= raw < 65536 ->
  exists x : float, scale_to_physical nominal raw = Return x.
Proof.
  intros Hr.
  destruct (float_of_int_small raw ltac:(change (2 ^ 53) with 9007199254740992; lia))
    as [fr Hfr].
  destruct (float_of_int_normal 25600 ltac:(lia)) as (c & Hc & Nc & _).
  unfold scale_to_physical, float_mul, float_truediv.
  cbn [to_float bindO]. rewrite Hfr. cbn [bindO]. rewrite Hc. cbn [bindO].
  rewrite (normal_pos_nonzero c _ _ Nc). eexists. reflexivity.
Qed.

Lemma integer_of_range (ans : list Z) :
  forallb is_byte ans = true -> 5 <= len ans -> 0 <= integer_of ans < 65536.
Proof.
  intros Hb Hl. unfold integer_of.
  assert (H : forall i, (i < length ans)%nat -> 0 <= nth i ans 0 < 256).
  { intros i Hi. apply is_byte_range.
    rewrite forallb_forall in Hb. apply Hb, nth_In, Hi. }
  unfold len in Hl.
  pose proof (H 3%nat ltac:(lia)). pose proof (H 4%nat ltac:(lia)).
  rewrite Z.shiftl_mul_pow2 by lia. change (2 ^ 8) with 256. lia.
Qed.

End ScaledValues.

(** X11: the scaled getters never fail in the arithmetic.  Whatever the
    nominal values are, zero, infinite or not a number included, each
    of them returns a float for every accepted answer made of bytes;
    only the setters divide by the nominal value. *)
Theorem scaled_getters_return :
  forall (self : ps2000) (node : Z) (w : world),
    is_byte node = true ->
    is_open w = true ->
    accepted (peek_read 100 w) = true ->
    forallb is_byte (peek_read 100 w) = true ->
    (exists x, fst (get_OVP_threshold self node w) = Return x) /\
    (exists x, fst (get_OCP_threshold self node w) = Return x) /\
    (exists x, fst (get_voltage_setpoint self node w) = Return x) /\
    (exists x, fst (get_current_setpoint self node w) = Return x).
Proof.
  intros self node w Hn Ho Ha Hb.
  pose proof (integer_of_range _ Hb (accepted_length _ Ha)) as Hr.
  assert (H : forall nominal obj nd, is_byte nd = true -> is_byte obj = true ->
            exists x,
              fst ((do v <- _get_integer self obj nd;
                    lift (scale_to_physical nominal v)) w) = Return x).
  { intros nominal obj nd Hnd Hobj.
    destruct (scaled_getter_cases self nominal obj nd _ w
                (construct_query nd obj Hnd Hobj) Ho) as [out H].
    rewrite H, Ha. cbn [fst]. apply scale_to_physical_total, Hr. }
  unfold get_OVP_threshold, get_OCP_threshold, get_voltage_setpoint,
    get_current_setpoint.
  repeat split; apply H; auto.
Qed.

Lemma scaled_getters_return_witness :
  let self := mk_ps2000 false 0 nan false in
  let w := mkWorld "" true [[0x81; 0x00; 0x32; 0x32; 0x00; 0x00; 0xE5]] [] in
  (exists x, fst (get_OVP_threshold self 0 w) = Return x) /\
  (exists x, fst (get_OCP_threshold self 0 w) = Return x) /\
  (exists x, fst (get_voltage_setpoint self 0 w) = Return x) /\
  (exists x, fst (get_current_setpoint self 0 w) = Return x).
Proof.
  intros self w.
  exact (scaled_getters_return self 0 w eq_refl eq_refl eq_refl eq_refl).
Defined.

Section FullScale.

Lemma two_roundings (N C A Q : R) :
  (0 < N)%R -> (0 < C <= 25600)%R ->
  (Rabs (A - C * N) <= eps * (C * N))%R ->
  (Rabs (Q - A / N) <= eps * (A / N))%R ->
  (Rabs (Q - C) < 1 / 2)%R.
Proof.
  intros HN HC HA HQ. pose proof eps_small as He.
  assert (HCN : (0 < C * N)%R) by (apply Rmult_lt_0_compat; lra).
  destruct (rel_factor A _ HCN HA) as (t1 & EA & B1).
  assert (HA0 : (0 < A)%R) by (rewrite EA; apply Rmult_lt_0_compat; lra).
  assert (HAN : (0 < A / N)%R)
    by (apply Rmult_lt_0_compat; [lra | now apply Rinv_0_lt_compat]).
  destruct (rel_factor Q _ HAN HQ) as (t2 & EQ & B2).
  assert (E : Q = (C * (t1 * t2))%R) by (rewrite EQ, EA; field; lra).
  assert (T : ((1 - eps) * (1 - eps) <= t1 * t2 <= (1 + eps) * (1 + eps))%R)
    by (split; apply Rmult_le_compat; lra).
  assert (Tlo : (1 - 3 * eps <= (1 - eps) * (1 - eps))%R) by nra.
  assert (Thi : ((1 + eps) * (1 + eps) <= 1 + 3 * eps)%R) by nra.
  set (P := (t1 * t2)%R) in *.
  rewrite E. replace (C * P - C)%R with (C * (P - 1))%R by ring.
  apply Rabs_def1.
  - apply Rle_lt_trans with (C * (3 * eps))%R.
    + apply Rmult_le_compat_l; lra.
    + apply Rle_lt_trans with (25600 * (3 * eps))%R.
      * apply Rmult_le_compat_r; lra.
      * lra.
  - apply Rlt_le_trans with (C * (- (3 * eps)))%R.
    + apply Rlt_le_trans with (25600 * (- (3 * eps)))%R.
      * lra.
      * replace (25600 * - (3 * eps))%R with (- (25600 * (3 * eps)))%R by ring.
        replace (C * - (3 * eps))%R with (- (C * (3 * eps)))%R by ring.
        apply Ropp_le_contravar. apply Rmult_le_compat_r; lra.
    + apply Rmult_le_compat_l; lra.
Qed.

Lemma scale_full (nominal : float) :
  binary32_positive nominal = true ->
  scale_to_raw (PyFloat nominal) nominal = Return 25600.
Proof.
  intros Hn. pose proof (binary32_positive_normal nominal Hn) as Nn.
  destruct literal_25600 as [Nl Vl].
  destruct (mul_normal nominal 25600 _ _ _ _ Nn Nl ltac:(lia) ltac:(lia))
    as [Na Ea].
  destruct (div_normal (nominal * 25600) nominal _ _ _ _ Na Nn
              ltac:(lia) ltac:(lia)) as [Nq Eq].
  unfold scale_to_raw, float_mul, float_truediv. cbn [to_float bindO].
  rewrite (normal_pos_nonzero nominal _ _ Nn). cbn [bindO].
  rewrite Vl in Ea. pose proof (normal_pos_value _ _ _ Nn) as HN.
  assert (Hq : (Rabs (SF2R (Prim2SF (nominal * 25600 / nominal)) - IZR 25600)
                < 1 / 2)%R).
  { apply (two_roundings (SF2R (Prim2SF nominal)) 25600
             (SF2R (Prim2SF (nominal * 25600)))); try assumption; try lra.
    replace (25600 * SF2R (Prim2SF nominal))%R
      with (SF2R (Prim2SF nominal) * 25600)%R by ring.
    exact Ea. }
  destruct Nq as (mq & eq & Eq' & _ & _).
  unfold py_round. rewrite Eq' in Hq |- *. cbn [SF2R cond_Zopp] in Hq |- *.
  now rewrite (round_half_even_near mq eq 25600 Hq).
Qed.

Lemma scale_zero (nominal : float) :
  binary32_positive nominal = true ->
  scale_to_raw (PyFloat 0) nominal = Return 0 /\
  scale_to_raw (PyInt 0) nominal = Return 0.
Proof.
  intros Hn. pose proof (binary32_positive_normal nominal Hn) as Nn.
  assert (E : scale_to_raw (PyFloat 0) nominal = Return 0).
  { unfold scale_to_raw, float_mul, float_truediv. cbn [to_float bindO].
    rewrite (normal_pos_nonzero nominal _ _ Nn). cbn [bindO].
    assert (Ea : Prim2SF (0 * 25600) = S754_zero false) by reflexivity.
    assert (Eq : exists s, Prim2SF (0 * 25600 / nominal) = S754_zero s).
    { rewrite div_spec, Ea. destruct Nn as (m & e & -> & _).
      eexists. reflexivity. }
    destruct Eq as [s Eq]. unfold py_round. now rewrite Eq. }
  split; [exact E|]. exact E.
Qed.

End FullScale.

(** X12: full scale and zero.  With a nominal value in the positive
    range of binary32, [set_voltage] of the nominal voltage itself sends
    the raw value 25600 and [set_voltage] of zero sends 0; likewise
    [set_current] with the nominal current. *)
Theorem setters_full_scale_and_zero :
  forall (self : ps2000) (node : Z) (w : world),
    (binary32_positive (u_nom self) = true ->
     set_voltage self (PyFloat (u_nom self)) node w =
       _set_integer self 50 (PyInt 25600) node w /\
     set_voltage self (PyFloat 0) node w =
       _set_integer self 50 (PyInt 0) node w) /\
    (binary32_positive (i_nom self) = true ->
     set_current self (PyFloat (i_nom self)) node w =
       _set_integer self 51 (PyInt 25600) node w /\
     set_current self (PyFloat 0) node w =
       _set_integer self 51 (PyInt 0) node w).
Proof.
  intros self node w. split; intros Hn.
  - unfold set_voltage. split.
    + run (unfold lift; rewrite (scale_full _ Hn)). reflexivity.
    + run (unfold lift; rewrite (proj1 (scale_zero _ Hn))). reflexivity.
  - unfold set_current. split.
    + run (unfold lift; rewrite (scale_full _ Hn)). reflexivity.
    + run (unfold lift; rewrite (proj1 (scale_zero _ Hn))). reflexivity.
Qed.

Lemma setters_full_scale_and_zero_witness :
  let self := mk_ps2000 false 42 10 false in
  let w := mkWorld "" true [[0x80; 0x00; 0xFF; 0x00; 0x01; 0x7F]] [] in
  trace (snd (set_voltage self (PyFloat 42) 0 w)) =
    [EvWrite [0xF1; 0x00; 0x32; 0x64; 0x00; 0x01; 0x87];
     EvRead 100 [0x80; 0x00; 0xFF; 0x00; 0x01; 0x7F]] /\
  set_current self (PyFloat 0) 0 w = _set_integer self 51 (PyInt 0) 0 w.
Proof.
  intros self w.
  pose proof (setters_full_scale_and_zero self 0 w) as [Hu Hi].
  split.
  - pose proof (proj1 (Hu eq_refl)) as H.
    change (u_nom self) with 42%float in H. rewrite H. reflexivity.
  - exact (proj2 (Hi eq_refl)).
Defined.

(** ** Control bits read back *)

Section Bits.

Lemma land_pow2 (a k : Z) :
  0 <= k -> negb (Z.land a (2 ^ k) =? 0) = Z.testbit a k.
Proof.
  intros Hk. destruct (Z.testbit a k) eqn:T.
  - apply negb_true_iff, Z.eqb_neq. intros H.
    assert (E : Z.testbit (Z.land a (2 ^ k)) k = true)
      by (rewrite Z.land_spec, T, Z.pow2_bits_true by lia; reflexivity).
    rewrite H, Z.bits_0 in E. discriminate.
  - apply negb_false_iff, Z.eqb_eq. apply Z.bits_inj'. intros n Hn.
    rewrite Z.land_spec, Z.bits_0.
    destruct (Z.eq_dec n k) as [->|Hne].
    + now rewrite T.
    + rewrite (Z.pow2_bits_false k n) by lia. apply andb_false_r.
Qed.

Lemma land_lor_nonzero (a x y : Z) :
  negb (Z.land a (Z.lor x y) =? 0) =
  negb (Z.land a x =? 0) || negb (Z.land a y =? 0).
Proof.
  rewrite Z.land_lor_distr_r.
  destruct (Z.land a x =? 0) eqn:Ex; destruct (Z.land a y =? 0) eqn:Ey;
    cbn [negb orb].
  - apply Z.eqb_eq in Ex, Ey. rewrite Ex, Ey. reflexivity.
  - apply negb_true_iff, Z.eqb_neq. intros H.
    apply Z.lor_eq_0_iff in H as [_ H]. apply Z.eqb_neq in Ey. tauto.
  - apply negb_true_iff, Z.eqb_neq. intros H.
    apply Z.lor_eq_0_iff in H as [H _]. apply Z.eqb_neq in Ex. tauto.
  - apply negb_true_iff, Z.eqb_neq. intros H.
    apply Z.lor_eq_0_iff in H as [H _]. apply Z.eqb_neq in Ex. tauto.
Qed.

Lemma slice_payload_nth (ans : list Z) (i : nat) :
  5 <= len ans -> Z.of_nat i < len ans - 5 ->
  nth i (slice ans 3 (-2)) 0 = nth (3 + i) ans 0.
Proof.
  intros H Hi. unfold slice, clamp_index.
  replace (3 <? 0) with false by reflexivity.
  replace (-2 <? 0) with true by reflexivity.
  replace (Z.max 0 (Z.min (len ans) 3)) with 3 by lia.
  replace (Z.max 0 (Z.min (len ans) (-2 + len ans))) with (len ans - 2) by lia.
  rewrite nth_firstn.
  replace (i <? Z.to_nat (len ans - 2 - 3))%nat with true
    by (symmetry; apply Nat.ltb_lt; lia).
  change (Z.to_nat 3) with 3%nat. apply nth_skipn.
Qed.

Lemma payload_getitem (ans : list Z) (i : Z) :
  5 <= len ans -> 0 <= i ->
  getitem (slice ans 3 (-2)) i =
  if i <? len ans - 5 then Return (nth (3 + Z.to_nat i) ans 0)
  else Raise IndexError.
Proof.
  intros H Hi. pose proof (slice_payload_length ans H) as Hl.
  destruct (i <? len ans - 5) eqn:E.
  - apply Z.ltb_lt in E. rewrite getitem_in_range by lia.
    rewrite slice_payload_nth by lia. reflexivity.
  - apply Z.ltb_ge in E. unfold getitem.
    replace (i <? 0) with false by (symmetry; apply Z.ltb_ge; lia).
    replace (i <? len (slice ans 3 (-2))) with false
      by (symmetry; apply Z.ltb_ge; lia).
    now rewrite andb_false_r.
Qed.

End Bits.

Section ControlRead.

Variable self : ps2000.

Lemma get_binary_cases (obj node : Z) (telegram : list Z) (w : world) :
  _construct PS_QUERY node obj [] = Return telegram ->
  is_open w = true ->
  exists out : string,
    _get_binary self obj node w =
    (if accepted (peek_read 100 w)
     then Return (slice (peek_read 100 w) 3 (-2))
     else Raise (SystemExit 1),
     emit out (exchange telegram w)).
Proof.
  intros Hc Ho. unfold _get_binary.
  destruct (transfer_cases self _ _ _ _ _ w Hc Ho) as [out Hout].
  exists out. run (rewrite Hout).
  destruct (accepted (peek_read 100 w)); reflexivity.
Qed.

End ControlRead.

(** X13: [get_control] reads the two flags from the lowest bit of the
    two payload bytes of object 54: [remote] from the first one, byte 3
    of the answer, and [output_on] from the second one, byte 4.  An
    accepted answer with less than two payload bytes raises
    [IndexError]. *)
Theorem get_control_decodes :
  forall (self : ps2000) (node : Z) (w : world),
    is_byte node = true ->
    is_open w = true ->
    accepted (peek_read 100 w) = true ->
    (7 <= len (peek_read 100 w) ->
     fst (get_control self node w) =
       Return (mk_control (Z.testbit (nth 4 (peek_read 100 w) 0) 0)
                          (Z.testbit (nth 3 (peek_read 100 w) 0) 0)) /\
     fst (get_remote self node w) =
       Return (Z.testbit (nth 3 (peek_read 100 w) 0) 0) /\
     fst (get_output_on self node w) =
       Return (Z.testbit (nth 4 (peek_read 100 w) 0) 0)) /\
    (len (peek_read 100 w) < 7 ->
     fst (get_control self node w) = Raise IndexError /\
     fst (get_remote self node w) = Raise IndexError /\
     fst (get_output_on self node w) = Raise IndexError).
Proof.
  intros self node w Hn Ho Ha.
  pose proof (accepted_length _ Ha) as Hl.
  destruct (get_binary_cases self 54 node _ w (construct_query node 54 Hn eq_refl) Ho)
    as [out Hb].
  rewrite Ha in Hb.
  assert (Hc : fst (get_control self node w) =
               if 1 <? len (peek_read 100 w) - 5
               then Return (mk_control (Z.testbit (nth 4 (peek_read 100 w) 0) 0)
                                       (Z.testbit (nth 3 (peek_read 100 w) 0) 0))
               else Raise IndexError).
  { unfold get_control. run (rewrite Hb).
    run (unfold lift; rewrite payload_getitem by lia).
    destruct (1 <? len (peek_read 100 w) - 5) eqn:E1; [|reflexivity].
    apply Z.ltb_lt in E1.
    run (unfold lift; rewrite payload_getitem by lia).
    replace (0 <? len (peek_read 100 w) - 5) with true
      by (symmetry; apply Z.ltb_lt; lia).
    unfold ret. cbn [fst].
    rewrite <- !(land_pow2 _ 0) by lia. reflexivity. }
  assert (Hr : forall f : control -> bool,
             fst ((do c <- get_control self node; ret (f c)) w) =
             match fst (get_control self node w) with
             | Return c => Return (f c)
             | Raise e => Raise e
             end).
  { intros f. unfold bind, ret.
    destruct (get_control self node w) as [[c|e] w']; reflexivity. }
  unfold get_remote, get_output_on. rewrite !Hr, Hc.
  split; intros H.
  - replace (1 <? len (peek_read 100 w) - 5) with true
      by (symmetry; apply Z.ltb_lt; lia).
    repeat split.
  - replace (1 <? len (peek_read 100 w) - 5) with false
      by (symmetry; apply Z.ltb_ge; lia).
    repeat split.
Qed.

Lemma get_control_decodes_witness :
  let self := mk_ps2000 false 24 10 false in
  fst (get_control self 0
         (mkWorld "" true [[0x81; 0x00; 0x36; 0x01; 0x01; 0x00; 0xB9]] [])) =
    Return (mk_control true true) /\
  fst (get_control self 0
         (mkWorld "" true [[0x80; 0x00; 0xFF; 0x00; 0x01; 0x7F]] [])) =
    Raise IndexError.
Proof.
  intros self. split.
  - refine (proj1 (proj1 (get_control_decodes self 0
              (mkWorld "" true [[0x81; 0x00; 0x36; 0x01; 0x01; 0x00; 0xB9]] [])
              eq_refl eq_refl eq_refl) _)).
    unfold len. simpl. lia.
  - refine (proj1 (proj2 (get_control_decodes self 0
              (mkWorld "" true [[0x80; 0x00; 0xFF; 0x00; 0x01; 0x7F]] [])
              eq_refl eq_refl eq_refl) _)).
    unfold len. simpl. lia.
Defined.

(** X14: [set_local] and [set_output_off] are the setters with the flag
    inverted.  On an open port they write the telegram of object 54
    with mask 0x10, respectively 0x01, and the masked bit cleared when
    the argument is [True], set when it is [False]; the result is that
    of the acknowledge test on the answer, and an answer that is not
    accepted ends the program with status 1. *)
Theorem inverted_control_setters :
  forall (self : ps2000) (flag : bool) (node : Z) (w : world),
    is_byte node = true ->
    is_open w = true ->
    exists out1 out2 : string,
      set_local self flag node w =
        (if accepted (peek_read 100 w)
         then acknowledged (slice (peek_read 100 w) 3 (-2))
         else Raise (SystemExit 1),
         emit out1 (exchange (control_telegram node 0x10
                                (if flag then 0x00 else 0x10)) w)) /\
      set_output_off self flag node w =
        (if accepted (peek_read 100 w)
         then acknowledged (slice (peek_read 100 w) 3 (-2))
         else Raise (SystemExit 1),
         emit out2 (exchange (control_telegram node 0x01
                                (if flag then 0x00 else 0x01)) w)).
Proof.
  intros self flag node w Hn Ho.
  assert (Hd1 : is_byte (if flag then 0x00 else 0x10) = true)
    by (destruct flag; reflexivity).
  assert (Hd2 : is_byte (if flag then 0x00 else 0x01) = true)
    by (destruct flag; reflexivity).
  destruct (set_control_cases self 0x10 (if flag then 0x00 else 0x10) node _ w
              (construct_control node 0x10 _ Hn eq_refl Hd1) Ho) as [out1 H1].
  destruct (set_control_cases self 0x01 (if flag then 0x00 else 0x01) node _ w
              (construct_control node 0x01 _ Hn eq_refl Hd2) Ho) as [out2 H2].
  exists out1, out2. unfold set_local, set_output_off, set_remote, set_output_on.
  destruct flag; cbn [negb]; rewrite H1, H2; split; reflexivity.
Qed.

Lemma inverted_control_setters_witness :
  let self := mk_ps2000 false 24 10 false in
  let w := mkWorld "" true [[0x80; 0x00; 0xFF; 0x00; 0x01; 0x7F]] [] in
  trace (snd (set_output_off self true 0 w)) =
    [EvWrite [0xF1; 0x00; 0x36; 0x01; 0x00; 0x01; 0x28];
     EvRead 100 [0x80; 0x00; 0xFF; 0x00; 0x01; 0x7F]].
Proof.
  intros self w.
  destruct (inverted_control_setters self true 0 w eq_refl eq_refl)
    as (out1 & out2 & _ & H).
  rewrite H. reflexivity.
Defined.

(** ** Device state: objects 71 and 72 *)

(** ["%f" % x]: six decimals, the exact binary value rounded to the
    nearest multiple of 10^-6, ties to even. *)
Definition zfill (width : nat) (s : string) : string :=
  String.concat "" (repeat "0" (width - String.length s)) ++ s.

Definition fmt_f (x : float) : string :=
  match Prim2SF x with
  | S754_nan => "nan"
  | S754_infinity s => if s then "-inf" else "inf"
  | S754_zero s => (if s then "-" else "") ++ "0.000000"
  | S754_finite s m e =>
      let n := round_half_even (m * 1000000) e in
      (if s then "-" else "") ++ fmt_d (n / 1000000) ++ "." ++
      zfill 6 (fmt_d (n mod 1000000))
  end.

(** [True if x & mask else False] *)
Definition flag (x mask : Z) : bool := negb (Z.land x mask =? 0).

(** The dict returned by [get_actual]. *)
Module Actual.
Record t := mk {
  remote : bool; local : bool; on : bool; CC : bool; CV : bool;
  OVP : bool; OCP : bool; OPP : bool; OTP : bool;
  v : float; i : float
}.
End Actual.

(** The dict returned by [get_setpoints]. *)
Module Setpoints.
Record t := mk {
  remote : bool; on : bool; CC : bool;
  OVP : bool; OCP : bool; OPP : bool; OTP : bool;
  v : float; i : float
}.
End Setpoints.

Definition print_actual (actual : Actual.t) : M unit :=
  print (if Actual.remote actual then "remote" else "local") ;;
  print (if Actual.on actual then "output on" else "output off") ;;
  print (if Actual.CC actual then "constant current" else "constant voltage") ;;
  print (if Actual.OVP actual then "over-voltage protection active"
         else "over-voltage protection inactive") ;;
  print (if Actual.OCP actual then "over-current protection active"
         else "over-current protection inactive") ;;
  print (if Actual.OPP actual then "over-power protection active"
         else "over-power protection inactive") ;;
  print (if Actual.OTP actual then "over-temperature protection active"
         else "over-temperature protection inactive") ;;
  print ("actual voltage " ++ fmt_f (Actual.v actual) ++ "V") ;;
  print ("actual current " ++ fmt_f (Actual.i actual) ++ "A").

(** object 71 *)
Definition get_actual (self : ps2000) (print_state : bool) (node : Z)
  : M Actual.t :=
  do ans <- _get_binary self 71 node;
  do a0 <- lift (getitem ans 0);
  do a1 <- lift (getitem ans 1);
  do a2 <- lift (getitem ans 2);
  do a3 <- lift (getitem ans 3);
  do v <- lift (scale_to_physical (u_nom self) (Z.shiftl a2 8 + a3));
  do a4 <- lift (getitem ans 4);
  do a5 <- lift (getitem ans 5);
  do i <- lift (scale_to_physical (i_nom self) (Z.shiftl a4 8 + a5));
  let remote := flag a0 0x03 in
  let CC := flag a1 0x06 in
  let actual :=
    Actual.mk remote (negb remote) (flag a1 0x01) CC (negb CC)
              (flag a1 0x10) (flag a1 0x20) (flag a1 0x40) (flag a1 0x80)
              v i in
  (if print_state then print_actual actual else ret tt) ;;
  ret actual.

(** object 72 *)
Definition get_setpoints (self : ps2000) (node : Z) : M Setpoints.t :=
  do ans <- _get_binary self 72 node;
  do a0 <- lift (getitem ans 0);
  do a1 <- lift (getitem ans 1);
  do a2 <- lift (getitem ans 2);
  do a3 <- lift (getitem ans 3);
  do v <- lift (scale_to_physical (u_nom self) (Z.shiftl a2 8 + a3));
  do a4 <- lift (getitem ans 4);
  do a5 <- lift (getitem ans 5);
  do i <- lift (scale_to_physical (i_nom self) (Z.shiftl a4 8 + a5));
  ret (Setpoints.mk (flag a0 0x03) (flag a1 0x01) (flag a1 0x06)
                    (flag a1 0x10) (flag a1 0x20) (flag a1 0x40) (flag a1 0x80)
                    v i).

(** The keys the two dicts share. *)
Definition shared_keys (a : Actual.t) : Setpoints.t :=
  Setpoints.mk (Actual.remote a) (Actual.on a) (Actual.CC a)
               (Actual.OVP a) (Actual.OCP a) (Actual.OPP a) (Actual.OTP a)
               (Actual.v a) (Actual.i a).

(** The decoding both methods apply to the payload. *)
Definition decode_state (self : ps2000) (payload : list Z) : outcome Actual.t :=
  try! a0 <- getitem payload 0;
  try! a1 <- getitem payload 1;
  try! a2 <- getitem payload 2;
  try! a3 <- getitem payload 3;
  try! v <- scale_to_physical (u_nom self) (Z.shiftl a2 8 + a3);
  try! a4 <- getitem payload 4;
  try! a5 <- getitem payload 5;
  try! i <- scale_to_physical (i_nom self) (Z.shiftl a4 8 + a5);
  Return (Actual.mk (flag a0 0x03) (negb (flag a0 0x03)) (flag a1 0x01)
                    (flag a1 0x06) (negb (flag a1 0x06))
                    (flag a1 0x10) (flag a1 0x20) (flag a1 0x40) (flag a1 0x80)
                    v i).

Example fmt_f_examples :
  fmt_f 12.5 = "12.500000" /\ fmt_f 84 = "84.000000" /\
  fmt_f (-0.5) = "-0.500000" /\ fmt_f 0x1p-21 = "0.000000" /\
  fmt_f 0.0078125 = "0.007812" /\ fmt_f 0.0234375 = "0.023438" /\
  fmt_f (0 / 0) = "nan".
Proof. vm_compute. repeat split. Qed.

Section State.

Variable self : ps2000.

Lemma print_run (s : string) (w : world) :
  print s w = (Return tt, emit (s ++ nl) w).
Proof. reflexivity. Qed.

Lemma print_actual_run (actual : Actual.t) (w : world) :
  exists out : string, print_actual actual w = (Return tt, emit out w).
Proof.
  unfold print_actual.
  repeat (run (rewrite print_run); rewrite ?emit_emit).
  rewrite print_run, emit_emit. eexists. reflexivity.
Qed.

Lemma lift_bind {A B} (o : outcome A) (k : A -> M B) (w : world) :
  (do x <- lift o; k x) w =
  match o with Return x => k x w | Raise e => (Raise e, w) end.
Proof. unfold bind, lift. destruct o; reflexivity. Qed.

Lemma get_actual_cases (print_state : bool) (node : Z) (w : world) :
  is_byte node = true -> is_open w = true ->
  exists out : string,
    get_actual self print_state node w =
    (if accepted (peek_read 100 w)
     then decode_state self (slice (peek_read 100 w) 3 (-2))
     else Raise (SystemExit 1),
     emit out (exchange (query_telegram node 71) w)).
Proof.
  intros Hn Ho.
  destruct (get_binary_cases self 71 node _ w (construct_query node 71 Hn eq_refl) Ho)
    as [out Hb].
  unfold get_actual. run (rewrite Hb).
  destruct (accepted (peek_read 100 w)); [|exists out; reflexivity].
  unfold decode_state.
  set (p := slice (peek_read 100 w) 3 (-2)). clearbody p.
  repeat (rewrite lift_bind;
          match goal with
          | |- context [match ?o with Return _ => _ | Raise _ => _ end] =>
              destruct o; cbn [bindO]; [|exists out; reflexivity]
          end).
  destruct print_state.
  - match goal with
    | |- context [print_actual ?a] =>
        destruct (print_actual_run a (emit out (exchange (query_telegram node 71) w)))
          as [out' Hp]
    end.
    run (rewrite Hp). rewrite emit_emit. eexists. reflexivity.
  - exists out. reflexivity.
Qed.

Lemma get_setpoints_cases (node : Z) (w : world) :
  is_byte node = true -> is_open w = true ->
  exists out : string,
    get_setpoints self node w =
    (if accepted (peek_read 100 w)
     then match decode_state self (slice (peek_read 100 w) 3 (-2)) with
          | Return a => Return (shared_keys a)
          | Raise e => Raise e
          end
     else Raise (SystemExit 1),
     emit out (exchange (query_telegram node 72) w)).
Proof.
  intros Hn Ho.
  destruct (get_binary_cases self 72 node _ w (construct_query node 72 Hn eq_refl) Ho)
    as [out Hb].
  exists out. unfold get_setpoints. run (rewrite Hb).
  destruct (accepted (peek_read 100 w)); [|reflexivity].
  unfold decode_state.
  set (p := slice (peek_read 100 w) 3 (-2)). clearbody p.
  repeat (rewrite lift_bind;
          match goal with
          | |- context [match ?o with Return _ => _ | Raise _ => _ end] =>
              destruct o; cbn [bindO]; [|reflexivity]
          end).
  reflexivity.
Qed.

Lemma nth_byte (l : list Z) (k : nat) :
  forallb is_byte l = true -> (k < length l)%nat -> 0 <= nth k l 0 < 256.
Proof.
  intros Hb Hk. apply is_byte_range.
  rewrite forallb_forall in Hb. apply Hb, nth_In, Hk.
Qed.

Lemma byte_pair_range (a b : Z) :
  0 <= a < 256 -> 0 <= b < 256 -> 0 <= Z.shiftl a 8 + b < 65536.
Proof. intros Ha Hb. rewrite Z.shiftl_mul_pow2 by lia. lia. Qed.

Lemma flag_two_bits (x j k : Z) :
  0 <= j -> 0 <= k ->
  flag x (Z.lor (2 ^ j) (2 ^ k)) = Z.testbit x j || Z.testbit x k.
Proof.
  intros Hj Hk. unfold flag. now rewrite land_lor_nonzero, !land_pow2.
Qed.

Lemma flag_one_bit (x k : Z) : 0 <= k -> flag x (2 ^ k) = Z.testbit x k.
Proof. intros Hk. unfold flag. now apply land_pow2. Qed.

Lemma decode_state_short (ans : list Z) :
  forallb is_byte ans = true -> 5 <= len ans < 11 ->
  decode_state self (slice ans 3 (-2)) = Raise IndexError.
Proof.
  intros Hb Hl. unfold decode_state.
  rewrite !payload_getitem by lia.
  destruct (0 <? len ans - 5) eqn:E0; [|reflexivity]. cbn [bindO].
  destruct (1 <? len ans - 5) eqn:E1; [|reflexivity]. cbn [bindO].
  destruct (2 <? len ans - 5) eqn:E2; [|reflexivity]. cbn [bindO].
  destruct (3 <? len ans - 5) eqn:E3; [|reflexivity]. cbn [bindO].
  apply Z.ltb_lt in E3. unfold len in *.
  destruct (scale_to_physical_total (u_nom self)
              (Z.shiftl (nth (3 + Z.to_nat 2) ans 0) 8 + nth (3 + Z.to_nat 3) ans 0))
    as [x ->].
  { apply byte_pair_range; apply nth_byte; try assumption; lia. }
  cbn [bindO].
  destruct (4 <? Z.of_nat (length ans) - 5) eqn:E4; [|reflexivity]. cbn [bindO].
  destruct (5 <? Z.of_nat (length ans) - 5) eqn:E5; [|reflexivity].
  apply Z.ltb_lt in E5. lia.
Qed.

Lemma decode_state_long (ans : list Z) :
  forallb is_byte ans = true -> 11 <= len ans ->
  exists v i : float,
    scale_to_physical (u_nom self)
      (Z.shiftl (nth 5 ans 0) 8 + nth 6 ans 0) = Return v /\
    scale_to_physical (i_nom self)
      (Z.shiftl (nth 7 ans 0) 8 + nth 8 ans 0) = Return i /\
    decode_state self (slice ans 3 (-2)) =
    Return (Actual.mk
              (Z.testbit (nth 3 ans 0) 0 || Z.testbit (nth 3 ans 0) 1)
              (negb (Z.testbit (nth 3 ans 0) 0 || Z.testbit (nth 3 ans 0) 1))
              (Z.testbit (nth 4 ans 0) 0)
              (Z.testbit (nth 4 ans 0) 1 || Z.testbit (nth 4 ans 0) 2)
              (negb (Z.testbit (nth 4 ans 0) 1 || Z.testbit (nth 4 ans 0) 2))
              (Z.testbit (nth 4 ans 0) 4) (Z.testbit (nth 4 ans 0) 5)
              (Z.testbit (nth 4 ans 0) 6) (Z.testbit (nth 4 ans 0) 7)
              v i).
Proof.
  intros Hb Hl. unfold len in Hl.
  destruct (scale_to_physical_total (u_nom self)
              (Z.shiftl (nth 5 ans 0) 8 + nth 6 ans 0)) as [v Hv].
  { apply byte_pair_range; apply nth_byte; try assumption; lia. }
  destruct (scale_to_physical_total (i_nom self)
              (Z.shiftl (nth 7 ans 0) 8 + nth 8 ans 0)) as [i Hi].
  { apply byte_pair_range; apply nth_byte; try assumption; lia. }
  exists v, i. split; [exact Hv|]. split; [exact Hi|].
  unfold decode_state. rewrite !payload_getitem by (unfold len; lia).
  repeat match goal with
         | |- context [?k <? len ans - 5] =>
             replace (k <? len ans - 5) with true
               by (symmetry; apply Z.ltb_lt; unfold len; lia)
         end.
  cbn [bindO].
  change (3 + Z.to_nat 0)%nat with 3%nat. change (3 + Z.to_nat 1)%nat with 4%nat.
  change (3 + Z.to_nat 2)%nat with 5%nat. change (3 + Z.to_nat 3)%nat with 6%nat.
  change (3 + Z.to_nat 4)%nat with 7%nat. change (3 + Z.to_nat 5)%nat with 8%nat.
  rewrite Hv. cbn [bindO]. rewrite Hi. cbn [bindO].
  change 0x03 with (Z.lor (2 ^ 0) (2 ^ 1)).
  change 0x06 with (Z.lor (2 ^ 1) (2 ^ 2)).
  change 0x01 with (2 ^ 0). change 0x10 with (2 ^ 4). change 0x20 with (2 ^ 5).
  change 0x40 with (2 ^ 6). change 0x80 with (2 ^ 7).
  rewrite !flag_two_bits, !flag_one_bit by lia. reflexivity.
Qed.

End State.

(** X15: [get_actual] queries object 71 and decodes the six payload
    bytes of the answer: [remote] is set when bit 0 or bit 1 of the
    first byte is, [on] is bit 0 of the second byte, [CC] is set when
    its bit 1 or bit 2 is, [OVP], [OCP], [OPP] and [OTP] are its bits 4
    to 7, [local] and [CV] are the negations of [remote] and [CC], and
    [v] and [i] are the next two big-endian byte pairs scaled by the
    nominal values.  With [print_state] the same dict is returned and
    only the standard output differs.  An accepted answer with less
    than six payload bytes raises [IndexError]. *)
Theorem get_actual_decodes :
  forall (self : ps2000) (print_state : bool) (node : Z) (w : world),
    is_byte node = true ->
    is_open w = true ->
    accepted (peek_read 100 w) = true ->
    forallb is_byte (peek_read 100 w) = true ->
    let b := fun k : nat => nth k (peek_read 100 w) 0 in
    (11 <= len (peek_read 100 w) ->
     exists (st : Actual.t) (out : string),
       get_actual self print_state node w =
         (Return st, emit out (exchange (query_telegram node 71) w)) /\
       fst (get_actual self (negb print_state) node w) = Return st /\
       Actual.remote st = Z.testbit (b 3%nat) 0 || Z.testbit (b 3%nat) 1 /\
       Actual.local st = negb (Actual.remote st) /\
       Actual.on st = Z.testbit (b 4%nat) 0 /\
       Actual.CC st = Z.testbit (b 4%nat) 1 || Z.testbit (b 4%nat) 2 /\
       Actual.CV st = negb (Actual.CC st) /\
       Actual.OVP st = Z.testbit (b 4%nat) 4 /\
       Actual.OCP st = Z.testbit (b 4%nat) 5 /\
       Actual.OPP st = Z.testbit (b 4%nat) 6 /\
       Actual.OTP st = Z.testbit (b 4%nat) 7 /\
       scale_to_physical (u_nom self) (Z.shiftl (b 5%nat) 8 + b 6%nat) =
         Return (Actual.v st) /\
       scale_to_physical (i_nom self) (Z.shiftl (b 7%nat) 8 + b 8%nat) =
         Return (Actual.i st)) /\
    (len (peek_read 100 w) < 11 ->
     exists out : string,
       get_actual self print_state node w =
         (Raise IndexError, emit out (exchange (query_telegram node 71) w))).
Proof.
  intros self print_state node w Hn Ho Ha Hb b.
  pose proof (accepted_length _ Ha) as Hl.
  destruct (get_actual_cases self print_state node w Hn Ho) as [out Hg].
  destruct (get_actual_cases self (negb print_state) node w Hn Ho) as [out' Hg'].
  rewrite Ha in Hg, Hg'. split; intros H.
  - destruct (decode_state_long self _ Hb H) as (v & i & Hv & Hi & Hd).
    rewrite Hd in Hg, Hg'. eexists. exists out.
    split; [exact Hg|]. split; [rewrite Hg'; reflexivity|].
    cbn [Actual.remote Actual.local Actual.on Actual.CC Actual.CV Actual.OVP
         Actual.OCP Actual.OPP Actual.OTP Actual.v Actual.i].
    subst b. cbv beta. repeat split; assumption.
  - exists out. rewrite Hg, (decode_state_short self) by (assumption || lia).
    reflexivity.
Qed.

Lemma get_actual_decodes_witness :
  let self := mk_ps2000 false 84 5 false in
  let w := mkWorld "" true
             [[0x85; 0x00; 0x47; 0x01; 0x03; 0x32; 0x00; 0x0C; 0x80; 0x01; 0x8E]]
             [] in
  exists (st : Actual.t) (out : string),
    get_actual self true 0 w =
      (Return st, emit out (exchange (query_telegram 0 71) w)) /\
    Actual.remote st = true /\ Actual.on st = true /\ Actual.CC st = true /\
    Actual.OVP st = false.
Proof.
  intros self w.
  destruct (get_actual_decodes self true 0 w eq_refl eq_refl eq_refl eq_refl)
    as [H _].
  destruct H as (st & out & Hg & _ & Hr & _ & Hon & Hcc & _ & Hovp & _).
  { unfold len. simpl. lia. }
  exists st, out. repeat split; assumption.
Defined.

(** X16: [get_setpoints] queries object 72 and decodes the answer the
    way [get_actual] decodes the answer to object 71: on the same
    answer it returns the dict of [get_actual] without the keys [local]
    and [CV], and fails where [get_actual] fails.  Each of the two
    methods writes one query telegram and reads once. *)
Theorem get_setpoints_agrees_with_get_actual :
  forall (self : ps2000) (print_state : bool) (node : Z) (w : world),
    is_byte node = true ->
    is_open w = true ->
    fst (get_setpoints self node w) =
      match fst (get_actual self print_state node w) with
      | Return a => Return (shared_keys a)
      | Raise e => Raise e
      end /\
    trace (snd (get_setpoints self node w)) =
      trace w ++ [EvWrite (query_telegram node 72);
                  EvRead 100 (peek_read 100 w)] /\
    trace (snd (get_actual self print_state node w)) =
      trace w ++ [EvWrite (query_telegram node 71);
                  EvRead 100 (peek_read 100 w)].
Proof.
  intros self print_state node w Hn Ho.
  destruct (get_actual_cases self print_state node w Hn Ho) as [out Hg].
  destruct (get_setpoints_cases self node w Hn Ho) as [out' Hs].
  rewrite Hg, Hs. cbn [fst snd]. split; [|split; reflexivity].
  destruct (accepted (peek_read 100 w)); reflexivity.
Qed.

Lemma get_setpoints_agrees_with_get_actual_witness :
  let self := mk_ps2000 false 84 5 false in
  let w := mkWorld "" true
             [[0x85; 0x00; 0x47; 0x01; 0x03; 0x32; 0x00; 0x0C; 0x80; 0x01; 0x8E]]
             [] in
  trace (snd (get_setpoints self 0 w)) =
    [EvWrite [0x70; 0x00; 0x48; 0x00; 0xB8];
     EvRead 100 [0x85; 0x00; 0x47; 0x01; 0x03; 0x32; 0x00; 0x0C; 0x80; 0x01; 0x8E]].
Proof.
  intros self w.
  destruct (get_setpoints_agrees_with_get_actual self false 0 w eq_refl eq_refl)
    as (_ & H & _).
  rewrite H. reflexivity.
Defined.

(** ** String-type objects *)

(** [b.decode("ascii")]: a byte above 127 raises [UnicodeDecodeError],
    which is a [ValueError]. *)
Fixpoint decode_ascii (b : list Z) : outcome string :=
  match b with
  | [] => Return ""
  | x :: rest =>
      if (0 <=? x) && (x <? 128) then
        try! s <- decode_ascii rest;
        Return (String (ascii_of_nat (Z.to_nat x)) s)
      else Raise ValueError
  end.

Definition _get_string (self : ps2000) (obj node : Z) : M string :=
  do ans <- _transfer self PS_QUERY node obj [];
  lift (decode_ascii (slice ans 3 (-3))).

(** object 0 *)
Definition get_type (self : ps2000) : M string := _get_string self 0 0.

(** object 1 *)
Definition get_serial (self : ps2000) : M string := _get_string self 1 0.

(** object 6 *)
Definition get_article (self : ps2000) (node : Z) : M string :=
  _get_string self 6 node.

(** object 8 *)
Definition get_manufacturer (self : ps2000) (node : Z) : M string :=
  _get_string self 8 node.

(** object 9 *)
Definition get_version (self : ps2000) (node : Z) : M string :=
  _get_string self 9 node.

(** The bytes of an ASCII text, and the texts that have such bytes. *)
Definition encode_ascii (s : string) : list Z :=
  map (fun c => Z.of_nat (nat_of_ascii c)) (list_ascii_of_string s).

Definition is_ascii (s : string) : bool :=
  forallb (fun c => (nat_of_ascii c <? 128)%nat) (list_ascii_of_string s).

Section Strings.

Variable self : ps2000.

Lemma decode_encode_ascii (s : string) :
  is_ascii s = true -> decode_ascii (encode_ascii s) = Return s.
Proof.
  unfold is_ascii, encode_ascii. induction s as [|c s IH]; [reflexivity|].
  cbn [list_ascii_of_string forallb map decode_ascii]. intros H.
  apply andb_true_iff in H as [Hc Hs]. apply Nat.ltb_lt in Hc.
  replace ((0 <=? Z.of_nat (nat_of_ascii c)) && (Z.of_nat (nat_of_ascii c) <? 128))
    with true
    by (symmetry; apply andb_true_iff; split;
        [apply Z.leb_le | apply Z.ltb_lt]; lia).
  rewrite (IH Hs). cbn [bindO].
  now rewrite Nat2Z.id, ascii_nat_embedding.
Qed.

Lemma decode_ascii_rejects (b : list Z) (x : Z) :
  In x b -> 128 <= x -> decode_ascii b = Raise ValueError.
Proof.
  intros Hin Hx. induction b as [|y b IH]; [destruct Hin|].
  cbn [decode_ascii].
  destruct ((0 <=? y) && (y <? 128)) eqn:E; [|reflexivity].
  destruct Hin as [->|Hin].
  - apply andb_true_iff in E as [_ E]. apply Z.ltb_lt in E. lia.
  - now rewrite (IH Hin).
Qed.

Lemma slice_text (pre mid : list Z) (t hi lo : Z) :
  length pre = 3%nat ->
  slice (pre ++ mid ++ [t; hi; lo]) 3 (-3) = mid.
Proof.
  intros Hp. destruct pre as [|a [|b [|c [|d pre]]]]; try discriminate Hp.
  unfold slice, clamp_index. cbn [app].
  replace (len (a :: b :: c :: mid ++ [t; hi; lo])) with (len mid + 6)
    by (unfold len; cbn [length]; rewrite length_app; cbn [length]; lia).
  pose proof (len_nonneg mid).
  replace (3 <? 0) with false by reflexivity.
  replace (-3 <? 0) with true by reflexivity.
  replace (Z.max 0 (Z.min (len mid + 6) 3)) with 3 by lia.
  replace (Z.max 0 (Z.min (len mid + 6) (-3 + (len mid + 6))))
    with (len mid + 3) by lia.
  replace (len mid + 3 - 3) with (len mid) by lia.
  change (Z.to_nat 3) with 3%nat. cbn [skipn].
  unfold len. rewrite Nat2Z.id, firstn_app, Nat.sub_diag, firstn_all.
  cbn [firstn]. apply app_nil_r.
Qed.

Lemma get_string_cases (obj node : Z) (telegram : list Z) (w : world) :
  _construct PS_QUERY node obj [] = Return telegram ->
  is_open w = true ->
  exists out : string,
    _get_string self obj node w =
    (if accepted (peek_read 100 w)
     then decode_ascii (slice (peek_read 100 w) 3 (-3))
     else Raise (SystemExit 1),
     emit out (exchange telegram w)).
Proof.
  intros Hc Ho. unfold _get_string.
  destruct (transfer_cases self _ _ _ _ _ w Hc Ho) as [out Hout].
  exists out. run (rewrite Hout).
  destruct (accepted (peek_read 100 w)); reflexivity.
Qed.

End Strings.

(** X17: the string getters drop the last payload byte and decode the
    rest as ASCII.  When the accepted answer is three header bytes, the
    bytes of an ASCII text, one more byte and the checksum, each getter
    returns that text, whatever the dropped byte is.  When a byte above
    127 comes before the last payload byte, each getter raises the
    decoding error, a [ValueError]. *)
Theorem get_string_decodes :
  forall (self : ps2000) (obj node : Z) (w : world),
    is_byte obj = true ->
    is_byte node = true ->
    is_open w = true ->
    accepted (peek_read 100 w) = true ->
    (forall (pre : list Z) (s : string) (t hi lo : Z),
       peek_read 100 w = pre ++ encode_ascii s ++ [t; hi; lo] ->
       length pre = 3%nat ->
       is_ascii s = true ->
       fst (_get_string self obj node w) = Return s /\
       fst (get_article self node w) = Return s /\
       fst (get_manufacturer self node w) = Return s /\
       fst (get_version self node w) = Return s) /\
    (forall x : Z,
       In x (slice (peek_read 100 w) 3 (-3)) -> 128 <= x ->
       fst (_get_string self obj node w) = Raise ValueError /\
       fst (get_article self node w) = Raise ValueError /\
       fst (get_manufacturer self node w) = Raise ValueError /\
       fst (get_version self node w) = Raise ValueError).
Proof.
  intros self obj node w Hob Hn Ho Ha.
  assert (H : forall o, is_byte o = true ->
            fst (_get_string self o node w) =
            decode_ascii (slice (peek_read 100 w) 3 (-3))).
  { intros o Hbo.
    destruct (get_string_cases self o node _ w (construct_query node o Hn Hbo) Ho)
      as [out Hg].
    rewrite Hg, Ha. reflexivity. }
  unfold get_article, get_manufacturer, get_version.
  rewrite (H obj Hob), !H by reflexivity. split.
  - intros pre s t hi lo Hans Hp Hs.
    rewrite Hans, slice_text, decode_encode_ascii by assumption. tauto.
  - intros x Hin Hx. rewrite (decode_ascii_rejects _ x Hin Hx). tauto.
Qed.

Lemma get_string_decodes_witness :
  let self := mk_ps2000 false 84 5 false in
  let w := mkWorld "" true
             [[0x86; 0x00; 0x00; 0x50; 0x53; 0x20; 0x32; 0x30; 0x34; 0x32;
               0x00; 0x02; 0x11]] [] in
  fst (get_type self w) = Return "PS 2042".
Proof.
  intros self w.
  destruct (get_string_decodes self 0 0 w eq_refl eq_refl eq_refl eq_refl)
    as [H _].
  exact (proj1 (H [0x86; 0x00; 0x00] "PS 2042" 0x00 0x02 0x11
                  eq_refl eq_refl eq_refl)).
Defined.

(** ** Opening a session *)

(** [serial.Serial(port, ...)]: the port is opened, or the constructor
    raises [SerialException] when [port] is not available. *)
Definition opened (w : world) : world :=
  mkWorld (stdout w) true (incoming w) (trace w).

Definition serial_Serial (ports : string -> bool) (port : string) : M unit :=
  fun w => if ports port then (Return tt, opened w)
           else (Raise SerialException, w).

(** [ps2000(port, triple)].  The class attributes [u_nom = 0] and
    [i_nom = 0] are in place while the nominal values are read;
    [verbose] is the class attribute. *)
Definition __init__ (ports : string -> bool) (verbose : bool)
    (port : string) (triple : bool) : M ps2000 :=
  serial_Serial ports port ;;
  do u <- get_nominal_voltage (mk_ps2000 verbose 0 0 false) 0;
  do i <- get_nominal_current (mk_ps2000 verbose u 0 false) 0;
  ret (mk_ps2000 verbose u i triple).

(** Every byte the device delivers is a byte. *)
Definition delivers_bytes (w : world) : bool :=
  forallb (forallb is_byte) (incoming w).

Section Init.

Variable ports : string -> bool.

Lemma in_firstn (n : nat) (l : list Z) (x : Z) :
  List.In x (firstn n l) -> List.In x l.
Proof.
  intros H. rewrite <- (firstn_skipn n l). apply in_or_app. now left.
Qed.

Lemma in_skipn (n : nat) (l : list Z) (x : Z) :
  List.In x (skipn n l) -> List.In x l.
Proof.
  intros H. rewrite <- (firstn_skipn n l). apply in_or_app. now right.
Qed.

Lemma peek_read_bytes (w : world) (size : Z) :
  delivers_bytes w = true -> forallb is_byte (peek_read size w) = true.
Proof.
  unfold delivers_bytes, peek_read. destruct (incoming w) as [|c rest];
    [reflexivity|].
  cbn [forallb]. intros H. apply andb_true_iff in H as [H _].
  rewrite forallb_forall in *. intros x Hx. apply H.
  now apply (in_firstn (Z.to_nat size)).
Qed.

Lemma after_read_bytes (w : world) (size : Z) :
  delivers_bytes w = true -> forallb (forallb is_byte) (after_read size w) = true.
Proof.
  unfold delivers_bytes, after_read. destruct (incoming w) as [|c rest];
    [reflexivity|].
  cbn [forallb]. intros H. apply andb_true_iff in H as [Hc Hr].
  assert (Hs : forallb is_byte (skipn (Z.to_nat size) c) = true).
  { rewrite forallb_forall in *. intros y Hy. apply Hc.
    now apply (in_skipn (Z.to_nat size)). }
  destruct (skipn (Z.to_nat size) c) as [|x l]; [exact Hr|].
  cbn [forallb] in *. now rewrite Hs, Hr.
Qed.

Lemma exchange_delivers_bytes (telegram : list Z) (out : string) (w : world) :
  delivers_bytes w = true ->
  delivers_bytes (emit out (exchange telegram w)) = true.
Proof. intros H. apply (after_read_bytes w 100 H). Qed.

Lemma slice_bytes (l : list Z) (lo hi : Z) :
  forallb is_byte l = true -> forallb is_byte (slice l lo hi) = true.
Proof.
  intros H. rewrite forallb_forall in *. intros x Hx. apply H.
  unfold slice in Hx. apply in_firstn in Hx. now apply in_skipn in Hx.
Qed.

End Init.

Lemma init_returns (ports : string -> bool) (verbose0 : bool) (port : string)
    (triple0 : bool) (w w' : world) (self : ps2000) :
  __init__ ports verbose0 port triple0 w = (Return self, w') ->
  let a1 := peek_read 100 w in
  let a2 := peek_read 100 (exchange (query_telegram 0 2) (opened w)) in
  ports port = true /\
  accepted a1 = true /\ len a1 = 9 /\
  accepted a2 = true /\ len a2 = 9 /\
  unpack_f (slice a1 3 (-2)) = Return (u_nom self) /\
  unpack_f (slice a2 3 (-2)) = Return (i_nom self) /\
  verbose self = verbose0 /\
  triple self = triple0 /\
  (exists out : string,
     w' = emit out (exchange (query_telegram 0 3)
                      (exchange (query_telegram 0 2) (opened w)))).
Proof.
  intros H. cbv zeta.
  unfold __init__ in H. revert H. run (unfold serial_Serial).
  destruct (ports port) eqn:Hp; [|discriminate].
  destruct (get_float_cases (mk_ps2000 verbose0 0 0 false) 2 0 _ (opened w)
              (construct_query 0 2 eq_refl eq_refl) eq_refl) as [out1 H1].
  run (unfold get_nominal_voltage; rewrite H1).
  change (peek_read 100 (opened w)) with (peek_read 100 w).
  destruct (accepted (peek_read 100 w)) eqn:A1; [|discriminate].
  destruct (unpack_f (slice (peek_read 100 w) 3 (-2))) as [u|e] eqn:U1;
    [|discriminate].
  destruct (get_float_cases (mk_ps2000 verbose0 u 0 false) 3 0 _
              (emit out1 (exchange (query_telegram 0 2) (opened w)))
              (construct_query 0 3 eq_refl eq_refl) eq_refl) as [out2 H2].
  run (unfold get_nominal_current; rewrite H2).
  change (peek_read 100 (emit out1 (exchange (query_telegram 0 2) (opened w))))
    with (peek_read 100 (exchange (query_telegram 0 2) (opened w))).
  destruct (accepted (peek_read 100 (exchange (query_telegram 0 2) (opened w))))
    eqn:A2; [|discriminate].
  destruct (unpack_f (slice (peek_read 100
              (exchange (query_telegram 0 2) (opened w))) 3 (-2)))
    as [i|e] eqn:U2; [|discriminate].
  unfold ret. intros H. injection H as <- <-.
  pose proof (accepted_length _ A1) as L1.
  pose proof (accepted_length _ A2) as L2.
  assert (P1 := proj1 (unpack_f_length _) (ex_intro _ u U1)).
  assert (P2 := proj1 (unpack_f_length _) (ex_intro _ i U2)).
  rewrite slice_payload_length in P1, P2 by assumption.
  repeat (split; [reflexivity || lia|]).
  exists (out1 ++ out2)%string. now rewrite exchange_emit, emit_emit.
Qed.

(** X18: a constructor that returns has opened the port and made two
    exchanges, the query of object 2 and then the query of object 3,
    both on node 0.  Both answers were accepted and nine bytes long,
    and the nominal voltage and current of the session are the
    big-endian binary32 values of their four payload bytes.  When the
    port is not available the constructor raises [SerialException] and
    nothing is written. *)
Theorem init_reads_nominal_values :
  forall (ports : string -> bool) (verbose : bool) (port : string)
         (triple0 : bool) (w : world),
    (forall (self : ps2000) (w' : world),
       __init__ ports verbose port triple0 w = (Return self, w') ->
       let a1 := peek_read 100 w in
       let a2 := peek_read 100 (exchange (query_telegram 0 2) (opened w)) in
       ports port = true /\
       accepted a1 = true /\ len a1 = 9 /\
       accepted a2 = true /\ len a2 = 9 /\
       unpack_f (slice a1 3 (-2)) = Return (u_nom self) /\
       unpack_f (slice a2 3 (-2)) = Return (i_nom self) /\
       triple self = triple0 /\
       is_open w' = true /\
       trace w' = trace w ++ [EvWrite (query_telegram 0 2); EvRead 100 a1;
                              EvWrite (query_telegram 0 3); EvRead 100 a2]) /\
    (ports port = false ->
     __init__ ports verbose port triple0 w = (Raise SerialException, w)).
Proof.
  intros ports verbose port triple0 w. split.
  - intros self w' H. cbv zeta.
    destruct (init_returns _ _ _ _ _ _ _ H)
      as (Hp & A1 & L1 & A2 & L2 & U1 & U2 & _ & Ht & out & ->).
    repeat split; try assumption.
    cbn [trace emit exchange opened]. now rewrite <- app_assoc.
  - intros Hp. unfold __init__. run (unfold serial_Serial). now rewrite Hp.
Qed.

Lemma init_reads_nominal_values_witness :
  let w := mkWorld "" false
             [[0x83; 0x00; 0x02; 0x42; 0xA8; 0x00; 0x00; 0x01; 0x6F];
              [0x83; 0x00; 0x03; 0x40; 0xA0; 0x00; 0x00; 0x01; 0x66]] [] in
  unpack_f (slice (peek_read 100 w) 3 (-2)) = Return 84%float /\
  __init__ (fun _ => false) false "/dev/ttyACM0" true w =
    (Raise SerialException, w).
Proof.
  intros w.
  pose proof (init_reads_nominal_values (fun _ => true) false "/dev/ttyACM0"
                true w) as [H _].
  pose proof (init_reads_nominal_values (fun _ => false) false "/dev/ttyACM0"
                true w) as [_ H'].
  split.
  - refine (proj1 (proj2 (proj2 (proj2 (proj2 (proj2
              (H (mk_ps2000 false 84 5 true)
                 (mkWorld "" true []
                    [EvWrite (query_telegram 0 2);
                     EvRead 100 [0x83; 0x00; 0x02; 0x42; 0xA8; 0x00; 0x00; 0x01; 0x6F];
                     EvWrite (query_telegram 0 3);
                     EvRead 100 [0x83; 0x00; 0x03; 0x40; 0xA0; 0x00; 0x00; 0x01; 0x66]])
                 _))))))).
    vm_compute. reflexivity.
  - apply H'. reflexivity.
Defined.

(** X19: in a session the constructor has opened against a device that
    delivers bytes and reports a positive, finite nominal voltage and
    current, the scaling is exact: every raw value from 0 to 25600,
    scaled to volts or amperes the way the getters do and scaled back
    the way [set_voltage] and [set_current] do, is that raw value. *)
Theorem session_scaling_is_exact :
  forall (ports : string -> bool) (verbose : bool) (port : string)
         (triple0 : bool) (w w' : world) (self : ps2000),
    delivers_bytes w = true ->
    __init__ ports verbose port triple0 w = (Return self, w') ->
    (0 <? u_nom self)%float = true -> (u_nom self <? infinity)%float = true ->
    (0 <? i_nom self)%float = true -> (i_nom self <? infinity)%float = true ->
    forall raw : Z,
      0 <= raw <= 25600 ->
      (exists u : float,
         scale_to_physical (u_nom self) raw = Return u /\
         scale_to_raw (PyFloat u) (u_nom self) = Return raw) /\
      (exists i : float,
         scale_to_physical (i_nom self) raw = Return i /\
         scale_to_raw (PyFloat i) (i_nom self) = Return raw).
Proof.
  intros ports verbose port triple0 w w' self Hb H Hu0 Hu1 Hi0 Hi1 raw Hr.
  destruct (init_returns _ _ _ _ _ _ _ H)
    as (_ & _ & _ & _ & _ & U1 & U2 & _).
  assert (Bu : binary32_positive (u_nom self) = true).
  { apply (unpack_f_positive _ _ (slice_bytes _ 3 (-2) (peek_read_bytes w 100 Hb)) U1);
      assumption. }
  assert (Bi : binary32_positive (i_nom self) = true).
  { refine (unpack_f_positive _ _ (slice_bytes _ 3 (-2) (peek_read_bytes _ 100 _))
              U2 Hi0 Hi1).
    apply (after_read_bytes w 100 Hb). }
  destruct (Z.eq_dec raw 0) as [->|Hnz].
  - split; [apply scaling_roundtrip_zero | apply scaling_roundtrip_zero];
      assumption.
  - split; apply scaling_roundtrip_positive; (assumption || lia).
Qed.

Lemma session_scaling_is_exact_witness :
  exists u : float,
    scale_to_physical 84 12345 = Return u /\
    scale_to_raw (PyFloat u) 84 = Return 12345.
Proof.
  refine (proj1 (session_scaling_is_exact (fun _ => true) false "/dev/ttyACM0"
            false
            (mkWorld "" false
               [[0x83; 0x00; 0x02; 0x42; 0xA8; 0x00; 0x00; 0x01; 0x6F];
                [0x83; 0x00; 0x03; 0x40; 0xA0; 0x00; 0x00; 0x01; 0x66]] [])
            (mkWorld "" true []
               [EvWrite (query_telegram 0 2);
                EvRead 100 [0x83; 0x00; 0x02; 0x42; 0xA8; 0x00; 0x00; 0x01; 0x6F];
                EvWrite (query_telegram 0 3);
                EvRead 100 [0x83; 0x00; 0x03; 0x40; 0xA0; 0x00; 0x00; 0x01; 0x66]])
            (mk_ps2000 false 84 5 false)
            eq_refl _ eq_refl eq_refl eq_refl eq_refl 12345 _)).
  - vm_compute. reflexivity.
  - lia.
Defined.

(** ** The outcome of a [with] scope *)

(** All the release transfers of [__exit__] complete. *)
Definition releases_complete (self : ps2000) (w : world) : bool :=
  release_completes (peek_read 100 w) &&
  (if triple self
   then release_completes (peek_read 100 (exchange (release_telegram 0) w))
   else true).

Definition acquire_telegram (node : Z) : list Z :=
  control_telegram node 0x10 0x10.

Section ScopeOutcome.

Variable self : ps2000.

Lemma set_remote_outcome (value : bool) (node : Z) (w : world) :
  is_byte node = true ->
  is_open w = true ->
  exists out : string,
    let w' := emit out (exchange (control_telegram node 0x10
                                    (if value then 0x10 else 0x00)) w) in
    if release_completes (peek_read 100 w)
    then exists b : bool, set_remote self value node w = (Return b, w')
    else exists e : exn, set_remote self value node w = (Raise e, w').
Proof.
  intros Hn Ho. destruct (set_remote_cases self value node w Hn Ho) as [out H].
  exists out. cbv zeta. rewrite H. unfold release_completes.
  destruct (accepted (peek_read 100 w)); cbn [andb]; [|eexists; reflexivity].
  destruct (acknowledged (slice (peek_read 100 w) 3 (-2))); eexists; reflexivity.
Qed.

Lemma exit_outcome (w : world) :
  is_open w = true ->
  if releases_complete self w
  then fst (__exit__ self w) = Return tt /\ is_open (snd (__exit__ self w)) = false
  else (exists e : exn, fst (__exit__ self w) = Raise e) /\
       is_open (snd (__exit__ self w)) = true.
Proof.
  intros Ho.
  enough (E : exists w' : world,
            if releases_complete self w
            then __exit__ self w = (Return tt, w') /\ is_open w' = false
            else (exists e : exn, __exit__ self w = (Raise e, w')) /\
                 is_open w' = true).
  { destruct E as [w' E]. destruct (releases_complete self w).
    - destruct E as [-> E]. split; [reflexivity | exact E].
    - destruct E as [[e ->] E]. split; [exists e; reflexivity | exact E]. }
  unfold releases_complete, __exit__.
  destruct (set_remote_outcome false 0 w eq_refl Ho) as [out0 H0].
  cbv zeta in H0. fold (release_telegram 0) in H0.
  destruct (release_completes (peek_read 100 w)); cbn [andb].
  - destruct H0 as [b0 H0].
    destruct (triple self).
    + destruct (set_remote_outcome false 1
                  (emit out0 (exchange (release_telegram 0) w)) eq_refl eq_refl)
        as [out1 H1].
      cbv zeta in H1. fold (release_telegram 1) in H1.
      change (peek_read 100 (emit out0 (exchange (release_telegram 0) w)))
        with (peek_read 100 (exchange (release_telegram 0) w)) in H1.
      destruct (release_completes (peek_read 100 (exchange (release_telegram 0) w))).
      * destruct H1 as [b1 H1]. eexists. run (rewrite H0).
        run (unfold bind at 1; rewrite H1). split; reflexivity.
      * destruct H1 as [e1 H1]. eexists. run (rewrite H0).
        run (unfold bind at 1; rewrite H1).
        split; [exists e1|]; reflexivity.
    + eexists. run (rewrite H0). split; reflexivity.
  - destruct H0 as [e0 H0]. eexists. run (rewrite H0).
    split; [exists e0|]; reflexivity.
Qed.

Lemma enter_outcome (w : world) :
  is_open w = true ->
  let a0 := peek_read 100 w in
  let a1 := peek_read 100 (exchange (acquire_telegram 0) w) in
  exists out : string,
    if release_completes a0 then
      if triple self then
        if release_completes a1 then
          __enter__ self w =
          (Return self,
           emit out (exchange (acquire_telegram 1) (exchange (acquire_telegram 0) w)))
        else
          exists e : exn,
            __enter__ self w =
            (Raise e,
             emit out (exchange (acquire_telegram 1) (exchange (acquire_telegram 0) w)))
      else
        __enter__ self w = (Return self, emit out (exchange (acquire_telegram 0) w))
    else
      exists e : exn,
        __enter__ self w = (Raise e, emit out (exchange (acquire_telegram 0) w)).
Proof.
  intros Ho. cbv zeta. unfold __enter__.
  destruct (set_remote_outcome true 0 w eq_refl Ho) as [out0 H0].
  cbv zeta in H0. fold (acquire_telegram 0) in H0.
  destruct (release_completes (peek_read 100 w)).
  - destruct H0 as [b0 H0].
    destruct (triple self).
    + destruct (set_remote_outcome true 1
                  (emit out0 (exchange (acquire_telegram 0) w)) eq_refl eq_refl)
        as [out1 H1].
      cbv zeta in H1. fold (acquire_telegram 1) in H1.
      change (peek_read 100 (emit out0 (exchange (acquire_telegram 0) w)))
        with (peek_read 100 (exchange (acquire_telegram 0) w)) in H1.
      exists (out0 ++ out1)%string. rewrite <- emit_emit, <- exchange_emit.
      destruct (release_completes (peek_read 100 (exchange (acquire_telegram 0) w))).
      * destruct H1 as [b1 H1]. run (rewrite H0).
        run (unfold bind at 1; rewrite H1). reflexivity.
      * destruct H1 as [e1 H1]. exists e1. run (rewrite H0).
        run (unfold bind at 1; rewrite H1). reflexivity.
    + exists out0. run (rewrite H0). reflexivity.
  - destruct H0 as [e0 H0]. exists out0, e0. run (rewrite H0). reflexivity.
Qed.

End ScopeOutcome.

(** X20: the outcome of a [with] scope whose body ran with the port
    open.  When every release transfer of [__exit__] completes, the
    scope ends the way the body ended, with the body's value or with
    the body's exception, and the port is closed.  When a release
    transfer does not complete, the scope raises whatever the body
    did, and the port stays open. *)
Theorem with_outcome :
  forall (A : Type) (self : ps2000) (body : ps2000 -> M A)
         (w w1 w2 : world) (ps : ps2000) (r : outcome A),
    __enter__ self w = (Return ps, w1) ->
    body ps w1 = (r, w2) ->
    is_open w2 = true ->
    (releases_complete self w2 = true ->
     fst (with_ self body w) = r /\
     is_open (snd (with_ self body w)) = false) /\
    (releases_complete self w2 = false ->
     (exists e : exn, fst (with_ self body w) = Raise e) /\
     is_open (snd (with_ self body w)) = true).
Proof.
  intros A self body w w1 w2 ps r He Hb Ho.
  pose proof (exit_outcome self w2 Ho) as Hx.
  assert (Hw : with_ self body w =
               match r, __exit__ self w2 with
               | Return a, (Return _, w3) => (Return a, w3)
               | Raise e, (Return _, w3) => (Raise e, w3)
               | _, (Raise e', w3) => (Raise e', w3)
               end).
  { unfold with_. run (rewrite He). rewrite Hb.
    destruct r; destruct (__exit__ self w2) as [[u|e'] w3]; reflexivity. }
  rewrite Hw. destruct (releases_complete self w2).
  - split; [|discriminate]. intros _. destruct Hx as [Hf Hc].
    destruct (__exit__ self w2) as [[u|e'] w3]; [|discriminate Hf].
    destruct r; split; (reflexivity || exact Hc).
  - split; [discriminate|]. intros _. destruct Hx as [[e Hf] Hc].
    destruct (__exit__ self w2) as [[u|e'] w3]; [discriminate Hf|].
    destruct r; split; try exact Hc; exists e'; reflexivity.
Qed.

Lemma with_outcome_witness :
  let self := mk_ps2000 false 84 5 false in
  let ack := [0x80; 0x00; 0xFF; 0x00; 0x01; 0x7F] in
  let w := mkWorld "" true [ack; ack] [] in
  fst (with_ self (fun _ => ret 7) w) = Return 7 /\
  is_open (snd (with_ self (fun _ => ret 7) w)) = false.
Proof.
  intros self ack w.
  refine (proj1 (with_outcome Z self (fun _ => ret 7) w
                   (mkWorld "" true [ack]
                      [EvWrite (acquire_telegram 0); EvRead 100 ack])
                   (mkWorld "" true [ack]
                      [EvWrite (acquire_telegram 0); EvRead 100 ack])
                   self (Return 7) _ eq_refl eq_refl) _).
  - vm_compute. reflexivity.
  - vm_compute. reflexivity.
Defined.

(** X21: when [__enter__] fails, the scope fails with the same
    exception: the body does not run, no release telegram is written
    and the port is not closed.  The only port operations are the
    exchange that sets remote control on node 0 and, on a triple device
    whose node 0 transfer completed, the one for node 1. *)
Theorem enter_failure_skips_body_and_release :
  forall (A : Type) (self : ps2000) (body : ps2000 -> M A)
         (w w1 : world) (e : exn),
    is_open w = true ->
    __enter__ self w = (Raise e, w1) ->
    let a0 := peek_read 100 w in
    let a1 := peek_read 100 (exchange (acquire_telegram 0) w) in
    with_ self body w = (Raise e, w1) /\
    is_open w1 = true /\
    ((release_completes a0 = false /\
      trace w1 = trace w ++ [EvWrite (acquire_telegram 0); EvRead 100 a0]) \/
     (release_completes a0 = true /\ triple self = true /\
      release_completes a1 = false /\
      trace w1 = trace w ++ [EvWrite (acquire_telegram 0); EvRead 100 a0;
                             EvWrite (acquire_telegram 1); EvRead 100 a1])).
Proof.
  intros A self body w w1 e Ho He. cbv zeta.
  split; [unfold with_; run (rewrite He); reflexivity|].
  destruct (enter_outcome self w Ho) as [out H]. cbv zeta in H.
  destruct (release_completes (peek_read 100 w)).
  - destruct (triple self).
    + destruct (release_completes (peek_read 100 (exchange (acquire_telegram 0) w))).
      * rewrite H in He. discriminate.
      * destruct H as [e' H]. rewrite H in He. injection He as _ <-.
        split; [reflexivity|]. right. repeat split.
        cbn [trace emit exchange]. now rewrite <- app_assoc.
    + rewrite H in He. discriminate.
  - destruct H as [e' H]. rewrite H in He. injection He as _ <-.
    split; [reflexivity|]. left. split; reflexivity.
Qed.

Lemma enter_failure_skips_body_and_release_witness :
  let self := mk_ps2000 false 84 5 true in
  let ack := [0x80; 0x00; 0xFF; 0x00; 0x01; 0x7F] in
  let w := mkWorld "" true [ack] [] in
  exists w1 : world,
    with_ self (fun _ => ret 7) w = (Raise (SystemExit 1), w1) /\
    trace w1 = [EvWrite (acquire_telegram 0); EvRead 100 ack;
                EvWrite (acquire_telegram 1); EvRead 100 []].
Proof.
  intros self ack w.
  eexists. split.
  - refine (proj1 (enter_failure_skips_body_and_release Z self (fun _ => ret 7)
                     w _ (SystemExit 1) eq_refl _)).
    vm_compute. reflexivity.
  - reflexivity.
Defined.

(** ** Looking for a device: [check_available] *)

(** [t in s] on strings *)
Fixpoint contains (t s : string) : bool :=
  String.prefix t s ||
  match s with
  | EmptyString => false
  | String _ s' => contains t s'
  end.

(** [for t in target: if t in ps.get_type(): return True] and then
    [return False]: the type is queried once for each target tried. *)
Fixpoint check_targets (ps : ps2000) (target : list string) : M bool :=
  match target with
  | [] => ret false
  | t :: rest =>
      do type <- get_type ps;
      if contains t type then ret true else check_targets ps rest
  end.

(** What runs inside [try]: the constructor, the scope and the loop. *)
Definition check_available_try (ports : string -> bool) (verbose : bool)
    (port : string) (target : list string) : M bool :=
  do self <- __init__ ports verbose port false;
  with_ self (fun ps => check_targets ps target).

(** The function under the cache: [except SerialException] turns that
    exception into [False], whichever statement inside [try] raised
    it. *)
Definition check_available_body (ports : string -> bool) (verbose : bool)
    (port : string) (target : list string) : M bool :=
  fun w =>
    match check_available_try ports verbose port target w with
    | (Raise SerialException, w') => (Return false, w')
    | r => r
    end.

(** The second positional argument of a call: left out, a list or a
    tuple. *)
Inductive target_arg : Type :=
| TargetDefault
| TargetList (l : list string)
| TargetTuple (l : list string).

Definition default_target : list string := ["PS 2042"; "PS 2342"].

Definition target_values (target : target_arg) : list string :=
  match target with
  | TargetDefault => default_target
  | TargetList l => l
  | TargetTuple l => l
  end.

(** [functools.lru_cache(maxsize=1)]: the key is made of the positional
    arguments as passed, which must be hashable; one result is kept,
    the one of the last call that returned. *)
Definition cache_key : Type := string * option (list string).

Definition cache : Type := option (cache_key * bool).

Definition make_key (port : string) (target : target_arg) : outcome cache_key :=
  match target with
  | TargetDefault => Return (port, None)
  | TargetList _ => Raise TypeError
  | TargetTuple l => Return (port, Some l)
  end.

Definition key_eqb (k1 k2 : cache_key) : bool :=
  String.eqb (fst k1) (fst k2) &&
  match snd k1, snd k2 with
  | None, None => true
  | Some l1, Some l2 =>
      if list_eq_dec string_dec l1 l2 then true else false
  | _, _ => false
  end.

Definition cache_lookup (c : cache) (key : cache_key) : option bool :=
  match c with
  | Some (k, r) => if key_eqb k key then Some r else None
  | None => None
  end.

Definition check_available (ports : string -> bool) (verbose : bool)
    (port : string) (target : target_arg) (c : cache)
  : world -> (outcome bool * world) * cache :=
  fun w =>
    match make_key port target with
    | Raise e => ((Raise e, w), c)
    | Return key =>
        match cache_lookup c key with
        | Some r => ((Return r, w), c)
        | None =>
            match check_available_body ports verbose port
                    (target_values target) w with
            | (Return r, w') => ((Return r, w'), Some (key, r))
            | (Raise e, w') => ((Raise e, w'), c)
            end
        end
    end.

Example contains_examples :
  contains "PS 2042" "PS 2042-06B" = true /\
  contains "2342" "PS 2342-10B" = true /\
  contains "PS 2342" "PS 2042-06B" = false /\
  contains "" "" = true.
Proof. repeat split. Qed.

Section Available.

(** A computation that, on an open port, leaves it open and does not
    raise [SerialException]. *)
Definition keeps_port {A} (m : M A) : Prop :=
  forall w : world,
    is_open w = true ->
    fst (m w) <> Raise SerialException /\ is_open (snd (m w)) = true.

Lemma keeps_port_bind {A B} (m : M A) (k : A -> M B) :
  keeps_port m -> (forall a, keeps_port (k a)) -> keeps_port (bind m k).
Proof.
  intros Hm Hk w Ho. unfold bind. destruct (Hm w Ho) as [H1 H2].
  destruct (m w) as [[a|e] w1]; cbn [fst snd] in *.
  - apply Hk, H2.
  - split; [|exact H2]. intros [= ->]. now apply H1.
Qed.

Lemma keeps_port_ret {A} (a : A) : keeps_port (ret a).
Proof. intros w Ho. split; [discriminate | exact Ho]. Qed.

Lemma keeps_port_lift {A} (o : outcome A) :
  o <> Raise SerialException -> keeps_port (lift o).
Proof. intros H w Ho. split; assumption. Qed.

Lemma transfer_keeps_port (self : ps2000) (type node obj : Z) (data : list Z) :
  keeps_port (_transfer self type node obj data).
Proof.
  intros w Ho. destruct (_construct type node obj data) as [t|e] eqn:Hc.
  - destruct (transfer_cases self _ _ _ _ _ w Hc Ho) as [out ->].
    destruct (accepted (peek_read 100 w)); split;
      (discriminate || reflexivity).
  - rewrite (transfer_bad_arguments self _ _ _ _ _ w Hc).
    rewrite (construct_raises_ValueError _ _ _ _ _ Hc).
    split; [discriminate | exact Ho].
Qed.

Lemma getitem_raises (l : list Z) (i : Z) (e : exn) :
  getitem l i = Raise e -> e = IndexError.
Proof.
  unfold getitem.
  destruct ((0 <=? (if i <? 0 then i + len l else i)) &&
            ((if i <? 0 then i + len l else i) <? len l));
    [discriminate | now intros [= <-]].
Qed.

Lemma getitem_keeps_port (l : list Z) (i : Z) : keeps_port (lift (getitem l i)).
Proof.
  apply keeps_port_lift. intros H. apply getitem_raises in H. discriminate.
Qed.

Lemma decode_ascii_raises (b : list Z) (e : exn) :
  decode_ascii b = Raise e -> e = ValueError.
Proof.
  induction b as [|x b IH]; [discriminate|]. cbn [decode_ascii].
  destruct ((0 <=? x) && (x <? 128)); [|now intros [= <-]].
  destruct (decode_ascii b); [discriminate|].
  cbn [bindO]. intros [= <-]. now apply IH.
Qed.

Lemma unpack_f_raises (b : list Z) (e : exn) :
  unpack_f b = Raise e -> e = StructError.
Proof.
  intros H. destruct (Z.eq_dec (len b) 4) as [E|E].
  - apply unpack_f_length in E as [x E]. rewrite E in H. discriminate.
  - rewrite (unpack_f_wrong_length b E) in H. now injection H as <-.
Qed.

Lemma get_string_keeps_port (self : ps2000) (obj node : Z) :
  keeps_port (_get_string self obj node).
Proof.
  apply keeps_port_bind; [apply transfer_keeps_port|].
  intros ans. apply keeps_port_lift. intros H.
  apply decode_ascii_raises in H. discriminate.
Qed.

Lemma get_float_keeps_port (self : ps2000) (obj node : Z) :
  keeps_port (_get_float self obj node).
Proof.
  apply keeps_port_bind; [apply transfer_keeps_port|].
  intros ans. apply keeps_port_lift. intros H.
  apply unpack_f_raises in H. discriminate.
Qed.

Lemma set_control_keeps_port (self : ps2000) (mask data node : Z) :
  keeps_port (_set_control self mask data node).
Proof.
  apply keeps_port_bind.
  { apply keeps_port_bind; [apply transfer_keeps_port|].
    intros ans. apply keeps_port_ret. }
  intros ans. apply keeps_port_bind; [apply getitem_keeps_port|].
  intros a0. destruct (a0 =? 0xFF); [|apply keeps_port_ret].
  apply keeps_port_bind; [apply getitem_keeps_port|].
  intros a1. apply keeps_port_ret.
Qed.

Lemma set_remote_keeps_port (self : ps2000) (value : bool) (node : Z) :
  keeps_port (set_remote self value node).
Proof. destruct value; apply set_control_keeps_port. Qed.

Lemma enter_keeps_port (self : ps2000) : keeps_port (__enter__ self).
Proof.
  apply keeps_port_bind; [apply set_remote_keeps_port|]. intros _.
  apply keeps_port_bind; [|intros _; apply keeps_port_ret].
  destruct (triple self); [|apply keeps_port_ret].
  apply keeps_port_bind; [apply set_remote_keeps_port|].
  intros _. apply keeps_port_ret.
Qed.

Lemma check_targets_keeps_port (ps : ps2000) (target : list string) :
  keeps_port (check_targets ps target).
Proof.
  induction target as [|t rest IH]; [apply keeps_port_ret|].
  cbn [check_targets]. apply keeps_port_bind; [apply get_string_keeps_port|].
  intros type. destruct (contains t type); [apply keeps_port_ret | exact IH].
Qed.

Lemma exit_no_serial_exception (self : ps2000) (w : world) :
  is_open w = true -> fst (__exit__ self w) <> Raise SerialException.
Proof.
  intros Ho. unfold __exit__.
  assert (K : keeps_port
                (set_remote self false 0 ;;
                 (if triple self then set_remote self false 1 ;; ret tt
                  else ret tt))).
  { apply keeps_port_bind; [apply set_remote_keeps_port|]. intros _.
    destruct (triple self); [|apply keeps_port_ret].
    apply keeps_port_bind; [apply set_remote_keeps_port|].
    intros _. apply keeps_port_ret. }
  destruct (K w Ho) as [K1 _]. revert K1. unfold bind.
  destruct (set_remote self false 0 w) as [[b0|e0] w0]; cbn [fst]; [|tauto].
  destruct (triple self).
  - destruct (set_remote self false 1 w0) as [[b1|e1] w1]; cbn [fst ret];
      [discriminate | tauto].
  - discriminate.
Qed.

(** What a scope around [check_targets] can do on an open port. *)
Lemma scope_cases (self : ps2000) (target : list string) (w : world) :
  is_open w = true ->
  match with_ self (fun ps => check_targets ps target) w with
  | (Return b, w') =>
      is_open w' = false /\
      exists (ps : ps2000) (w1 w2 : world),
        __enter__ self w = (Return ps, w1) /\
        check_targets ps target w1 = (Return b, w2) /\
        is_open w2 = true /\
        w' = snd (__exit__ self w2)
  | (Raise e, w') => e <> SerialException
  end.
Proof.
  intros Ho. unfold with_, bind at 1.
  destruct (enter_keeps_port self w Ho) as [E1 E2].
  destruct (__enter__ self w) as [[ps|e] w1] eqn:He; cbn [fst snd] in *;
    [|congruence].
  destruct (check_targets_keeps_port ps target w1 E2) as [B1 B2].
  destruct (check_targets ps target w1) as [[b|e] w2] eqn:Hb;
    cbn [fst snd] in *.
  - pose proof (exit_outcome self w2 B2) as X.
    pose proof (exit_no_serial_exception self w2 B2) as N.
    destruct (__exit__ self w2) as [[u|e'] w3] eqn:Hx; cbn [fst snd] in *.
    + split.
      * destruct (releases_complete self w2); [tauto|].
        destruct X as [[e X] _]. discriminate X.
      * exists ps, w1, w2. split; [reflexivity|]. split; [exact Hb|].
        split; [exact B2 | now rewrite Hx].
    + congruence.
  - pose proof (exit_no_serial_exception self w2 B2) as N.
    destruct (__exit__ self w2) as [[u|e'] w3]; cbn [fst snd] in *; congruence.
Qed.

(** The answers read, among port events. *)
Definition answer_with (evs : list event) (t : string) (found : bool) : Prop :=
  exists (ans : list Z) (type : string),
    List.In (EvRead 100 ans) evs /\
    decode_ascii (slice ans 3 (-3)) = Return type /\
    contains t type = found.

Lemma answer_with_app_l (evs1 evs2 : list event) (t : string) (found : bool) :
  answer_with evs1 t found -> answer_with (evs1 ++ evs2) t found.
Proof.
  intros (ans & type & Hin & H). exists ans, type.
  split; [apply in_or_app; now left | exact H].
Qed.

Lemma answer_with_app_r (evs1 evs2 : list event) (t : string) (found : bool) :
  answer_with evs2 t found -> answer_with (evs1 ++ evs2) t found.
Proof.
  intros (ans & type & Hin & H). exists ans, type.
  split; [apply in_or_app; now right | exact H].
Qed.

Lemma check_targets_result (ps : ps2000) (target : list string) (b : bool)
      (w w' : world) :
  is_open w = true ->
  check_targets ps target w = (Return b, w') ->
  exists evs : list event,
    trace w' = trace w ++ evs /\
    if b then exists t : string, List.In t target /\ answer_with evs t true
    else forall t : string, List.In t target -> answer_with evs t false.
Proof.
  revert w. induction target as [|t rest IH]; intros w Ho.
  - cbn [check_targets]. unfold ret. intros [= <- <-]. exists [].
    split; [now rewrite app_nil_r | intros t []].
  - cbn [check_targets].
    destruct (get_string_cases ps 0 0 _ w (construct_query 0 0 eq_refl eq_refl) Ho)
      as [out Hg].
    run (unfold get_type; rewrite Hg).
    destruct (accepted (peek_read 100 w)); [|discriminate].
    destruct (decode_ascii (slice (peek_read 100 w) 3 (-3))) as [type|e] eqn:Hd;
      [|discriminate].
    assert (Hhere : forall found, contains t type = found ->
              answer_with [EvWrite (query_telegram 0 0);
                           EvRead 100 (peek_read 100 w)] t found).
    { intros found Hc. exists (peek_read 100 w), type.
      split; [right; now left | split; assumption]. }
    destruct (contains t type) eqn:Hc.
    + unfold ret. intros [= <- <-]. eexists. split; [reflexivity|].
      exists t. split; [now left | now apply Hhere].
    + intros H.
      destruct (IH (emit out (exchange (query_telegram 0 0) w)) eq_refl H)
        as (evs & Ht & Hev).
      exists ([EvWrite (query_telegram 0 0); EvRead 100 (peek_read 100 w)] ++ evs).
      split; [rewrite Ht; cbn [trace emit exchange]; now rewrite <- app_assoc|].
      destruct b.
      * destruct Hev as (t' & Hin & Ha). exists t'.
        split; [now right | now apply answer_with_app_r].
      * intros t' [<-|Hin].
        -- apply answer_with_app_l. now apply Hhere.
        -- apply answer_with_app_r. now apply Hev.
Qed.

Lemma enter_extends (self ps : ps2000) (w w1 : world) :
  is_open w = true ->
  __enter__ self w = (Return ps, w1) ->
  exists evs : list event, trace w1 = trace w ++ evs.
Proof.
  intros Ho He. destruct (enter_outcome self w Ho) as [out H]. cbv zeta in H.
  destruct (release_completes (peek_read 100 w)).
  - destruct (triple self).
    + destruct (release_completes (peek_read 100 (exchange (acquire_telegram 0) w))).
      * rewrite H in He. injection He as _ <-. eexists.
        cbn [trace emit exchange]. now rewrite <- app_assoc.
      * destruct H as [e H]. rewrite H in He. discriminate.
    + rewrite H in He. injection He as _ <-. eexists. reflexivity.
  - destruct H as [e H]. rewrite H in He. discriminate.
Qed.

Lemma key_eqb_refl (k : cache_key) : key_eqb k k = true.
Proof.
  destruct k as [port [l|]]; unfold key_eqb; cbn [fst snd];
    rewrite String.eqb_refl; [|reflexivity].
  destruct (list_eq_dec string_dec l l); [reflexivity | contradiction].
Qed.

End Available.

(** X22: the calls of [check_available] that touch no port.  A list
    passed as target cannot be hashed for the cache: the call raises
    [TypeError].  When the port cannot be opened, the call returns
    [False] and the answer is cached.  A cached answer is returned as
    it is: the same call returns [False] again without any port
    operation, also when the port can be opened by then. *)
Theorem check_available_without_port :
  forall (ports ports' : string -> bool) (verbose verbose' : bool)
         (port : string) (target : target_arg) (c : cache) (w : world),
    (forall l : list string,
       check_available ports verbose port (TargetList l) c w =
       ((Raise TypeError, w), c)) /\
    (forall key : cache_key,
       make_key port target = Return key ->
       cache_lookup c key = None ->
       ports port = false ->
       check_available ports verbose port target c w =
         ((Return false, w), Some (key, false)) /\
       forall w2 : world,
         check_available ports' verbose' port target (Some (key, false)) w2 =
         ((Return false, w2), Some (key, false))).
Proof.
  intros ports ports' verbose verbose' port target c w.
  split; [reflexivity|].
  intros key Hk Hl Hp. split.
  - unfold check_available. rewrite Hk, Hl.
    unfold check_available_body, check_available_try, __init__.
    run (unfold serial_Serial). rewrite Hp. reflexivity.
  - intros w2. unfold check_available. rewrite Hk.
    unfold cache_lookup. now rewrite key_eqb_refl.
Qed.

Lemma check_available_without_port_witness :
  let w := mkWorld "" false [] [] in
  check_available (fun _ => false) false "/dev/ttyACM0" TargetDefault None w =
    ((Return false, w), Some (("/dev/ttyACM0", None), false)) /\
  check_available (fun _ => true) false "/dev/ttyACM0" TargetDefault
    (Some (("/dev/ttyACM0", None), false)) w =
    ((Return false, w), Some (("/dev/ttyACM0", None), false)).
Proof.
  intros w.
  destruct (check_available_without_port (fun _ => false) (fun _ => true)
              false false "/dev/ttyACM0" TargetDefault None w) as [_ H].
  destruct (H ("/dev/ttyACM0", None) eq_refl eq_refl eq_refl) as [H1 H2].
  split; [exact H1 | exact (H2 w)].
Defined.

(** X23: a call of [check_available] that misses the cache and
    returns without the [except] branch: no [SerialException] was
    raised inside [try], neither by the constructor nor by a port
    operation.  The port has been opened and is closed again, the
    answer is cached under the key of the call, and the port events of
    the call end with the close.  [True] is returned only when an
    answer read during the call decodes to a text that contains one of
    the targets; [False] only when for each target an answer was read
    whose text does not contain it. *)
Theorem check_available_fresh_answer :
  forall (ports : string -> bool) (verbose : bool) (port : string)
         (target : target_arg) (c c' : cache) (w w' : world)
         (key : cache_key) (b : bool),
    make_key port target = Return key ->
    cache_lookup c key = None ->
    fst (check_available_try ports verbose port (target_values target) w)
      <> Raise SerialException ->
    check_available ports verbose port target c w = ((Return b, w'), c') ->
    ports port = true /\
    is_open w' = false /\
    c' = Some (key, b) /\
    exists evs : list event,
      trace w' = trace w ++ evs ++ [EvClose] /\
      if b
      then exists t : string,
             List.In t (target_values target) /\ answer_with evs t true
      else forall t : string,
             List.In t (target_values target) -> answer_with evs t false.
Proof.
  intros ports verbose port target c c' w w' key b Hk Hl Hn H.
  unfold check_available in H. rewrite Hk, Hl in H.
  destruct (check_available_body ports verbose port (target_values target) w)
    as [[b0|e0] w0] eqn:Hbody; [|discriminate].
  injection H as -> -> <-.
  unfold check_available_body in Hbody.
  destruct (check_available_try ports verbose port (target_values target) w)
    as [[b1|e1] w2] eqn:Htry; cbn [fst] in Hn.
  2:{ destruct e1; try discriminate Hbody. now contradiction Hn. }
  injection Hbody as -> ->.
  unfold check_available_try, bind in Htry.
  destruct (__init__ ports verbose port false w) as [[self|e] w1] eqn:Hi;
    [|discriminate].
  destruct (init_returns _ _ _ _ _ _ _ Hi)
    as (Hp & _ & _ & _ & _ & _ & _ & _ & Htr & out & ->).
  split; [exact Hp|].
  match type of Htry with
  | with_ self ?body ?w1 = _ =>
      pose proof (scope_cases self (target_values target) w1 eq_refl) as Hs
  end.
  rewrite Htry in Hs.
  destruct Hs as (Hc & ps & wa & wb & He & Hb & Hob & ->).
  split; [exact Hc|]. split; [reflexivity|].
  match type of He with
  | __enter__ _ ?w0 = _ =>
      destruct (enter_extends self ps w0 wa eq_refl He) as [evs1 Ht1];
      pose proof (enter_keeps_port self w0 eq_refl) as [_ Hoa]
  end.
  rewrite He in Hoa. cbn [snd] in Hoa.
  destruct (check_targets_result _ _ _ _ _ Hoa Hb) as (evs2 & Ht2 & Hev).
  assert (Hx : exists evs3, exit_events self wb = evs3 ++ [EvClose]).
  { pose proof (exit_outcome self wb Hob) as X.
    unfold releases_complete in X. unfold exit_events.
    destruct (release_completes (peek_read 100 wb)); cbn [andb] in X.
    - destruct (triple self).
      + destruct (release_completes
                    (peek_read 100 (exchange (release_telegram 0) wb))).
        * eexists [_; _; _; _]. reflexivity.
        * rewrite Hc in X. destruct X as [_ X]. discriminate X.
      + eexists [_; _]. reflexivity.
    - rewrite Hc in X. destruct X as [_ X]. discriminate X. }
  destruct Hx as [evs3 Hx].
  exists ([EvWrite (query_telegram 0 2);
           EvRead 100 (peek_read 100 w);
           EvWrite (query_telegram 0 3);
           EvRead 100 (peek_read 100 (exchange (query_telegram 0 2) (opened w)))]
          ++ evs1 ++ evs2 ++ evs3).
  split.
  - rewrite (exit_trace self wb Hob), Hx, Ht2, Ht1.
    cbn [trace emit exchange opened]. rewrite <- !app_assoc. reflexivity.
  - destruct b.
    + destruct Hev as (t & Hin & Ha). exists t. split; [exact Hin|].
      apply answer_with_app_r, answer_with_app_r, answer_with_app_l, Ha.
    + intros t Hin.
      apply answer_with_app_r, answer_with_app_r, answer_with_app_l, Hev, Hin.
Qed.

Lemma check_available_fresh_answer_witness :
  let ack := [0x80; 0x00; 0xFF; 0x00; 0x01; 0x7F] in
  let w := mkWorld "" false
             [[0x83; 0x00; 0x02; 0x42; 0xA8; 0x00; 0x00; 0x01; 0x6F];
              [0x83; 0x00; 0x03; 0x40; 0xA0; 0x00; 0x00; 0x01; 0x66];
              ack;
              [0x86; 0x00; 0x00; 0x50; 0x53; 0x20; 0x32; 0x30; 0x34; 0x32;
               0x00; 0x02; 0x11];
              ack] [] in
  exists (w' : world) (c' : cache),
    check_available (fun _ => true) false "/dev/ttyACM0" TargetDefault None w =
      ((Return true, w'), c') /\
    is_open w' = false /\
    c' = Some (("/dev/ttyACM0", None), true).
Proof.
  intros ack w. eexists. eexists.
  assert (H : forall r, r = check_available (fun _ => true) false "/dev/ttyACM0"
                            TargetDefault None w ->
              check_available (fun _ => true) false "/dev/ttyACM0"
                TargetDefault None w = ((Return true, snd (fst r)), snd r)).
  { intros r ->. vm_compute. reflexivity. }
  split; [apply (H _ eq_refl)|].
  assert (Hn : fst (check_available_try (fun _ => true) false "/dev/ttyACM0"
                      (target_values TargetDefault) w) <> Raise SerialException).
  { vm_compute. discriminate. }
  destruct (check_available_fresh_answer (fun _ => true) false "/dev/ttyACM0"
              TargetDefault None _ w _ ("/dev/ttyACM0", None) true
              eq_refl eq_refl Hn (H _ eq_refl)) as (_ & H1 & H2 & _).
  split; [exact H1 | exact H2].
Defined.

(** ** The information dump: [print_info] *)

(** ["%04x" % n] *)
Definition fmt_04x (n : Z) : string :=
  if n <? 0 then "-" ++ zfill 3 (hex (- n)) else zfill 4 (hex n).

Definition print_info (ps : ps2000) (node : Z) : M unit :=
  do s <- get_type ps; print ("type    " ++ s) ;;
  do s <- get_serial ps; print ("serial  " ++ s) ;;
  do s <- get_article ps 0; print ("article " ++ s) ;;
  do s <- get_manufacturer ps 0; print ("manuf   " ++ s) ;;
  do s <- get_version ps 0; print ("version " ++ s) ;;
  do x <- get_nominal_voltage ps 0; print ("nom. voltage " ++ fmt_f x) ;;
  do x <- get_nominal_current ps 0; print ("nom. current " ++ fmt_f x) ;;
  do x <- get_nominal_power ps 0; print ("nom. power   " ++ fmt_f x) ;;
  do n <- get_device_class ps 0; print ("class        0x" ++ fmt_04x n) ;;
  do x <- get_OVP_threshold ps 0; print ("OVP          " ++ fmt_f x) ;;
  do x <- get_OCP_threshold ps 0; print ("OCP          " ++ fmt_f x) ;;
  do b <- set_remote ps true node;
  print ("control      0x" ++ fmt_04x (Z.b2z b)) ;;
  do b <- set_output_on ps true node;
  print ("output       0x" ++ fmt_04x (Z.b2z b)) ;;
  get_actual ps true node ;;
  ret tt.

(** The telegrams written, among port events. *)
Definition writes (evs : list event) : list (list Z) :=
  flat_map (fun e => match e with EvWrite t => [t] | _ => [] end) evs.

(** A device answer: a body followed by its checksum. *)
Definition answer (body : list Z) : list Z :=
  body ++ [Z.shiftr (byte_sum body) 8; Z.land (byte_sum body) 0xFF].

Section Exchanges.

(** A computation that, on an open port, makes the exchange of
    telegram [t] and no other port operation, however it ends. *)
Definition one_exchange {A} (m : M A) (t : list Z) : Prop :=
  forall w : world,
    is_open w = true -> exists out : string, snd (m w) = emit out (exchange t w).

Lemma bind_one_exchange {A B} (m : M A) (t : list Z) (k : A -> M B)
      (w w' : world) (r : B) :
  one_exchange m t ->
  is_open w = true ->
  bind m k w = (Return r, w') ->
  exists (a : A) (out : string),
    m w = (Return a, emit out (exchange t w)) /\
    k a (emit out (exchange t w)) = (Return r, w').
Proof.
  intros Hm Ho. unfold bind. destruct (Hm w Ho) as [out E].
  destruct (m w) as [[a|e] w1]; cbn [snd] in E; subst w1; [|discriminate].
  intros H. exists a, out. split; [reflexivity | exact H].
Qed.

Lemma bind_print {B} (s : string) (k : M B) (w : world) :
  (print s ;; k) w = k (emit (s ++ nl) w).
Proof. reflexivity. Qed.

Variable self : ps2000.

Lemma get_string_one_exchange (obj node : Z) :
  is_byte obj = true -> is_byte node = true ->
  one_exchange (_get_string self obj node) (query_telegram node obj).
Proof.
  intros Hb Hn w Ho.
  destruct (get_string_cases self obj node _ w (construct_query node obj Hn Hb) Ho)
    as [out ->].
  exists out. reflexivity.
Qed.

Lemma get_float_one_exchange (obj node : Z) :
  is_byte obj = true -> is_byte node = true ->
  one_exchange (_get_float self obj node) (query_telegram node obj).
Proof.
  intros Hb Hn w Ho.
  destruct (get_float_cases self obj node _ w (construct_query node obj Hn Hb) Ho)
    as [out ->].
  exists out. reflexivity.
Qed.

Lemma get_integer_one_exchange (obj node : Z) :
  is_byte obj = true -> is_byte node = true ->
  one_exchange (_get_integer self obj node) (query_telegram node obj).
Proof.
  intros Hb Hn w Ho.
  destruct (get_integer_cases self obj node _ w (construct_query node obj Hn Hb) Ho)
    as [out ->].
  exists out. reflexivity.
Qed.

Lemma scaled_getter_one_exchange (nominal : float) (obj node : Z) :
  is_byte obj = true -> is_byte node = true ->
  one_exchange (do v <- _get_integer self obj node;
                lift (scale_to_physical nominal v))
               (query_telegram node obj).
Proof.
  intros Hb Hn w Ho.
  destruct (scaled_getter_cases self nominal obj node _ w
              (construct_query node obj Hn Hb) Ho) as [out ->].
  exists out. reflexivity.
Qed.

Lemma set_control_one_exchange (mask data node : Z) :
  is_byte mask = true -> is_byte data = true -> is_byte node = true ->
  one_exchange (_set_control self mask data node)
               (control_telegram node mask data).
Proof.
  intros Hm Hd Hn w Ho.
  destruct (set_control_cases self mask data node _ w
              (construct_control node mask data Hn Hm Hd) Ho) as [out ->].
  exists out. reflexivity.
Qed.

Lemma get_actual_one_exchange (print_state : bool) (node : Z) :
  is_byte node = true ->
  one_exchange (get_actual self print_state node) (query_telegram node 71).
Proof.
  intros Hn w Ho.
  destruct (get_actual_cases self print_state node w Hn Ho) as [out ->].
  exists out. reflexivity.
Qed.

End Exchanges.

Ltac exchange_step H L :=
  let a := fresh "a" in
  let out := fresh "out" in
  let E := fresh "E" in
  apply (bind_one_exchange _ _ _ _ _ _ L) in H; [|reflexivity || assumption];
  destruct H as (a & out & E & H).

(** X24: [print_info] does more than read.  When it returns it has
    written fourteen telegrams: eleven queries to node 0, whatever the
    node it was called for (objects 0, 1, 6, 8, 9, 2, 3, 4, 19, 38 and
    39), then for the given node the telegram that switches remote
    control on, the telegram that switches the output on, and the
    query of object 71.  The port stays open. *)
Theorem print_info_switches_output_on :
  forall (ps : ps2000) (node : Z) (w w' : world),
    is_byte node = true ->
    is_open w = true ->
    print_info ps node w = (Return tt, w') ->
    is_open w' = true /\
    exists evs : list event,
      trace w' = trace w ++ evs /\
      writes evs =
        [query_telegram 0 0; query_telegram 0 1; query_telegram 0 6;
         query_telegram 0 8; query_telegram 0 9; query_telegram 0 2;
         query_telegram 0 3; query_telegram 0 4; query_telegram 0 19;
         query_telegram 0 38; query_telegram 0 39;
         control_telegram node 0x10 0x10; control_telegram node 0x01 0x01;
         query_telegram node 71].
Proof.
  intros ps node w w' Hn Ho H. unfold print_info in H.
  exchange_step H (get_string_one_exchange ps 0 0 eq_refl eq_refl).
  rewrite bind_print in H.
  exchange_step H (get_string_one_exchange ps 1 0 eq_refl eq_refl).
  rewrite bind_print in H.
  exchange_step H (get_string_one_exchange ps 6 0 eq_refl eq_refl).
  rewrite bind_print in H.
  exchange_step H (get_string_one_exchange ps 8 0 eq_refl eq_refl).
  rewrite bind_print in H.
  exchange_step H (get_string_one_exchange ps 9 0 eq_refl eq_refl).
  rewrite bind_print in H.
  exchange_step H (get_float_one_exchange ps 2 0 eq_refl eq_refl).
  rewrite bind_print in H.
  exchange_step H (get_float_one_exchange ps 3 0 eq_refl eq_refl).
  rewrite bind_print in H.
  exchange_step H (get_float_one_exchange ps 4 0 eq_refl eq_refl).
  rewrite bind_print in H.
  exchange_step H (get_integer_one_exchange ps 19 0 eq_refl eq_refl).
  rewrite bind_print in H.
  exchange_step H (scaled_getter_one_exchange ps (u_nom ps) 38 0 eq_refl eq_refl).
  rewrite bind_print in H.
  exchange_step H (scaled_getter_one_exchange ps (i_nom ps) 39 0 eq_refl eq_refl).
  rewrite bind_print in H.
  exchange_step H (set_control_one_exchange ps 0x10 0x10 node eq_refl eq_refl Hn).
  rewrite bind_print in H.
  exchange_step H (set_control_one_exchange ps 0x01 0x01 node eq_refl eq_refl Hn).
  rewrite bind_print in H.
  exchange_step H (get_actual_one_exchange ps true node Hn).
  unfold ret in H. injection H as <-.
  split; [reflexivity|].
  eexists. split.
  - cbn [trace emit exchange]. rewrite <- !app_assoc. reflexivity.
  - reflexivity.
Qed.

Lemma print_info_switches_output_on_witness :
  let ps := mk_ps2000 false 84 5 false in
  let text := [0x50; 0x53; 0x20; 0x32; 0x30; 0x34; 0x32; 0x00] in
  let ack := answer [0x80; 0x00; 0xFF; 0x00] in
  let w := mkWorld "" true
             [answer ([0x87; 0x00; 0x00] ++ text);
              answer ([0x87; 0x00; 0x01] ++ text);
              answer ([0x87; 0x00; 0x06] ++ text);
              answer ([0x87; 0x00; 0x08] ++ text);
              answer ([0x87; 0x00; 0x09] ++ text);
              answer [0x83; 0x00; 0x02; 0x42; 0xA8; 0x00; 0x00];
              answer [0x83; 0x00; 0x03; 0x40; 0xA0; 0x00; 0x00];
              answer [0x83; 0x00; 0x04; 0x43; 0x20; 0x00; 0x00];
              answer [0x81; 0x00; 0x13; 0x00; 0x10];
              answer [0x81; 0x00; 0x26; 0x6E; 0x00];
              answer [0x81; 0x00; 0x27; 0x6E; 0x00];
              ack; ack;
              answer [0x85; 0x00; 0x47; 0x01; 0x03; 0x32; 0x00; 0x0C; 0x80]]
             [] in
  is_open (snd (print_info ps 0 w)) = true /\
  exists evs : list event,
    trace (snd (print_info ps 0 w)) = evs /\
    nth 12 (writes evs) [] = [0xF1; 0x00; 0x36; 0x01; 0x01; 0x01; 0x29].
Proof.
  intros ps text ack w.
  assert (H : print_info ps 0 w = (Return tt, snd (print_info ps 0 w)))
    by (vm_compute; reflexivity).
  destruct (print_info_switches_output_on ps 0 w _ eq_refl eq_refl H)
    as (Hopen & evs & Ht & Hw).
  split; [exact Hopen|]. exists evs. split; [exact Ht|].
  rewrite Hw. reflexivity.
Defined.

(** ** The command line ([__main__]) *)

(** The mutually exclusive, required options [--on], [--off],
    [--toggle] and [--info]. *)
Inductive action : Type := ActionOn | ActionOff | ActionToggle | ActionInfo.

(** The parsed arguments. *)
Module Args.
Record t := mk {
  port : string;
  verbose : bool;
  node : Z;
  action : action
}.
End Args.

Section Main.

(** ["{}".format(x)] for a float [x] *)
Variable format_float : float -> string.

Definition print_readings (ps : ps2000) (node : Z) : M unit :=
  do st <- get_actual ps false node;
  print ("Vact: " ++ format_float (Actual.v st)) ;;
  do st <- get_actual ps false node;
  print ("Iact: " ++ format_float (Actual.i st)).

(** The script; [time.sleep] has no effect on the port.  The class
    attribute [verbose] keeps its value [False]. *)
Definition main (ports : string -> bool) (args : Args.t) : M unit :=
  let node := Args.node args in
  let device_triple := negb (node =? 0) in
  do self <- __init__ ports false (Args.port args) device_triple;
  with_ self (fun ps =>
    (if Args.verbose args then
       do x <- get_voltage_setpoint ps node;
       print ("Vset: " ++ format_float x) ;;
       do x <- get_current_setpoint ps node;
       print ("Iset: " ++ format_float x) ;;
       print_readings ps node
     else ret tt) ;;
    match Args.action args with
    | ActionOn =>
        print "turning on" ;; set_output_on ps true node ;; ret tt
    | ActionOff =>
        print "turning off" ;; set_output_on ps false node ;; ret tt
    | ActionToggle =>
        do output_on <- get_output_on ps node;
        print (if output_on then "Output on -> turning off"
               else "Output off -> turning on") ;;
        set_output_on ps (negb output_on) node ;; ret tt
    | ActionInfo => print_info ps node
    end ;;
    if Args.verbose args then print_readings ps node else ret tt).

Lemma bind_ret_l {A B} (a : A) (k : A -> M B) (w : world) :
  bind (ret a) k w = k a w.
Proof. reflexivity. Qed.

Lemma bind_assoc {A B C} (m : M A) (k : A -> M B) (k' : B -> M C) (w : world) :
  bind (bind m k) k' w = bind m (fun a => bind (k a) k') w.
Proof. unfold bind. destruct (m w) as [[a|e] w1]; reflexivity. Qed.

Lemma with_returns {A} (self : ps2000) (body : ps2000 -> M A)
      (w w3 : world) (a : A) :
  with_ self body w = (Return a, w3) ->
  exists (ps : ps2000) (w1 w2 : world),
    __enter__ self w = (Return ps, w1) /\
    body ps w1 = (Return a, w2) /\
    __exit__ self w2 = (Return tt, w3).
Proof.
  unfold with_, bind at 1.
  destruct (__enter__ self w) as [[ps|e] w1]; [|discriminate].
  destruct (body ps w1) as [[a'|e] w2] eqn:Hb.
  - destruct (__exit__ self w2) as [[[]|e'] w3'] eqn:Hx; [|discriminate].
    intros [= <- <-]. exists ps, w1, w2.
    split; [reflexivity|]. split; [exact Hb | exact Hx].
  - destruct (__exit__ self w2) as [[u|e'] w3']; discriminate.
Qed.

Lemma enter_returns (self ps : ps2000) (w w1 : world) :
  is_open w = true ->
  __enter__ self w = (Return ps, w1) ->
  ps = self /\ is_open w1 = true /\
  trace w1 = trace w ++
    [EvWrite (acquire_telegram 0); EvRead 100 (peek_read 100 w)] ++
    (if triple self
     then [EvWrite (acquire_telegram 1);
           EvRead 100 (peek_read 100 (exchange (acquire_telegram 0) w))]
     else []).
Proof.
  intros Ho He. destruct (enter_outcome self w Ho) as [out H]. cbv zeta in H.
  destruct (release_completes (peek_read 100 w)).
  - destruct (triple self).
    + destruct (release_completes (peek_read 100 (exchange (acquire_telegram 0) w))).
      * rewrite H in He. injection He as <- <-. repeat split.
        cbn [trace emit exchange]. now rewrite <- app_assoc.
      * destruct H as [e H]. rewrite H in He. discriminate.
    + rewrite H in He. injection He as <- <-. repeat split.
  - destruct H as [e H]. rewrite H in He. discriminate.
Qed.

Lemma exit_returns (self : ps2000) (w w3 : world) :
  is_open w = true ->
  __exit__ self w = (Return tt, w3) ->
  is_open w3 = false /\
  trace w3 = trace w ++
    [EvWrite (release_telegram 0); EvRead 100 (peek_read 100 w)] ++
    (if triple self
     then [EvWrite (release_telegram 1);
           EvRead 100 (peek_read 100 (exchange (release_telegram 0) w))]
     else []) ++ [EvClose].
Proof.
  intros Ho Hx. pose proof (exit_outcome self w Ho) as X.
  pose proof (exit_trace self w Ho) as T. rewrite Hx in X, T.
  cbn [fst snd] in X, T. unfold releases_complete in X.
  unfold exit_events in T.
  destruct (release_completes (peek_read 100 w)); cbn [andb] in X;
    [|destruct X as [[e X] _]; discriminate X].
  destruct (triple self).
  - destruct (release_completes (peek_read 100 (exchange (release_telegram 0) w)));
      [|destruct X as [[e X] _]; discriminate X].
    split; [apply X | exact T].
  - split; [apply X | exact T].
Qed.

Lemma get_control_cases (self : ps2000) (node : Z) (w : world) :
  is_byte node = true -> is_open w = true ->
  exists out : string,
    get_control self node w =
    (if accepted (peek_read 100 w) then
       if 1 <? len (peek_read 100 w) - 5
       then Return (mk_control (Z.testbit (nth 4 (peek_read 100 w) 0) 0)
                               (Z.testbit (nth 3 (peek_read 100 w) 0) 0))
       else Raise IndexError
     else Raise (SystemExit 1),
     emit out (exchange (query_telegram node 54) w)).
Proof.
  intros Hn Ho.
  destruct (get_binary_cases self 54 node _ w (construct_query node 54 Hn eq_refl) Ho)
    as [out Hb].
  exists out. unfold get_control. run (rewrite Hb).
  destruct (accepted (peek_read 100 w)) eqn:Ha; [|reflexivity].
  pose proof (accepted_length _ Ha) as Hl.
  run (unfold lift; rewrite payload_getitem by lia).
  destruct (1 <? len (peek_read 100 w) - 5) eqn:E1; [|reflexivity].
  apply Z.ltb_lt in E1.
  run (unfold lift; rewrite payload_getitem by lia).
  replace (0 <? len (peek_read 100 w) - 5) with true
    by (symmetry; apply Z.ltb_lt; lia).
  unfold ret. rewrite <- !(land_pow2 _ 0) by lia. reflexivity.
Qed.

End Main.

(** X25: [--toggle], without [--verbose], when the script runs to its
    end.  The script opens the port and reads the two nominal values,
    sets remote control on node 0, and on node 1 when the node
    argument is not 0, reads object 54 of the node and writes the
    output telegram with the opposite of the output bit it has just
    read, and then releases remote control and closes the port. *)
Theorem main_toggle_inverts_output :
  forall (format_float : float -> string) (ports : string -> bool)
         (args : Args.t) (w w' : world),
    Args.action args = ActionToggle ->
    Args.verbose args = false ->
    is_byte (Args.node args) = true ->
    main format_float ports args w = (Return tt, w') ->
    let node := Args.node args in
    exists (ans : list Z) (pre post : list event),
      is_open w' = false /\
      trace w' = trace w ++ pre ++
        [EvWrite (query_telegram node 54); EvRead 100 ans;
         EvWrite (control_telegram node 0x01
                    (if Z.testbit (nth 4 ans 0) 0 then 0x00 else 0x01))] ++
        post /\
      writes pre =
        [query_telegram 0 2; query_telegram 0 3; acquire_telegram 0] ++
        (if node =? 0 then [] else [acquire_telegram 1]) /\
      writes post =
        [release_telegram 0] ++
        (if node =? 0 then [] else [release_telegram 1]).
Proof.
  intros format_float ports args w w' Ha Hv Hn H node.
  unfold main in H. fold node in H, Hn. rewrite Ha, Hv in H.
  unfold bind at 1 in H.
  destruct (__init__ ports false (Args.port args) (negb (node =? 0)) w)
    as [[self|e] w0] eqn:Hi; [|discriminate].
  destruct (init_returns _ _ _ _ _ _ _ Hi)
    as (_ & _ & _ & _ & _ & _ & _ & _ & Htr & out0 & ->).
  apply with_returns in H as (ps & w1 & w2 & He & Hb & Hx).
  apply enter_returns in He as (-> & Ho1 & T1); [|reflexivity].
  rewrite bind_ret_l, bind_assoc in Hb.
  unfold get_output_on in Hb. rewrite bind_assoc in Hb.
  unfold bind at 1 in Hb.
  destruct (get_control_cases self node w1 Hn Ho1) as [out1 Hc].
  rewrite Hc in Hb.
  destruct (accepted (peek_read 100 w1)); [|discriminate].
  destruct (1 <? len (peek_read 100 w1) - 5); [|discriminate].
  rewrite bind_ret_l in Hb. cbn [output_on] in Hb.
  rewrite bind_assoc, bind_print, bind_assoc in Hb.
  set (on := Z.testbit (nth 4 (peek_read 100 w1) 0) 0) in *.
  assert (Hs : one_exchange (set_output_on self (negb on) node)
                 (control_telegram node 0x01 (if on then 0x00 else 0x01))).
  { unfold set_output_on. destruct on; cbn [negb];
      apply set_control_one_exchange; (reflexivity || exact Hn). }
  exchange_step Hb Hs.
  rewrite !bind_ret_l in Hb. unfold ret in Hb. injection Hb as <-.
  apply exit_returns in Hx as [Hclosed T2]; [|reflexivity].
  rewrite T2. cbn [trace emit exchange]. rewrite T1.
  cbn [trace emit exchange opened]. rewrite Htr.
  rewrite <- !app_assoc. cbn [app].
  match goal with
  | |- context [trace w ++ ?a :: ?b :: ?c :: ?d :: ?e :: ?f ::
                  (?g ++ ?h :: ?i :: ?j :: ?k :: ?l :: ?m :: ?n)] =>
      exists (peek_read 100 w1), ([a; b; c; d; e; f] ++ g), (k :: l :: m :: n)
  end.
  split; [exact Hclosed|]. split; [|split].
  - rewrite <- !app_assoc. reflexivity.
  - destruct (node =? 0); reflexivity.
  - destruct (node =? 0); reflexivity.
Qed.

Lemma main_toggle_inverts_output_witness :
  let ack := answer [0x80; 0x00; 0xFF; 0x00] in
  let w := mkWorld "" false
             [answer [0x83; 0x00; 0x02; 0x42; 0xA8; 0x00; 0x00];
              answer [0x83; 0x00; 0x03; 0x40; 0xA0; 0x00; 0x00];
              ack;
              answer [0x81; 0x00; 0x36; 0x01; 0x01];
              ack; ack] [] in
  let args := Args.mk "/dev/ttyACM0" false 0 ActionToggle in
  let r := main (fun _ => "") (fun _ => true) args w in
  fst r = Return tt /\
  is_open (snd r) = false /\
  writes (trace (snd r)) =
    [query_telegram 0 2; query_telegram 0 3; acquire_telegram 0;
     query_telegram 0 54; control_telegram 0 0x01 0x00; release_telegram 0].
Proof.
  intros ack w args r.
  assert (H : main (fun _ => "") (fun _ => true) args w = (Return tt, snd r))
    by (vm_compute; reflexivity).
  split; [unfold r; rewrite H; reflexivity|].
  destruct (main_toggle_inverts_output (fun _ => "") (fun _ => true) args w _
              eq_refl eq_refl eq_refl H)
    as (ans & pre & post & Hc & _).
  split; [exact Hc | vm_compute; reflexivity].
Defined.
